(** * ciocheck.vcs: the version-control diff engine

    A shallow embedding of [ciocheck/vcs.py]: the unified-diff parser of
    [GitDiffTool], the three diff providers and the [DiffTool] aggregator.

    Conventions of the embedding.
    - A Python [str] is a [string]; a line number is a [Z] (Python [int]).
    - A Python [dict] is an association list in insertion order, written
      through [dict_set], which replaces the value of a key in place and
      appends a key that is new, as Python does.
    - [raise Exception(msg)] is [Raise msg]; every function that can raise
      returns a [result].
    - [run_command] and [get_files] are the two capabilities the module
      imports from [ciocheck.utils]; they are section variables, and a call
      is taken to be a function of its arguments (one invocation of the tool
      sees one state of the working tree).
    - [print] is not modelled. *)

From Stdlib Require Import String Ascii List ZArith Bool Lia Arith.
From Stdlib Require Import Sorting.Sorted Sorting.Permutation.
Import ListNotations.
Open Scope string_scope.

(** ** Exceptions *)

Inductive result (A : Type) : Type :=
| Ok (a : A)
| Raise (msg : string).

Arguments Ok {A} a.
Arguments Raise {A} msg.

Definition bind {A B : Type} (m : result A) (k : A -> result B) : result B :=
  match m with
  | Ok a => k a
  | Raise msg => Raise msg
  end.

Notation "x <- m ;; k" := (bind m (fun x => k))
  (at level 61, m at next level, right associativity).

(** A [for] loop whose body may raise: the first exception ends the loop. *)
Fixpoint for_each {A S : Type} (body : S -> A -> result S) (xs : list A) (s : S)
  : result S :=
  match xs with
  | [] => Ok s
  | x :: xs' => s' <- body s x ;; for_each body xs' s'
  end.

(** ** The [str] methods the module uses *)

Module Str.

Definition newline : ascii := "010"%char.
Definition nul : ascii := "000"%char.
Definition dquote : ascii := "034"%char.

(** The separators ['\n'] and ['\x00'] as strings. *)
Definition nl : string := String newline EmptyString.
Definition nul_sep : string := String nul EmptyString.

(** [s.startswith(p)] *)
Definition startswith (s p : string) : bool := String.prefix p s.

(** [sub in s] *)
Fixpoint contains (sub s : string) : bool :=
  String.prefix sub s ||
  match s with
  | EmptyString => false
  | String _ s' => contains sub s'
  end.

(** [s.split(sep)] for a non-empty [sep]: the pieces between the
    occurrences of [sep], found from the left and not overlapping.
    [skip] counts the characters of an occurrence still to be passed. *)
Fixpoint split_from (sep : string) (skip : nat) (s : string) : list string :=
  match s with
  | EmptyString => [EmptyString]
  | String c s' =>
      match skip with
      | S k => split_from sep k s'
      | O =>
          if String.prefix sep s
          then EmptyString :: split_from sep (Nat.pred (String.length sep)) s'
          else match split_from sep O s' with
               | piece :: pieces => String c piece :: pieces
               | [] => [String c EmptyString]
               end
      end
  end.

Definition split (s sep : string) : list string := split_from sep O s.

Definition is_digit (c : ascii) : bool :=
  let n := nat_of_ascii c in (48 <=? n)%nat && (n <=? 57)%nat.

Definition digit_value (c : ascii) : Z := Z.of_nat (nat_of_ascii c - 48).

Fixpoint int_digits (acc : Z) (s : string) : option Z :=
  match s with
  | EmptyString => Some acc
  | String c s' =>
      if is_digit c then int_digits (10 * acc + digit_value c) s' else None
  end.

(** The number of digits beyond which [int] refuses a string: the default
    of [sys.int_max_str_digits] (CPython 3.11 and later).  Every character
    of the run counts, leading zeros included.  An interpreter started
    with another limit, or with none, draws the line elsewhere; the
    embedding fixes the default. *)
Definition int_max_str_digits : Z := 4300.

(** [int(s)] on the strings the callers pass, which are runs of the
    digits 0-9: the empty string, a run of more than
    [int_max_str_digits] digits and anything that is not a digit is a
    [ValueError], here [None]. *)
Definition int (s : string) : option Z :=
  match s with
  | EmptyString => None
  | _ =>
      if (Z.of_nat (String.length s) <=? int_max_str_digits)%Z
      then int_digits 0 s
      else None
  end.

(** [s.endswith(p)] *)
Definition endswith (s p : string) : bool :=
  String.prefix (string_of_list_ascii (rev (list_ascii_of_string p)))
                (string_of_list_ascii (rev (list_ascii_of_string s))).

(** ["...'{0}'...".format(x)] with the text before and after the field *)
Definition format1 (before x after : string) : string :=
  before ++ x ++ after.

End Str.

(** ** The fragment of [re] the module uses

    The three patterns are sequences of items over single-character
    classes: a class once, optionally ([?]), repeated ([*]), repeated inside
    the one capturing group ([( * )]), and the anchor [^].  Matching is
    Python's: greedy, backtracking, leftmost. *)

Module Re.

Inductive cclass : Type :=
| CChar (c : ascii)            (* a literal character *)
| CAny                         (* .  : anything but a newline *)
| CNot (cs : list ascii)       (* [^...] *)
| CRange (lo hi : ascii).      (* [lo-hi] *)

Inductive item : Type :=
| Bol                          (* ^ *)
| One (c : cclass)
| Opt (c : cclass)             (* c? *)
| Star (c : cclass)            (* c* *)
| GStar (c : cclass).          (* (c* ) *)

Definition regex := list item.

Definition cmatch (c : cclass) (a : ascii) : bool :=
  match c with
  | CChar b => Ascii.eqb a b
  | CAny => negb (Ascii.eqb a Str.newline)
  | CNot cs => negb (existsb (Ascii.eqb a) cs)
  | CRange lo hi =>
      (nat_of_ascii lo <=? nat_of_ascii a)%nat &&
      (nat_of_ascii a <=? nat_of_ascii hi)%nat
  end.

Fixpoint lit (s : string) : regex :=
  match s with
  | EmptyString => []
  | String c s' => One (CChar c) :: lit s'
  end.

(** One more character consumed in front of a match. *)
Definition advance (m : option (string * nat)) : option (string * nat) :=
  match m with
  | Some (g, n) => Some (g, S n)
  | None => None
  end.

(** The same, the character being part of the group. *)
Definition capture (a : ascii) (m : option (string * nat))
  : option (string * nat) :=
  match m with
  | Some (g, n) => Some (String a g, S n)
  | None => None
  end.

(** The group starts here: what follows it captures nothing. *)
Definition open_group (m : option (string * nat)) : option (string * nat) :=
  match m with
  | Some (_, n) => Some (EmptyString, n)
  | None => None
  end.

Definition or_else {A : Type} (m : option A) (alt : option A) : option A :=
  match m with
  | Some x => Some x
  | None => alt
  end.

(** [rmatch r bol s]: match [r] at the head of [s]; [bol] tells whether
    the head of [s] is the beginning of the subject.  The result is the
    text of the group and the number of characters matched. *)
Fixpoint rmatch (r : regex) (bol : bool) (s : string) {struct r}
  : option (string * nat) :=
  match r with
  | [] => Some (EmptyString, O)
  | Bol :: r' => if bol then rmatch r' bol s else None
  | One c :: r' =>
      match s with
      | String a s' => if cmatch c a then advance (rmatch r' false s') else None
      | EmptyString => None
      end
  | Opt c :: r' =>
      match s with
      | String a s' =>
          if cmatch c a
          then or_else (advance (rmatch r' false s')) (rmatch r' bol s)
          else rmatch r' bol s
      | EmptyString => rmatch r' bol s
      end
  | Star c :: r' =>
      (fix star (bol : bool) (s : string) {struct s} : option (string * nat) :=
         match s with
         | String a s' =>
             if cmatch c a
             then or_else (advance (star false s')) (rmatch r' bol s)
             else rmatch r' bol s
         | EmptyString => rmatch r' bol s
         end) bol s
  | GStar c :: r' =>
      (fix star (bol : bool) (s : string) {struct s} : option (string * nat) :=
         match s with
         | String a s' =>
             if cmatch c a
             then or_else (capture a (star false s'))
                          (open_group (rmatch r' bol s))
             else open_group (rmatch r' bol s)
         | EmptyString => open_group (rmatch r' bol s)
         end) bol s
  end.

(** [r.findall(s)] for a pattern with one group that matches no empty
    text: the group of every match, scanning from the left, each search
    resuming where the previous match ended.  [skip] counts the characters
    of the last match still to be passed. *)
Fixpoint findall_from (r : regex) (bol : bool) (skip : nat) (s : string)
  : list string :=
  match s with
  | EmptyString => []
  | String _ s' =>
      match skip with
      | S k => findall_from r false k s'
      | O =>
          match rmatch r bol s with
          | Some (g, n) => g :: findall_from r false (Nat.pred n) s'
          | None => findall_from r false O s'
          end
      end
  end.

Definition findall (r : regex) (s : string) : list string :=
  findall_from r true O s.

End Re.

(** ** Python's [os.path.join] (posixpath) for two components *)

Definition os_path_join (a b : string) : string :=
  if Str.startswith b "/" then b
  else match a with
       | EmptyString => b
       | _ => if Str.endswith a "/" then a ++ b else a ++ "/" ++ b
       end.

(** ** Dictionaries in insertion order *)

Section Dict.
Context {K V : Type} (eqb : K -> K -> bool).

Fixpoint dict_get (d : list (K * V)) (k : K) : option V :=
  match d with
  | [] => None
  | (k', v) :: d' => if eqb k k' then Some v else dict_get d' k
  end.

Definition dict_mem (d : list (K * V)) (k : K) : bool :=
  match dict_get d k with Some _ => true | None => false end.

(** [d[k] = v] *)
Fixpoint dict_set (d : list (K * V)) (k : K) (v : V) : list (K * V) :=
  match d with
  | [] => [(k, v)]
  | (k', v') :: d' =>
      if eqb k k' then (k', v) :: d' else (k', v') :: dict_set d' k v
  end.

Definition dict_keys (d : list (K * V)) : list K := map fst d.
End Dict.

(** Sorting by a key with Python's order on [str] (the order of the code
    points), stable as [sorted] is. *)
Section Sorted.
Context {A : Type} (key : A -> string).

Fixpoint insert_sorted (x : A) (l : list A) : list A :=
  match l with
  | [] => [x]
  | y :: l' =>
      if String.leb (key x) (key y) then x :: l
      else y :: insert_sorted x l'
  end.

Fixpoint sorted_by (l : list A) : list A :=
  match l with
  | [] => []
  | x :: l' => insert_sorted x (sorted_by l')
  end.
End Sorted.

(** [sorted(xs)] on a list of [str] *)
Definition sorted (l : list string) : list string := sorted_by (fun s => s) l.

(** Modelled from the spec: [make_sorted_dict] of [ciocheck.utils], which
    is not among the sources; the specification has the mapping
    "materialized into a sorted-by-key ordered structure". *)
Definition make_sorted_dict {V : Type} (d : list (string * V))
  : list (string * V) :=
  sorted_by fst d.

(** ** [GitDiffTool]: the unified-diff parser *)

Module GitDiffTool.

Import Re.

(** [r'^diff --git Q?a/.*Q? Q?b/(G)Q?'], where Q stands for the
    double-quote character and the group G is [[^ \nQ]*]. *)
Definition SRC_FILE_RE : regex :=
  (Bol :: lit "diff --git " ++ [Opt (CChar Str.dquote)] ++ lit "a/" ++
   [Star CAny; Opt (CChar Str.dquote); One (CChar " "%char);
    Opt (CChar Str.dquote)] ++ lit "b/" ++
   [GStar (CNot [" "%char; Str.newline; Str.dquote]);
    Opt (CChar Str.dquote)])%list.

(** [r'^diff --cc (G)'], where the group G is [[^ \n]*]. *)
Definition MERGE_CONFLICT_RE : regex :=
  (Bol :: lit "diff --cc " ++ [GStar (CNot [" "%char; Str.newline])])%list.

(** [r'\+(G)'], where the group G is [[0-9]*]. *)
Definition HUNK_LINE_RE : regex :=
  [One (CChar "+"%char); GStar (CRange "0"%char "9"%char)].

(** A per-file section: the lines kept for one source path. *)
Definition sections := list (string * list string).

(** The pair [(ADDED_LINES, DELETED_LINES)]. *)
Definition line_changes := (list Z * list Z)%type.

Definition _parse_source_line (line : string) : result string :=
  regex <-
    (if Str.contains "--git" line then Ok SRC_FILE_RE
     else if Str.contains "--cc" line then Ok MERGE_CONFLICT_RE
     else Raise (Str.format1 "Do not recognize format of source in line '"
                             line "'")) ;;
  match findall regex line with
  | [g] => Ok g
  | _ => Raise (Str.format1 "Could not parse source path in line '" line "'")
  end.

(** The variables of the loop of [_parse_source_sections]. *)
Record section_state : Type := {
  source_dict : sections;
  src_path : option string;
  found_hunk : bool
}.

Definition is_header (line : string) : bool :=
  Str.startswith line "diff --git" || Str.startswith line "diff --cc".

Definition is_hunk (line : string) : bool := Str.startswith line "@@".

(** [source_dict[src_path].append(line)] *)
Definition append_line (d : sections) (p line : string) : result sections :=
  match dict_get String.eqb d p with
  | Some kept => Ok (dict_set String.eqb d p (kept ++ [line])%list)
  | None => Raise ("KeyError: '" ++ p ++ "'")
  end.

Definition section_step (st : section_state) (line : string)
  : result section_state :=
  if is_header line then
    p <- _parse_source_line line ;;
    let d := if dict_mem String.eqb (source_dict st) p
             then source_dict st
             else dict_set String.eqb (source_dict st) p [] in
    Ok {| source_dict := d; src_path := Some p; found_hunk := false |}
  else if found_hunk st || is_hunk line then
    match src_path st with
    | Some p =>
        d <- append_line (source_dict st) p line ;;
        Ok {| source_dict := d; src_path := Some p; found_hunk := true |}
    | None =>
        if is_hunk line
        then Raise (Str.format1 "Hunk has no source file: '" line "'")
        else Ok {| source_dict := source_dict st; src_path := None;
                   found_hunk := true |}
    end
  else Ok st.

Definition section_init : section_state :=
  {| source_dict := []; src_path := None; found_hunk := false |}.

Definition _parse_source_sections (diff_str : string) : result sections :=
  st <- for_each section_step (Str.split diff_str Str.nl)
                 section_init ;;
  Ok (source_dict st).

Definition _parse_hunk_line (line : string) : result Z :=
  match Str.split line "@@" with
  | _ :: hunk_info :: _ =>
      match findall HUNK_LINE_RE hunk_info with
      | [g] =>
          match Str.int g with
          | Some n => Ok n
          | None =>
              Raise (Str.format1 "Could not parse '" g "' as a line number")
          end
      | _ => Raise (Str.format1 "Could not find start of hunk in line '"
                                line "'")
      end
  | _ => Raise (Str.format1 "Could not parse hunk in line '" line "'")
  end.

(** The variables of the loop of [_parse_lines]. *)
Record line_state : Type := {
  added_lines : list Z;
  deleted_lines : list Z;
  current_line_new : option Z;
  current_line_old : option Z
}.

Definition incr (c : option Z) : option Z :=
  match c with
  | Some n => Some (n + 1)%Z
  | None => None
  end.

Definition line_step (st : line_state) (line : string) : result line_state :=
  if Str.startswith line "@@" then
    line_num <- _parse_hunk_line line ;;
    Ok {| added_lines := added_lines st;
          deleted_lines := deleted_lines st;
          current_line_new := Some line_num;
          current_line_old := Some line_num |}
  else if Str.startswith line "+" then
    match current_line_new st with
    | Some n =>
        Ok {| added_lines := (added_lines st ++ [n])%list;
              deleted_lines := deleted_lines st;
              current_line_new := Some (n + 1)%Z;
              current_line_old := current_line_old st |}
    | None => Ok st
    end
  else if Str.startswith line "-" then
    match current_line_old st with
    | Some n =>
        Ok {| added_lines := added_lines st;
              deleted_lines := (deleted_lines st ++ [n])%list;
              current_line_new := current_line_new st;
              current_line_old := Some (n + 1)%Z |}
    | None => Ok st
    end
  else
    Ok {| added_lines := added_lines st;
          deleted_lines := deleted_lines st;
          current_line_new := incr (current_line_new st);
          current_line_old := incr (current_line_old st) |}.

Definition line_init : line_state :=
  {| added_lines := []; deleted_lines := [];
     current_line_new := None; current_line_old := None |}.

Definition _parse_lines (diff_lines : list string) : result line_changes :=
  st <- for_each line_step diff_lines line_init ;;
  Ok (added_lines st, deleted_lines st).

(** The loop of [_parse_diff_str] over [sections_dict.items()];
    [top_level] is [None] when the root could not be resolved, and
    joining a path to it is then a [TypeError]. *)
Definition diff_step (top_level : option string)
    (diff_dict : list (string * line_changes)) (item : string * list string)
  : result (list (string * line_changes)) :=
  match top_level with
  | None => Raise "TypeError"
  | Some top =>
      let full_src_path := os_path_join top (fst item) in
      changes <- _parse_lines (snd item) ;;
      Ok (dict_set String.eqb diff_dict full_src_path changes)
  end.

Definition _parse_diff_str (top_level : option string) (diff_str : string)
  : result (list (string * line_changes)) :=
  sections_dict <- _parse_source_sections diff_str ;;
  diff_dict <- for_each (diff_step top_level) sections_dict [] ;;
  Ok (make_sorted_dict diff_dict).

(** *** The provider: commands and queries

    [run_command command cwd] is the pair [(output, error)] of the
    captured streams.  The mode constants and the default branch come
    from [ciocheck.config]. *)
Section Provider.

Variable run_command : list string -> string -> string * string.
Variables COMMITED_MODE STAGED_MODE UNSTAGED_MODE DEFAULT_BRANCH : string.

(** The instance attribute [self.path]. *)
Variable path : string.

(** The truth value of a [str]. *)
Definition truthy (s : string) : bool :=
  match s with EmptyString => false | _ => true end.

Definition is_repo : bool :=
  let (output, error) := run_command ["git"; "rev-parse"] path in
  if truthy error then false
  else negb (truthy error) && negb (truthy output).

(** [None] when the command reports an error. *)
Definition top_level : option string :=
  let (output, error) :=
    run_command ["git"; "rev-parse"; "--show-toplevel"; "--encoding=utf-8"]
                path in
  if truthy error then None
  else Some (hd EmptyString (Str.split output Str.nl)).

(** The command line [_git_run_helper] builds. *)
Definition _git_command (branch : string) (files_only : bool)
    (mode : string) : list string :=
  (["git"; "-c"; "diff.mnemonicprefix=no"; "diff"] ++
   (if String.eqb mode COMMITED_MODE then [(branch ++ "...HEAD")%string]
    else if String.eqb mode STAGED_MODE then ["--cached"]
    else []) ++
   ["--no-color"; "--no-ext-diff"; "--diff-filter=AM"] ++
   (if files_only then ["--name-only"; "-z"] else []))%list.

(** [os.path.join(self.top_level, i) for i in names]: a [TypeError]
    at the first element when the root is [None]. *)
Definition join_all (names : list string) : result (list string) :=
  match names with
  | [] => Ok []
  | _ => match top_level with
         | Some top => Ok (map (os_path_join top) names)
         | None => Raise "TypeError"
         end
  end.

(** [_git_run_helper(..., files_only=True, ...)] *)
Definition _git_run_helper_files (branch mode : string)
  : result (list string) :=
  let (output, _) := run_command (_git_command branch true mode) path in
  let result :=
    filter (fun i => negb (String.eqb i EmptyString))
           (nodup String.string_dec
                  (Str.split output Str.nul_sep)) in
  result <- join_all (sorted result) ;;
  Ok (filter (fun i => Str.startswith i path) result).

(** [_git_run_helper(..., files_only=False, ...)] *)
Definition _git_run_helper_text (branch mode : string) : string :=
  fst (run_command (_git_command branch false mode) path).

Definition _diff_committed (branch : string) : string :=
  _git_run_helper_text branch COMMITED_MODE.

Definition _diff_staged : string :=
  _git_run_helper_text DEFAULT_BRANCH STAGED_MODE.

Definition _diff_unstaged : string :=
  _git_run_helper_text DEFAULT_BRANCH UNSTAGED_MODE.

Definition commited_files (branch : string) : result (list string) :=
  _git_run_helper_files branch COMMITED_MODE.

Definition staged_files : result (list string) :=
  _git_run_helper_files DEFAULT_BRANCH STAGED_MODE.

Definition unstaged_files : result (list string) :=
  _git_run_helper_files DEFAULT_BRANCH UNSTAGED_MODE.

Definition commited_file_lines (branch : string)
  : result (list (string * line_changes)) :=
  _parse_diff_str top_level (_diff_committed branch).

Definition staged_file_lines
  : result (list (string * line_changes)) :=
  _parse_diff_str top_level _diff_staged.

Definition unstaged_file_lines
  : result (list (string * line_changes)) :=
  _parse_diff_str top_level _diff_unstaged.

End Provider.

End GitDiffTool.

(** ** [HgDiffTool]: the stub *)

Module HgDiffTool.

Definition top_level (path : string) : option string := Some EmptyString.
Definition is_repo (path : string) : bool := false.
Definition commited_files (path branch : string) : list string := [].
Definition staged_files (path : string) : list string := [].
Definition unstaged_files (path : string) : list string := [].
Definition commited_file_lines (path branch : string)
  : list (string * GitDiffTool.line_changes) := [].
Definition staged_file_lines (path : string)
  : list (string * GitDiffTool.line_changes) := [].
Definition unstaged_file_lines (path : string)
  : list (string * GitDiffTool.line_changes) := [].

End HgDiffTool.

(** ** [NoDiffTool]: a folder not under version control *)

Module NoDiffTool.

(** [range(n)] as the sequence of its elements. *)
Definition range (n : Z) : list Z := map Z.of_nat (seq 0 (Z.to_nat n)).

Section Provider.

Variable get_files : list string -> list string.
Variable path : string.

Definition whole_file : GitDiffTool.line_changes :=
  ([(-1)%Z], range 100000%Z).

(** [_get_files_helper(lines=True)] *)
Definition _get_files_helper_lines
  : list (string * GitDiffTool.line_changes) :=
  fold_left (fun paths_dic p => dict_set String.eqb paths_dic p whole_file)
            (get_files [path]) [].

(** [_get_files_helper(lines=False)] *)
Definition _get_files_helper : list string := get_files [path].

Definition top_level : option string := Some path.
Definition is_repo : bool := true.
Definition commited_files (branch : string) := _get_files_helper.
Definition staged_files := _get_files_helper.
Definition unstaged_files := _get_files_helper.
Definition commited_file_lines (branch : string) := _get_files_helper_lines.
Definition staged_file_lines := _get_files_helper_lines.
Definition unstaged_file_lines := _get_files_helper_lines.

End Provider.

End NoDiffTool.

(** ** [DiffTool]: the aggregator over several roots *)

Module DiffTool.

Inductive tool : Type :=
| Git (path : string)
| Hg (path : string)
| NoDiff (path : string).

(** The class attribute [TOOLS], in its order. *)
Definition TOOLS : list (string -> tool) := [Git; Hg; NoDiff].

Section Aggregator.

Variable run_command : list string -> string -> string * string.
Variable get_files : list string -> list string.
Variables COMMITED_MODE STAGED_MODE UNSTAGED_MODE DEFAULT_BRANCH : string.

Definition is_repo (t : tool) : bool :=
  match t with
  | Git p => GitDiffTool.is_repo run_command p
  | Hg p => HgDiffTool.is_repo p
  | NoDiff p => NoDiffTool.is_repo
  end.

Definition top_level (t : tool) : option string :=
  match t with
  | Git p => GitDiffTool.top_level run_command p
  | Hg p => HgDiffTool.top_level p
  | NoDiff p => NoDiffTool.top_level p
  end.

Definition option_string_eqb (a b : option string) : bool :=
  match a, b with
  | Some x, Some y => String.eqb x y
  | None, None => true
  | _, _ => false
  end.

(** The inner loop of [__init__]: the first tool of [tools] that
    reports a repository at [path]; the loop breaks there. *)
Fixpoint select_tool (tools : list (string -> tool)) (path : string)
  : option tool :=
  match tools with
  | [] => None
  | diff_tool :: tools' =>
      let t := diff_tool path in
      if is_repo t then Some t else select_tool tools' path
  end.

(** The body of the outer loop of [__init__]. *)
Definition register (diff_tools : list (option string * tool))
    (path : string) : list (option string * tool) :=
  match select_tool TOOLS path with
  | Some t =>
      if dict_mem option_string_eqb diff_tools (top_level t)
      then diff_tools
      else dict_set option_string_eqb diff_tools (top_level t) t
  | None => diff_tools
  end.

(** [DiffTool(paths).diff_tools] *)
Definition __init__ (paths : list string) : list (option string * tool) :=
  fold_left register paths [].

Inductive change_mode : Type := Commited | Staged | Unstaged.

(** The branch and the mode constant a query passes to
    [_git_run_helper]. *)
Definition mode_args (m : change_mode) (branch : string)
  : string * string :=
  match m with
  | Commited => (branch, COMMITED_MODE)
  | Staged => (DEFAULT_BRANCH, STAGED_MODE)
  | Unstaged => (DEFAULT_BRANCH, UNSTAGED_MODE)
  end.

(** The [*_files] query of a provider for a mode. *)
Definition tool_files (m : change_mode) (branch : string) (t : tool)
  : result (list string) :=
  match t, m with
  | Git p, Commited =>
      GitDiffTool.commited_files run_command COMMITED_MODE STAGED_MODE p branch
  | Git p, Staged =>
      GitDiffTool.staged_files run_command COMMITED_MODE STAGED_MODE DEFAULT_BRANCH p
  | Git p, Unstaged =>
      GitDiffTool.unstaged_files run_command COMMITED_MODE STAGED_MODE
                                 UNSTAGED_MODE DEFAULT_BRANCH p
  | Hg p, Commited => Ok (HgDiffTool.commited_files p branch)
  | Hg p, Staged => Ok (HgDiffTool.staged_files p)
  | Hg p, Unstaged => Ok (HgDiffTool.unstaged_files p)
  | NoDiff p, Commited => Ok (NoDiffTool.commited_files get_files p branch)
  | NoDiff p, Staged => Ok (NoDiffTool.staged_files get_files p)
  | NoDiff p, Unstaged => Ok (NoDiffTool.unstaged_files get_files p)
  end.

(** The [*_file_lines] query of a provider for a mode. *)
Definition tool_file_lines (m : change_mode) (branch : string) (t : tool)
  : result (list (string * GitDiffTool.line_changes)) :=
  match t, m with
  | Git p, Commited =>
      GitDiffTool.commited_file_lines run_command COMMITED_MODE STAGED_MODE p branch
  | Git p, Staged =>
      GitDiffTool.staged_file_lines run_command COMMITED_MODE STAGED_MODE DEFAULT_BRANCH p
  | Git p, Unstaged =>
      GitDiffTool.unstaged_file_lines run_command COMMITED_MODE STAGED_MODE
                                      UNSTAGED_MODE DEFAULT_BRANCH p
  | Hg p, Commited => Ok (HgDiffTool.commited_file_lines p branch)
  | Hg p, Staged => Ok (HgDiffTool.staged_file_lines p)
  | Hg p, Unstaged => Ok (HgDiffTool.unstaged_file_lines p)
  | NoDiff p, Commited =>
      Ok (NoDiffTool.commited_file_lines get_files p branch)
  | NoDiff p, Staged => Ok (NoDiffTool.staged_file_lines get_files p)
  | NoDiff p, Unstaged => Ok (NoDiffTool.unstaged_file_lines get_files p)
  end.

(** [results.update(d)] *)
Definition dict_update {V : Type} (results d : list (string * V))
  : list (string * V) :=
  fold_left (fun acc kv => dict_set String.eqb acc (fst kv) (snd kv))
            d results.

(** [commited_files], [staged_files], [unstaged_files] *)
Definition files (diff_tools : list (option string * tool))
    (m : change_mode) (branch : string) : result (list string) :=
  results <-
    for_each (fun results kt =>
                fs <- tool_files m branch (snd kt) ;;
                Ok (results ++ fs)%list)
             diff_tools [] ;;
  Ok (sorted results).

(** [commited_file_lines], [staged_file_lines], [unstaged_file_lines] *)
Definition file_lines (diff_tools : list (option string * tool))
    (m : change_mode) (branch : string)
  : result (list (string * GitDiffTool.line_changes)) :=
  results <-
    for_each (fun results kt =>
                d <- tool_file_lines m branch (snd kt) ;;
                Ok (dict_update results d))
             diff_tools [] ;;
  Ok (make_sorted_dict results).

End Aggregator.

End DiffTool.

(** ** Diff texts used as examples *)

Module Samples.

Definition nl : string := Str.nl.

(** The text of the concrete scenario of the specification. *)
Definition scenario : string :=
  String.concat nl
    ["diff --git a/foo.py b/foo.py";
     "index 111..222 100644";
     "--- a/foo.py";
     "+++ b/foo.py";
     "@@ -1,3 +1,4 @@";
     " line1";
     "+line2";
     " line3";
     "-line4";
     " line5"].

(** The lines the sectioning pass keeps of [scenario]. *)
Definition scenario_kept : list string :=
  ["@@ -1,3 +1,4 @@"; " line1"; "+line2"; " line3"; "-line4"; " line5"].

(** Two hunks of one file as [git diff] prints them, the first one
    removing seven lines: the second hunk starts at new line 7. *)
Definition shrinking : string :=
  String.concat nl
    ["diff --git a/foo.py b/foo.py";
     "index 111..222 100644";
     "--- a/foo.py";
     "+++ b/foo.py";
     "@@ -1,13 +1,6 @@";
     " l1"; " l2"; " l3";
     "-l4"; "-l5"; "-l6"; "-l7"; "-l8"; "-l9"; "-l10";
     " l11"; " l12"; " l13";
     "@@ -14,7 +7,6 @@";
     " l14"; " l15"; " l16";
     "-l17";
     " l18"; " l19"; " l20"].

(** Two files.  The hunks of [bar.py] are out of order.  The two hunks
    of [foo.py] are as [git diff] prints them for a change that removes
    eight lines and adds one in the first hunk, so that the second hunk
    starts at new line 8 and old line 15, and that replaces one line
    there. *)
Definition net_deleting : string :=
  String.concat nl
    ["diff --git a/bar.py b/bar.py";
     "@@ -10 +10,2 @@";
     "+x";
     " c";
     "@@ -1 +1,2 @@";
     "+y";
     " d";
     "diff --git a/foo.py b/foo.py";
     "index 111..222 100644";
     "--- a/foo.py";
     "+++ b/foo.py";
     "@@ -1,14 +1,7 @@";
     " l1"; " l2"; " l3";
     "+n4";
     "-l4"; "-l5"; "-l6"; "-l7"; "-l8"; "-l9"; "-l10"; "-l11";
     " l12"; " l13"; " l14";
     "@@ -15,7 +8,7 @@";
     " l15"; " l16"; " l17";
     "-l18";
     "+n18";
     " l19"; " l20"; " l21"].

(** The lines the sectioning pass keeps of [net_deleting]. *)
Definition net_deleting_kept : list (string * list string) :=
  [("bar.py", ["@@ -10 +10,2 @@"; "+x"; " c"; "@@ -1 +1,2 @@"; "+y"; " d"]);
   ("foo.py",
    ["@@ -1,14 +1,7 @@";
     " l1"; " l2"; " l3";
     "+n4";
     "-l4"; "-l5"; "-l6"; "-l7"; "-l8"; "-l9"; "-l10"; "-l11";
     " l12"; " l13"; " l14";
     "@@ -15,7 +8,7 @@";
     " l15"; " l16"; " l17";
     "-l18";
     "+n18";
     " l19"; " l20"; " l21"])].

(** One file, two hunks, one added line at the head of each. *)
Definition two_hunks : string :=
  String.concat nl
    ["diff --git a/foo.py b/foo.py";
     "@@ -1,3 +1,4 @@";
     "+first";
     " a"; " b"; " c";
     "@@ -10,2 +11,3 @@";
     "+second";
     " d"; " e"].

(** A path named by two headers, the second section without a hunk. *)
Definition named_twice : string :=
  String.concat nl
    ["diff --git a/foo.py b/foo.py";
     "@@ -1 +1,2 @@";
     " a";
     "+b";
     "diff --git a/foo.py b/foo.py";
     "index 111..222 100644"].

(** A path named by two headers, each section with a hunk. *)
Definition two_sections : string :=
  String.concat nl
    ["diff --git a/foo.py b/foo.py";
     "@@ -1 +1,2 @@";
     " a";
     "+b";
     "diff --git a/bar.py b/bar.py";
     "@@ -3 +3 @@";
     "-x";
     "+y";
     "diff --git a/foo.py b/foo.py";
     "@@ -7,2 +8 @@";
     "-c";
     " d"].

(** A header followed by metadata only. *)
Definition no_hunk : string :=
  String.concat nl
    ["diff --git a/foo.py b/foo.py";
     "index 111..222 100644";
     "diff --git a/bar.py b/bar.py";
     "@@ -1 +1 @@";
     "-x";
     "+y"].

(** A hunk outside any file section. *)
Definition orphan_hunk : string :=
  String.concat nl
    ["warning: something";
     "@@ -1 +1 @@";
     "+x";
     "diff --git a/foo.py b/foo.py"].


(** A command runner for a folder outside any repository. *)
Definition not_a_repo (command : list string) (cwd : string)
  : string * string :=
  (EmptyString, "fatal: not a git repository").

Definition two_files (paths : list string) : list string :=
  ["/tmp/x/a.py"; "/tmp/x/b.py"].

(** A command runner for a repository at [/repo] in which [a.py], at
    the root, has one added line: the answers of [git rev-parse], of the
    name-only diff and of the full diff. *)
Definition one_change (command : list string) (cwd : string)
  : string * string :=
  if existsb (String.eqb "--show-toplevel") command
  then ("/repo" ++ nl, EmptyString)
  else if existsb (String.eqb "rev-parse") command
  then (EmptyString, EmptyString)
  else if existsb (String.eqb "--name-only") command
  then ("a.py" ++ Str.nul_sep, EmptyString)
  else (String.concat nl
          ["diff --git a/a.py b/a.py"; "@@ -1 +1,2 @@"; " x"; "+y"; ""],
        EmptyString).

End Samples.

(** ** What the passes are expected to compute

    Definitions written from the description of the parser, against which
    the loops are compared. *)

Module Expected.

Import GitDiffTool.

(** [line] is a file header that names [p]. *)
Definition names (p line : string) : bool :=
  is_header line &&
  match _parse_source_line line with
  | Ok q => String.eqb q p
  | Raise _ => false
  end.

Definition is_cur (cur : option string) (p : string) : bool :=
  match cur with
  | Some q => String.eqb q p
  | None => false
  end.

(** The lines of [lines] retained for [p], in the order of the text:
    those of the sections opened by a header naming [p], from the first
    hunk marker of the section to its end.  [cur] is the path of the
    section the first line falls in, [fh] whether a hunk marker of this
    section is already behind. *)
Fixpoint kept_for (p : string) (cur : option string) (fh : bool)
    (lines : list string) : list string :=
  match lines with
  | [] => []
  | l :: ls =>
      if is_header l then
        match _parse_source_line l with
        | Ok q => kept_for p (Some q) false ls
        | Raise _ => []
        end
      else if fh || is_hunk l then
        ((if is_cur cur p then [l] else []) ++ kept_for p cur true ls)%list
      else kept_for p cur fh ls
  end.

Definition starts_with_hunk (kept : list string) : Prop :=
  match kept with
  | [] => True
  | l :: _ => is_hunk l = true
  end.

Definition is_added (line : string) : bool := Str.startswith line "+".
Definition is_deleted (line : string) : bool := Str.startswith line "-".

Definition count (f : string -> bool) (lines : list string) : nat :=
  List.length (filter f lines).

(** Both counters of the line-accounting pass hold a number. *)
Definition both_set (st : line_state) : Prop :=
  exists n m, current_line_new st = Some n /\ current_line_old st = Some m.



Definition le_opt (c : option Z) (n : Z) : bool :=
  match c with
  | Some x => (x <=? n)%Z
  | None => true
  end.

(** Every hunk marker of [lines] starts at or after the value the
    counter [counter] has reached when the marker is read, the pass
    starting in [st]. *)
Fixpoint starts_from (counter : line_state -> option Z) (st : line_state)
  (lines : list string) : bool :=
  match lines with
  | [] => true
  | l :: ls =>
      match line_step st l with
      | Ok st' =>
          (if is_hunk l
           then match _parse_hunk_line l with
                | Ok n => le_opt (counter st) n
                | Raise _ => true
                end
           else true) && starts_from counter st' ls
      | Raise _ => true
      end
  end.

(** No hunk marker of [lines] starts before the new-line counter. *)
Definition ascending_new (lines : list string) : bool :=
  starts_from current_line_new line_init lines.

(** No hunk marker of [lines] starts before the old-line counter. *)
Definition ascending_old (lines : list string) : bool :=
  starts_from current_line_old line_init lines.

(** No hunk marker occurs in a section of [lines] opened by a header
    naming [p]; [inside] tells whether the first line falls in such a
    section. *)
Fixpoint hunkless_from (p : string) (inside : bool) (lines : list string)
  : bool :=
  match lines with
  | [] => true
  | l :: ls =>
      if is_header l then hunkless_from p (names p l) ls
      else negb (inside && is_hunk l) && hunkless_from p inside ls
  end.

Definition hunkless (p : string) (lines : list string) : bool :=
  hunkless_from p false lines.

(** Neither a hunk marker nor an added line. *)
Definition plain (line : string) : bool :=
  negb (is_hunk line) && negb (is_added line).

(** The number of [+] characters of a text. *)
Fixpoint count_plus (s : string) : nat :=
  match s with
  | EmptyString => O
  | String a s' =>
      ((if Ascii.eqb a "+"%char then 1 else 0) + count_plus s')%nat
  end.

Definition all_digits (s : string) : bool :=
  forallb Str.is_digit (list_ascii_of_string s).

(** The current path is a key of the dictionary. *)
Definition cur_known (st : section_state) : Prop :=
  forall q, src_path st = Some q ->
            dict_mem String.eqb (source_dict st) q = true.

(** Case analysis on a line. *)
Inductive line_kind (l : string) : Prop :=
| KHunk : is_hunk l = true -> line_kind l
| KAdded : is_added l = true -> line_kind l
| KDeleted : is_deleted l = true -> line_kind l
| KContext : is_hunk l = false -> is_added l = false ->
             is_deleted l = false -> line_kind l.

(** Every recorded number is below the counter that produced it. *)
Definition below (xs : list Z) (c : option Z) : Prop :=
  Forall (fun x => exists n, c = Some n /\ (x < n)%Z) xs.

Definition ordered_new (st : line_state) : Prop :=
  StronglySorted Z.lt (added_lines st) /\
  below (added_lines st) (current_line_new st).

Definition ordered_old (st : line_state) : Prop :=
  StronglySorted Z.lt (deleted_lines st) /\
  below (deleted_lines st) (current_line_old st).

(** A path that no other path of the text is re-anchored onto. *)
Definition alone (top : string) (secs : sections) (p : string) : Prop :=
  forall q, In q (dict_keys secs) ->
            os_path_join top q = os_path_join top p -> q = p.

(** The two outputs of the provider at [path] for a branch and a mode. *)
Section Listing.

Variable run_command : list string -> string -> string * string.
Variables COMMITED_MODE STAGED_MODE : string.
Variable path : string.

(** The names the name-only command prints, the empty token left out. *)
Definition listed (branch mode : string) : list string :=
  filter (fun i => negb (String.eqb i EmptyString))
         (Str.split (fst (run_command (_git_command COMMITED_MODE STAGED_MODE branch true mode) path))
                    Str.nul_sep).

(** The text the full command prints. *)
Definition full_text (branch mode : string) : string :=
  fst (run_command (_git_command COMMITED_MODE STAGED_MODE branch false mode) path).

End Listing.

End Expected.

(** * Properties *)

(** ** Loops, dictionaries, sorting *)

Arguments String.prefix : simpl never.

Lemma prefix_cons (c a : ascii) (p s : string) :
  String.prefix (String c p) (String a s) = Ascii.eqb c a && String.prefix p s.
Proof.
  change (String.prefix (String c p) (String a s))
    with (if ascii_dec c a then String.prefix p s else false).
  destruct (ascii_dec c a) as [e|n].
  - subst. now rewrite Ascii.eqb_refl.
  - apply Ascii.eqb_neq in n. now rewrite n.
Qed.

Lemma prefix_nil (s : string) : String.prefix EmptyString s = true.
Proof. destruct s; reflexivity. Qed.

Lemma for_each_app {A S : Type} (body : S -> A -> result S) (xs ys : list A)
    (s : S) :
  for_each body (xs ++ ys)%list s =
  (s' <- for_each body xs s ;; for_each body ys s').
Proof.
  revert s; induction xs as [|x xs IH]; intros s; simpl; [reflexivity|].
  destruct (body s x) as [s'|msg]; simpl; [apply IH | reflexivity].
Qed.

Lemma for_each_cons {A S : Type} (body : S -> A -> result S) (x : A)
    (xs : list A) (s : S) :
  for_each body (x :: xs) s = (s' <- body s x ;; for_each body xs s').
Proof. reflexivity. Qed.

Lemma bind_Ok {A B : Type} (m : result A) (k : A -> result B) (b : B) :
  bind m k = Ok b -> exists a, m = Ok a /\ k a = Ok b.
Proof.
  destruct m as [a|msg]; simpl; intros H; [eauto | discriminate].
Qed.

Section DictFacts.
Context {V : Type}.
Implicit Types (d : list (string * V)) (k : string) (v : V).

Lemma dict_get_set d k v k' :
  dict_get String.eqb (dict_set String.eqb d k v) k' =
  if String.eqb k' k then Some v else dict_get String.eqb d k'.
Proof.
  induction d as [|[k0 v0] d IH]; simpl.
  - reflexivity.
  - destruct (String.eqb k k0) eqn:E0; simpl.
    + apply String.eqb_eq in E0; subst k0.
      destruct (String.eqb k' k); reflexivity.
    + rewrite IH. destruct (String.eqb k' k0) eqn:E1; [|reflexivity].
      apply String.eqb_eq in E1; subst k0.
      rewrite String.eqb_sym, E0. reflexivity.
Qed.

Lemma dict_get_In d k v : dict_get String.eqb d k = Some v -> In (k, v) d.
Proof.
  induction d as [|[k0 v0] d IH]; simpl; [discriminate|].
  destruct (String.eqb k k0) eqn:E.
  - apply String.eqb_eq in E; subst. intros [= ->]. now left.
  - intros H. right. auto.
Qed.

Lemma dict_get_keys d k :
  In k (dict_keys d) <-> exists v, dict_get String.eqb d k = Some v.
Proof.
  induction d as [|[k0 v0] d IH]; simpl.
  - split; [tauto | intros [v H]; discriminate].
  - destruct (String.eqb k k0) eqn:E.
    + apply String.eqb_eq in E; subst. split; eauto.
    + apply String.eqb_neq in E. rewrite <- IH. split.
      * intros [H|H]; [congruence | assumption].
      * auto.
Qed.

Lemma In_dict_get d k v :
  NoDup (dict_keys d) -> In (k, v) d -> dict_get String.eqb d k = Some v.
Proof.
  induction d as [|[k0 v0] d IH]; simpl; [tauto|].
  intros ND [H|H].
  - injection H as -> ->. now rewrite String.eqb_refl.
  - inversion ND as [|? ? Hn ND']; subst.
    destruct (String.eqb k k0) eqn:E.
    + apply String.eqb_eq in E; subst. exfalso. apply Hn.
      change (In k0 (dict_keys d)). apply in_map_iff. now exists (k0, v).
    + auto.
Qed.

Lemma dict_keys_set d k v :
  dict_keys (dict_set String.eqb d k v) =
  if dict_mem String.eqb d k then dict_keys d else (dict_keys d ++ [k])%list.
Proof.
  unfold dict_mem. induction d as [|[k0 v0] d IH]; simpl; [reflexivity|].
  destruct (String.eqb k k0) eqn:E; simpl; [reflexivity|].
  unfold dict_keys in *. rewrite IH.
  destruct (dict_get String.eqb d k); reflexivity.
Qed.

Lemma dict_set_NoDup d k v :
  NoDup (dict_keys d) -> NoDup (dict_keys (dict_set String.eqb d k v)).
Proof.
  intros ND. rewrite dict_keys_set.
  destruct (dict_mem String.eqb d k) eqn:E; [assumption|].
  apply NoDup_app; [assumption | repeat constructor; auto | ].
  intros x Hx [<-|[]]. apply dict_get_keys in Hx. destruct Hx as [w Hw].
  unfold dict_mem in E. rewrite Hw in E. discriminate.
Qed.

End DictFacts.

Section SortedFacts.
Context {A : Type} (key : A -> string).

Lemma insert_sorted_In (x y : A) (l : list A) :
  In y (insert_sorted key x l) <-> y = x \/ In y l.
Proof.
  induction l as [|z l IH]; simpl.
  - intuition.
  - destruct (String.leb (key x) (key z)); simpl; rewrite ?IH; intuition.
Qed.

Lemma sorted_by_In (y : A) (l : list A) :
  In y (sorted_by key l) <-> In y l.
Proof.
  induction l as [|x l IH]; simpl; [tauto|].
  rewrite insert_sorted_In, IH. intuition.
Qed.

End SortedFacts.

Lemma make_sorted_dict_keys {V : Type} (d : list (string * V)) (k : string) :
  In k (dict_keys (make_sorted_dict d)) <-> In k (dict_keys d).
Proof.
  unfold dict_keys, make_sorted_dict. rewrite !in_map_iff.
  split; intros [x [Hk Hx]]; exists x; split; auto;
    now apply (sorted_by_In fst).
Qed.

(** ** Lines of a text *)

Module StrFacts.

Lemma contains_nl_cons (c : ascii) (s : string) :
  Str.contains Str.nl (String c s) =
  Ascii.eqb Str.newline c || Str.contains Str.nl s.
Proof.
  cbn [Str.contains]. unfold Str.nl at 1.
  now rewrite prefix_cons, prefix_nil, andb_true_r.
Qed.

Lemma split_nl_cons (c : ascii) (s : string) :
  Str.split (String c s) Str.nl =
  if Ascii.eqb Str.newline c then EmptyString :: Str.split s Str.nl
  else match Str.split s Str.nl with
       | piece :: pieces => String c piece :: pieces
       | [] => [String c EmptyString]
       end.
Proof.
  unfold Str.split. cbn [Str.split_from]. unfold Str.nl at 1.
  rewrite prefix_cons, prefix_nil, andb_true_r. reflexivity.
Qed.

(** A line without a newline, followed by a newline and more text. *)
Lemma split_line (l x : string) :
  Str.contains Str.nl l = false ->
  Str.split (l ++ Str.nl ++ x) Str.nl = l :: Str.split x Str.nl.
Proof.
  induction l as [|c l IH]; intros H.
  - change (EmptyString ++ Str.nl ++ x) with (String Str.newline x).
    rewrite split_nl_cons, Ascii.eqb_refl. reflexivity.
  - rewrite contains_nl_cons in H. apply orb_false_iff in H.
    destruct H as [Hc Hl]. simpl append. rewrite split_nl_cons, Hc.
    change (l ++ String Str.newline x) with (l ++ Str.nl ++ x).
    now rewrite (IH Hl).
Qed.

Lemma split_last (l : string) :
  Str.contains Str.nl l = false -> Str.split l Str.nl = [l].
Proof.
  induction l as [|c l IH]; intros H; [reflexivity|].
  rewrite contains_nl_cons in H. apply orb_false_iff in H.
  destruct H as [Hc Hl]. now rewrite split_nl_cons, Hc, (IH Hl).
Qed.

(** Splitting the text made of lines joined by newlines gives the lines
    back. *)
Lemma split_concat (l : string) (ls : list string) :
  Forall (fun x => Str.contains Str.nl x = false) (l :: ls) ->
  Str.split (String.concat Str.nl (l :: ls)) Str.nl = l :: ls.
Proof.
  revert l. induction ls as [|l' ls IH]; intros l H.
  - inversion H; subst. now apply split_last.
  - inversion H as [|? ? Hl Hrest]; subst.
    change (String.concat Str.nl (l :: l' :: ls))
      with (l ++ Str.nl ++ String.concat Str.nl (l' :: ls)).
    now rewrite (split_line l _ Hl), (IH l' Hrest).
Qed.

End StrFacts.

(** ** Pass 1: sectioning *)

Module SectionFacts.

Import GitDiffTool Expected.

Lemma header_not_hunk (l : string) : is_header l = true -> is_hunk l = false.
Proof.
  unfold is_header, is_hunk, Str.startswith.
  destruct l as [|a l]; [discriminate|].
  rewrite !prefix_cons.
  destruct (Ascii.eqb "@"%char a) eqn:E; [|reflexivity].
  apply Ascii.eqb_eq in E; subst a. discriminate.
Qed.

(** A step on a header line. *)
Lemma step_header st l :
  is_header l = true ->
  section_step st l =
  (p <- _parse_source_line l ;;
   Ok {| source_dict := if dict_mem String.eqb (source_dict st) p
                        then source_dict st
                        else dict_set String.eqb (source_dict st) p [];
         src_path := Some p; found_hunk := false |}).
Proof. intros H. unfold section_step. now rewrite H. Qed.

(** A step on any other line before the first hunk of the section. *)
Lemma step_skip st l :
  is_header l = false -> found_hunk st = false -> is_hunk l = false ->
  section_step st l = Ok st.
Proof. intros H1 H2 H3. unfold section_step. now rewrite H1, H2, H3. Qed.

Lemma step_keep st l p :
  is_header l = false -> found_hunk st || is_hunk l = true ->
  src_path st = Some p ->
  section_step st l =
  (d <- append_line (source_dict st) p l ;;
   Ok {| source_dict := d; src_path := Some p; found_hunk := true |}).
Proof. intros H1 H2 H3. unfold section_step. now rewrite H1, H2, H3. Qed.

Lemma step_orphan st l :
  is_header l = false -> is_hunk l = true -> src_path st = None ->
  section_step st l = Raise (Str.format1 "Hunk has no source file: '" l "'").
Proof.
  intros H1 H2 H3. unfold section_step.
  now rewrite H1, H2, H3, orb_true_r.
Qed.

Lemma dict_mem_set (d : sections) k v k' :
  dict_mem String.eqb (dict_set String.eqb d k v) k' =
  String.eqb k' k || dict_mem String.eqb d k'.
Proof.
  unfold dict_mem. rewrite dict_get_set.
  destruct (String.eqb k' k); reflexivity.
Qed.

Lemma step_cur_known st l st' :
  section_step st l = Ok st' -> cur_known st -> cur_known st'.
Proof.
  unfold section_step, cur_known. intros H Hk.
  destruct (is_header l).
  - apply bind_Ok in H. destruct H as [p [_ H]]. injection H as <-. simpl.
    intros q [= <-].
    destruct (dict_mem String.eqb (source_dict st) p) eqn:E; [assumption|].
    rewrite dict_mem_set, String.eqb_refl. reflexivity.
  - destruct (found_hunk st || is_hunk l); [|injection H as <-; assumption].
    destruct (src_path st) as [p|].
    + apply bind_Ok in H. destruct H as [d [Hd H]]. injection H as <-. simpl.
      intros q [= <-]. unfold append_line in Hd.
      destruct (dict_get String.eqb (source_dict st) p); [|discriminate].
      injection Hd as <-. rewrite dict_mem_set, String.eqb_refl. reflexivity.
    + destruct (is_hunk l); [discriminate|]. injection H as <-. simpl.
      discriminate.
Qed.

Lemma names_not_header p l : is_header l = false -> names p l = false.
Proof. intros H. unfold names. now rewrite H. Qed.

(** The sectioning loop computes, for every path, the retained lines
    of its sections. *)
Lemma kept_spec (lines : list string) : forall st st' p,
  for_each section_step lines st = Ok st' ->
  cur_known st ->
  dict_get String.eqb (source_dict st') p =
  match dict_get String.eqb (source_dict st) p with
  | Some L =>
      Some (L ++ kept_for p (src_path st) (found_hunk st) lines)%list
  | None =>
      if existsb (names p) lines
      then Some (kept_for p (src_path st) (found_hunk st) lines)
      else None
  end.
Proof.
  induction lines as [|l ls IH]; intros st st' p Hrun Hk.
  - simpl in Hrun. injection Hrun as <-. simpl.
    destruct (dict_get String.eqb (source_dict st) p);
      [now rewrite app_nil_r | reflexivity].
  - simpl in Hrun. apply bind_Ok in Hrun. destruct Hrun as [st1 [Hstep Hrun]].
    pose proof (step_cur_known _ _ _ Hstep Hk) as Hk1.
    rewrite (IH _ _ p Hrun Hk1). clear IH Hrun Hk1.
    simpl existsb. simpl kept_for.
    destruct (is_header l) eqn:Hh.
    + rewrite step_header in Hstep by assumption.
      apply bind_Ok in Hstep. destruct Hstep as [q [Hq Hstep]].
      injection Hstep as <-. unfold names. rewrite Hh, Hq. simpl.
      destruct (String.eqb q p) eqn:Eqp.
      * apply String.eqb_eq in Eqp; subst q. unfold dict_mem.
        destruct (dict_get String.eqb (source_dict st) p) as [L|] eqn:EL.
        -- rewrite EL. reflexivity.
        -- rewrite dict_get_set, String.eqb_refl. reflexivity.
      * destruct (dict_mem String.eqb (source_dict st) q); [reflexivity|].
        rewrite dict_get_set, String.eqb_sym, Eqp. reflexivity.
    + rewrite (names_not_header p l Hh). simpl.
      destruct (found_hunk st || is_hunk l) eqn:Hf.
      * destruct (src_path st) as [q|] eqn:Hcur.
        -- rewrite (step_keep st l q) in Hstep by assumption.
           apply bind_Ok in Hstep. destruct Hstep as [d [Hd Hstep]].
           injection Hstep as <-. simpl. unfold append_line in Hd.
           destruct (dict_get String.eqb (source_dict st) q) as [kept|] eqn:EK;
             [|discriminate].
           injection Hd as <-. rewrite dict_get_set.
           destruct (String.eqb q p) eqn:Eqp.
           ++ apply String.eqb_eq in Eqp; subst q.
              rewrite String.eqb_refl, EK, <- app_assoc. reflexivity.
           ++ rewrite String.eqb_sym, Eqp. reflexivity.
        -- unfold section_step in Hstep. rewrite Hh, Hf, Hcur in Hstep.
           destruct (is_hunk l); [discriminate|].
           injection Hstep as <-. reflexivity.
      * apply orb_false_iff in Hf. destruct Hf as [Hf1 Hf2].
        rewrite step_skip in Hstep by assumption.
        injection Hstep as <-. rewrite Hf1. reflexivity.
Qed.

End SectionFacts.

Module SectionRun.

Import GitDiffTool Expected SectionFacts.


Lemma init_cur_known : cur_known section_init.
Proof. intros q H. discriminate. Qed.

Lemma step_NoDup st l st' :
  section_step st l = Ok st' ->
  NoDup (dict_keys (source_dict st)) -> NoDup (dict_keys (source_dict st')).
Proof.
  unfold section_step. intros H ND.
  destruct (is_header l).
  - apply bind_Ok in H. destruct H as [p [_ H]]. injection H as <-. simpl.
    destruct (dict_mem String.eqb (source_dict st) p);
      [assumption | now apply dict_set_NoDup].
  - destruct (found_hunk st || is_hunk l); [|now injection H as <-].
    destruct (src_path st) as [p|].
    + apply bind_Ok in H. destruct H as [d [Hd H]]. injection H as <-. simpl.
      unfold append_line in Hd.
      destruct (dict_get String.eqb (source_dict st) p); [|discriminate].
      injection Hd as <-. now apply dict_set_NoDup.
    + destruct (is_hunk l); [discriminate|]. now injection H as <-.
Qed.

Lemma run_NoDup lines : forall st st',
  for_each section_step lines st = Ok st' ->
  NoDup (dict_keys (source_dict st)) -> NoDup (dict_keys (source_dict st')).
Proof.
  induction lines as [|l ls IH]; intros st st' H ND; simpl in H.
  - now injection H as <-.
  - apply bind_Ok in H. destruct H as [st1 [H1 H2]].
    eauto using step_NoDup.
Qed.

(** The result of the sectioning pass, path by path. *)
Lemma sections_get diff secs p :
  _parse_source_sections diff = Ok secs ->
  dict_get String.eqb secs p =
  if existsb (names p) (Str.split diff Str.nl)
  then Some (kept_for p None false (Str.split diff Str.nl))
  else None.
Proof.
  unfold _parse_source_sections. intros H.
  apply bind_Ok in H. destruct H as [st [Hrun H]]. injection H as <-.
  now rewrite (kept_spec _ _ _ p Hrun init_cur_known).
Qed.

Lemma sections_NoDup diff secs :
  _parse_source_sections diff = Ok secs -> NoDup (dict_keys secs).
Proof.
  unfold _parse_source_sections. intros H.
  apply bind_Ok in H. destruct H as [st [Hrun H]]. injection H as <-.
  apply (run_NoDup _ _ _ Hrun). constructor.
Qed.

(** What is retained for a path begins at a hunk marker. *)
Lemma kept_for_head p lines : forall cur fh,
  fh = false \/ is_cur cur p = false ->
  starts_with_hunk (kept_for p cur fh lines).
Proof.
  induction lines as [|l ls IH]; intros cur fh H; simpl; [exact I|].
  destruct (is_header l).
  - destruct (_parse_source_line l); [apply IH; now left | exact I].
  - destruct (fh || is_hunk l) eqn:E.
    + destruct (is_cur cur p) eqn:Ec; simpl.
      * destruct H as [-> | H]; [exact E | discriminate].
      * apply IH. now right.
    + apply IH. assumption.
Qed.

(** While no header has been read the loop keeps its initial state, or
    stops at the first hunk marker. *)
Lemma run_before_header pre :
  Forall (fun l => is_header l = false) pre ->
  (Forall (fun l => is_hunk l = false) pre /\
   for_each section_step pre section_init = Ok section_init) \/
  (exists l0, In l0 pre /\ is_hunk l0 = true /\
     forall post,
       for_each section_step (pre ++ post)%list section_init =
       Raise (Str.format1 "Hunk has no source file: '" l0 "'")).
Proof.
  induction 1 as [|l pre Hl Hpre IH].
  - left. split; [constructor | reflexivity].
  - destruct (is_hunk l) eqn:Hh.
    + right. exists l. split; [now left|]. split; [assumption|].
      intros post. simpl. now rewrite step_orphan.
    + destruct IH as [[Hno Hrun] | [l0 [Hin [Hh0 Hr]]]].
      * left. split; [now constructor|].
        simpl. now rewrite step_skip.
      * right. exists l0. split; [now right|]. split; [assumption|].
        intros post. simpl. rewrite step_skip by auto. simpl. apply Hr.
Qed.

End SectionRun.

(** ** Pass 2: line accounting *)

Module LineFacts.

Import GitDiffTool Expected.

Lemma added_not_hunk l : is_added l = true -> is_hunk l = false.
Proof.
  unfold is_added, is_hunk, Str.startswith.
  destruct l as [|a l]; [discriminate|]. rewrite !prefix_cons.
  destruct (Ascii.eqb "+"%char a) eqn:E; [|discriminate].
  apply Ascii.eqb_eq in E; subst a. reflexivity.
Qed.

Lemma deleted_not_hunk l : is_deleted l = true -> is_hunk l = false.
Proof.
  unfold is_deleted, is_hunk, Str.startswith.
  destruct l as [|a l]; [discriminate|]. rewrite !prefix_cons.
  destruct (Ascii.eqb "-"%char a) eqn:E; [|discriminate].
  apply Ascii.eqb_eq in E; subst a. reflexivity.
Qed.

Lemma added_not_deleted l : is_added l = true -> is_deleted l = false.
Proof.
  unfold is_added, is_deleted, Str.startswith.
  destruct l as [|a l]; [discriminate|]. rewrite !prefix_cons.
  destruct (Ascii.eqb "+"%char a) eqn:E; [|discriminate].
  apply Ascii.eqb_eq in E; subst a. reflexivity.
Qed.

(** The four cases of a step. *)
Lemma step_hunk st l :
  is_hunk l = true ->
  line_step st l =
  (n <- _parse_hunk_line l ;;
   Ok {| added_lines := added_lines st; deleted_lines := deleted_lines st;
         current_line_new := Some n; current_line_old := Some n |}).
Proof. unfold is_hunk, line_step. now intros ->. Qed.

Lemma step_added st l n :
  is_added l = true -> current_line_new st = Some n ->
  line_step st l =
  Ok {| added_lines := added_lines st ++ [n];
        deleted_lines := deleted_lines st;
        current_line_new := Some (n + 1)%Z;
        current_line_old := current_line_old st |}.
Proof.
  intros H Hn. pose proof (added_not_hunk l H) as Hh.
  unfold is_hunk, is_added, line_step in *. now rewrite Hh, H, Hn.
Qed.

Lemma step_deleted st l n :
  is_deleted l = true -> current_line_old st = Some n ->
  line_step st l =
  Ok {| added_lines := added_lines st;
        deleted_lines := deleted_lines st ++ [n];
        current_line_new := current_line_new st;
        current_line_old := Some (n + 1)%Z |}.
Proof.
  intros H Hn. pose proof (deleted_not_hunk l H) as Hh.
  assert (Ha : is_added l = false).
  { destruct (is_added l) eqn:E; [|reflexivity].
    apply added_not_deleted in E. congruence. }
  unfold is_hunk, is_added, is_deleted, line_step in *.
  now rewrite Hh, Ha, H, Hn.
Qed.

Lemma step_context st l :
  is_hunk l = false -> is_added l = false -> is_deleted l = false ->
  line_step st l =
  Ok {| added_lines := added_lines st; deleted_lines := deleted_lines st;
        current_line_new := incr (current_line_new st);
        current_line_old := incr (current_line_old st) |}.
Proof.
  unfold is_hunk, is_added, is_deleted, line_step. now intros -> -> ->.
Qed.

Lemma classify l : line_kind l.
Proof.
  destruct (is_hunk l) eqn:H1; [now apply KHunk|].
  destruct (is_added l) eqn:H2; [now apply KAdded|].
  destruct (is_deleted l) eqn:H3; [now apply KDeleted|].
  now apply KContext.
Qed.

Lemma step_both_set st l st' :
  line_step st l = Ok st' -> both_set st -> both_set st'.
Proof.
  intros H [n [m [Hn Hm]]]. destruct (classify l) as [Hk|Hk|Hk|Hk1 Hk2 Hk3].
  - rewrite step_hunk in H by assumption. apply bind_Ok in H.
    destruct H as [k [_ H]]. injection H as <-. now exists k, k.
  - rewrite (step_added st l n) in H by assumption. injection H as <-.
    now exists (n + 1)%Z, m.
  - rewrite (step_deleted st l m) in H by assumption. injection H as <-.
    now exists n, (m + 1)%Z.
  - rewrite step_context in H by assumption. injection H as <-.
    exists (n + 1)%Z, (m + 1)%Z. simpl. now rewrite Hn, Hm.
Qed.

Lemma run_both_set lines : forall st st',
  for_each line_step lines st = Ok st' -> both_set st -> both_set st'.
Proof.
  induction lines as [|l ls IH]; intros st st' H Hb; simpl in H.
  - now injection H as <-.
  - apply bind_Ok in H. destruct H as [st1 [H1 H2]].
    eauto using step_both_set.
Qed.

Lemma step_hunk_both_set st l st' :
  is_hunk l = true -> line_step st l = Ok st' -> both_set st'.
Proof.
  intros Hh H. rewrite step_hunk in H by assumption. apply bind_Ok in H.
  destruct H as [k [_ H]]. injection H as <-. now exists k, k.
Qed.

(** With the counters set, every added and every deleted line is
    recorded. *)
Lemma run_counts lines : forall st st',
  both_set st \/ starts_with_hunk lines ->
  for_each line_step lines st = Ok st' ->
  List.length (added_lines st') =
    (List.length (added_lines st) + count is_added lines)%nat /\
  List.length (deleted_lines st') =
    (List.length (deleted_lines st) + count is_deleted lines)%nat.
Proof.
  unfold count.
  induction lines as [|l ls IH]; intros st st' Hs H; simpl in H.
  - injection H as <-. simpl. lia.
  - apply bind_Ok in H. destruct H as [st1 [H1 H2]]. simpl filter.
    destruct (classify l) as [Hk|Hk|Hk|Hk1 Hk2 Hk3].
    + pose proof (step_hunk_both_set _ _ _ Hk H1) as Hb.
      destruct (IH _ _ (or_introl Hb) H2) as [Ea Ed]. rewrite Ea, Ed.
      assert (Ha : is_added l = false).
      { destruct (is_added l) eqn:E; [|reflexivity].
        apply added_not_hunk in E. congruence. }
      assert (Hd : is_deleted l = false).
      { destruct (is_deleted l) eqn:E; [|reflexivity].
        apply deleted_not_hunk in E. congruence. }
      rewrite Ha, Hd. rewrite step_hunk in H1 by assumption.
      apply bind_Ok in H1. destruct H1 as [k [_ H1]]. injection H1 as <-.
      simpl. lia.
    + assert (Hb : both_set st).
      { destruct Hs as [Hb|Hs]; [assumption|]. simpl in Hs.
        apply added_not_hunk in Hk. congruence. }
      pose proof (step_both_set _ _ _ H1 Hb) as Hb1.
      destruct (IH _ _ (or_introl Hb1) H2) as [Ea Ed]. rewrite Ea, Ed.
      destruct Hb as [n [m [Hn Hm]]].
      rewrite (step_added st l n) in H1 by assumption. injection H1 as <-.
      rewrite Hk, (added_not_deleted l Hk). simpl.
      rewrite length_app. simpl. lia.
    + assert (Hb : both_set st).
      { destruct Hs as [Hb|Hs]; [assumption|]. simpl in Hs.
        apply deleted_not_hunk in Hk. congruence. }
      pose proof (step_both_set _ _ _ H1 Hb) as Hb1.
      destruct (IH _ _ (or_introl Hb1) H2) as [Ea Ed]. rewrite Ea, Ed.
      destruct Hb as [n [m [Hn Hm]]].
      rewrite (step_deleted st l m) in H1 by assumption. injection H1 as <-.
      assert (Ha : is_added l = false).
      { destruct (is_added l) eqn:E; [|reflexivity].
        apply added_not_deleted in E. congruence. }
      rewrite Hk, Ha. simpl. rewrite length_app. simpl. lia.
    + assert (Hb : both_set st).
      { destruct Hs as [Hb|Hs]; [assumption|]. simpl in Hs. congruence. }
      pose proof (step_both_set _ _ _ H1 Hb) as Hb1.
      destruct (IH _ _ (or_introl Hb1) H2) as [Ea Ed]. rewrite Ea, Ed.
      rewrite step_context in H1 by assumption. injection H1 as <-.
      rewrite Hk2, Hk3. simpl. lia.
Qed.

(** At an added or deleted line of a run that begins at a hunk marker,
    both counters are set. *)
Lemma counters_set_at l1 x l2 st1 :
  starts_with_hunk (l1 ++ x :: l2) ->
  is_added x = true \/ is_deleted x = true ->
  for_each line_step l1 line_init = Ok st1 -> both_set st1.
Proof.
  intros Hs Hx Hrun. destruct l1 as [|h t].
  - simpl in Hs. destruct Hx as [Hx|Hx];
      [apply added_not_hunk in Hx | apply deleted_not_hunk in Hx];
      congruence.
  - simpl in Hs, Hrun. apply bind_Ok in Hrun.
    destruct Hrun as [st0 [H0 Hrun]].
    eapply run_both_set; [exact Hrun|].
    eapply step_hunk_both_set; eauto.
Qed.

End LineFacts.

Module LineOrder.

Import GitDiffTool Expected LineFacts.

Lemma sorted_snoc (l : list Z) (c : Z) :
  StronglySorted Z.lt l -> Forall (fun x => x < c)%Z l ->
  StronglySorted Z.lt (l ++ [c]).
Proof.
  induction 1 as [|x l Hl IH Hx]; intros Hc; simpl.
  - repeat constructor.
  - inversion Hc as [|? ? Hxc Hlc]; subst. constructor; [auto|].
    apply Forall_app. split; [assumption | now repeat constructor].
Qed.

Lemma below_raise xs c n :
  below xs c -> le_opt c n = true -> below xs (Some n).
Proof.
  unfold below. intros H Hle. eapply Forall_impl; [|exact H].
  intros x [k [-> Hk]]. simpl in Hle. exists n. split; [reflexivity|lia].
Qed.

Lemma below_incr xs c : below xs c -> below xs (incr c).
Proof.
  unfold below. intros H. eapply Forall_impl; [|exact H].
  intros x [k [-> Hk]]. exists (k + 1)%Z. split; [reflexivity|lia].
Qed.

Lemma below_snoc xs n : below xs (Some n) -> below (xs ++ [n]) (Some (n + 1)%Z).
Proof.
  unfold below. intros H. apply Forall_app. split.
  - eapply Forall_impl; [|exact H].
    intros x [k [[= <-] Hk]]. exists (n + 1)%Z. split; [reflexivity|lia].
  - repeat constructor. exists (n + 1)%Z. split; [reflexivity|lia].
Qed.

Lemma below_lt xs n : below xs (Some n) -> Forall (fun x => x < n)%Z xs.
Proof.
  unfold below. intros H. eapply Forall_impl; [|exact H].
  intros x [k [[= <-] Hk]]. assumption.
Qed.

Lemma not_added l : is_hunk l = true \/ is_deleted l = true ->
  is_added l = false.
Proof.
  intros [H|H]; destruct (is_added l) eqn:E; try reflexivity.
  - apply added_not_hunk in E. congruence.
  - apply added_not_deleted in E. congruence.
Qed.

(** A step on an added line leaves the deleted numbers and the old-line
    counter as they are; a step on a deleted line leaves the added
    numbers and the new-line counter as they are. *)
Lemma step_added_old st l st' :
  is_added l = true -> line_step st l = Ok st' ->
  deleted_lines st' = deleted_lines st /\
  current_line_old st' = current_line_old st.
Proof.
  intros Hk H. destruct (current_line_new st) as [n|] eqn:En.
  - rewrite (step_added st l n) in H by assumption.
    injection H as <-. now split.
  - pose proof (added_not_hunk l Hk) as Hh.
    unfold line_step, is_hunk, is_added in *.
    rewrite Hh, Hk, En in H. injection H as <-. now split.
Qed.

Lemma step_deleted_new st l st' :
  is_deleted l = true -> line_step st l = Ok st' ->
  added_lines st' = added_lines st /\
  current_line_new st' = current_line_new st.
Proof.
  intros Hk H. destruct (current_line_old st) as [n|] eqn:En.
  - rewrite (step_deleted st l n) in H by assumption.
    injection H as <-. now split.
  - pose proof (deleted_not_hunk l Hk) as Hh.
    pose proof (not_added l (or_intror Hk)) as Ha.
    unfold line_step, is_hunk, is_added, is_deleted in *.
    rewrite Hh, Ha, Hk, En in H. injection H as <-. now split.
Qed.

(** The added numbers stay increasing and below the new-line counter as
    long as no hunk marker starts before that counter. *)
Lemma new_ordered lines : forall st st',
  starts_from current_line_new st lines = true ->
  for_each line_step lines st = Ok st' ->
  ordered_new st -> ordered_new st'.
Proof.
  induction lines as [|l ls IH]; intros st st' Ha H Ho; simpl in H.
  - now injection H as <-.
  - apply bind_Ok in H. destruct H as [st1 [H1 H2]].
    simpl in Ha. rewrite H1 in Ha. apply andb_true_iff in Ha.
    destruct Ha as [Hl Ha]. apply (IH _ _ Ha H2). clear IH H2 Ha.
    destruct Ho as [Sa Ba]. unfold ordered_new.
    destruct (classify l) as [Hk|Hk|Hk|Hk1 Hk2 Hk3].
    + rewrite Hk in Hl. rewrite step_hunk in H1 by assumption.
      apply bind_Ok in H1. destruct H1 as [k [Hp H1]]. injection H1 as <-.
      rewrite Hp in Hl. simpl. eauto using below_raise.
    + destruct (current_line_new st) as [n|] eqn:En.
      * rewrite (step_added st l n) in H1 by assumption.
        injection H1 as <-. simpl. split.
        -- apply sorted_snoc; [assumption | now apply below_lt].
        -- now apply below_snoc.
      * pose proof (added_not_hunk l Hk) as Hh.
        unfold line_step, is_hunk, is_added in *.
        rewrite Hh, Hk, En in H1. injection H1 as <-.
        split; [assumption | now rewrite En].
    + destruct (step_deleted_new _ _ _ Hk H1) as [-> ->]. now split.
    + rewrite step_context in H1 by assumption. injection H1 as <-.
      simpl. auto using below_incr.
Qed.

(** The deleted numbers stay increasing and below the old-line counter
    as long as no hunk marker starts before that counter. *)
Lemma old_ordered lines : forall st st',
  starts_from current_line_old st lines = true ->
  for_each line_step lines st = Ok st' ->
  ordered_old st -> ordered_old st'.
Proof.
  induction lines as [|l ls IH]; intros st st' Ha H Ho; simpl in H.
  - now injection H as <-.
  - apply bind_Ok in H. destruct H as [st1 [H1 H2]].
    simpl in Ha. rewrite H1 in Ha. apply andb_true_iff in Ha.
    destruct Ha as [Hl Ha]. apply (IH _ _ Ha H2). clear IH H2 Ha.
    destruct Ho as [Sd Bd]. unfold ordered_old.
    destruct (classify l) as [Hk|Hk|Hk|Hk1 Hk2 Hk3].
    + rewrite Hk in Hl. rewrite step_hunk in H1 by assumption.
      apply bind_Ok in H1. destruct H1 as [k [Hp H1]]. injection H1 as <-.
      rewrite Hp in Hl. simpl. eauto using below_raise.
    + destruct (step_added_old _ _ _ Hk H1) as [-> ->]. now split.
    + destruct (current_line_old st) as [n|] eqn:En.
      * rewrite (step_deleted st l n) in H1 by assumption.
        injection H1 as <-. simpl. split.
        -- apply sorted_snoc; [assumption | now apply below_lt].
        -- now apply below_snoc.
      * pose proof (deleted_not_hunk l Hk) as Hh.
        pose proof (not_added l (or_intror Hk)) as Hadd.
        unfold line_step, is_hunk, is_added, is_deleted in *.
        rewrite Hh, Hadd, Hk, En in H1. injection H1 as <-.
        split; [assumption | now rewrite En].
    + rewrite step_context in H1 by assumption. injection H1 as <-.
      simpl. auto using below_incr.
Qed.

Lemma init_ordered_new : ordered_new line_init.
Proof. split; simpl; constructor. Qed.

Lemma init_ordered_old : ordered_old line_init.
Proof. split; simpl; constructor. Qed.

(** With no hunk marker starting before the new-line counter, the added
    sequence is strictly increasing. *)
Lemma parse_lines_added_sorted lines a d :
  ascending_new lines = true ->
  _parse_lines lines = Ok (a, d) ->
  StronglySorted Z.lt a.
Proof.
  unfold _parse_lines, ascending_new. intros Ha H.
  apply bind_Ok in H. destruct H as [st [Hrun H]]. injection H as <- <-.
  apply (new_ordered _ _ _ Ha Hrun init_ordered_new).
Qed.

(** With no hunk marker starting before the old-line counter, the
    deleted sequence is strictly increasing. *)
Lemma parse_lines_deleted_sorted lines a d :
  ascending_old lines = true ->
  _parse_lines lines = Ok (a, d) ->
  StronglySorted Z.lt d.
Proof.
  unfold _parse_lines, ascending_old. intros Ha H.
  apply bind_Ok in H. destruct H as [st [Hrun H]]. injection H as <- <-.
  apply (old_ordered _ _ _ Ha Hrun init_ordered_old).
Qed.






End LineOrder.

(** ** The two passes together: [_parse_diff_str] *)

Module ParseFacts.

Import GitDiffTool Expected.

Lemma dict_set_In {V : Type} (d : list (string * V)) k v k' v' :
  In (k', v') (dict_set String.eqb d k v) ->
  (k' = k /\ v' = v) \/ In (k', v') d.
Proof.
  induction d as [|[k0 v0] d IH]; simpl.
  - intros [[= <- <-]|[]]. now left.
  - destruct (String.eqb k k0) eqn:E; simpl.
    + apply String.eqb_eq in E; subst k0.
      intros [[= <- <-]|H]; [now left | right; now right].
    + intros [H|H]; [right; now left|].
      destruct (IH H) as [H'|H']; [now left | right; now right].
Qed.

Lemma dict_keys_set_In {V : Type} (d : list (string * V)) k v k' :
  In k' (dict_keys (dict_set String.eqb d k v)) <->
  k' = k \/ In k' (dict_keys d).
Proof.
  rewrite dict_keys_set. destruct (dict_mem String.eqb d k) eqn:E.
  - split; [now right|]. intros [->|H]; [|assumption].
    apply dict_get_keys. unfold dict_mem in E.
    destruct (dict_get String.eqb d k) as [w|]; [now exists w | discriminate].
  - rewrite in_app_iff. simpl. intuition.
Qed.

(** Where the entries of the result dictionary come from. *)
Lemma diff_loop top secs : forall acc dd,
  for_each (diff_step (Some top)) secs acc = Ok dd ->
  (forall k v, In (k, v) dd ->
     In (k, v) acc \/
     exists q L, In (q, L) secs /\ os_path_join top q = k /\
                 _parse_lines L = Ok v) /\
  (forall k, In k (dict_keys dd) <->
     In k (dict_keys acc) \/
     exists q, In q (dict_keys secs) /\ os_path_join top q = k).
Proof.
  induction secs as [|[q L] secs IH]; intros acc dd H; simpl in H.
  - injection H as <-. split.
    + intros k v Hin. now left.
    + intros k. split; [now left|]. intros [H|[q [[] _]]]. assumption.
  - apply bind_Ok in H. destruct H as [acc1 [H1 H2]].
    simpl in H1. apply bind_Ok in H1. destruct H1 as [v0 [Hv0 H1]].
    injection H1 as <-. destruct (IH _ _ H2) as [IH1 IH2]. clear IH H2.
    split.
    + intros k v Hin. destruct (IH1 _ _ Hin) as [Hacc|[q' [L' [Hq [Hj Hp]]]]].
      * apply dict_set_In in Hacc. destruct Hacc as [[-> ->]|Hacc].
        -- right. exists q, L. simpl. auto.
        -- now left.
      * right. exists q', L'. simpl. auto.
    + intros k. rewrite IH2, dict_keys_set_In. simpl. split.
      * intros [[->|H]|[q' [Hq Hj]]]; eauto.
      * intros [H|[q' [[<-|Hq] Hj]]]; eauto.
Qed.

Lemma diff_loop_none secs : forall acc dd,
  for_each (diff_step None) secs acc = Ok dd -> secs = [] /\ dd = acc.
Proof.
  destruct secs as [|x secs]; intros acc dd H; simpl in H.
  - injection H as <-. now split.
  - discriminate.
Qed.

(** Every entry of the result is the line accounting of a section. *)
Lemma result_entries top_level diff secs r k v :
  _parse_source_sections diff = Ok secs ->
  _parse_diff_str top_level diff = Ok r ->
  In (k, v) r ->
  exists top q L, top_level = Some top /\ In (q, L) secs /\
                  os_path_join top q = k /\ _parse_lines L = Ok v.
Proof.
  unfold _parse_diff_str. intros Hs H Hin. rewrite Hs in H. simpl in H.
  apply bind_Ok in H. destruct H as [dd [Hloop H]]. injection H as <-.
  unfold make_sorted_dict in Hin. apply (proj1 (sorted_by_In fst _ _)) in Hin.
  destruct top_level as [top|].
  - destruct (diff_loop _ _ _ _ Hloop) as [H1 _].
    destruct (H1 _ _ Hin) as [[]|[q [L [Hq [Hj Hp]]]]].
    exists top, q, L. auto.
  - apply diff_loop_none in Hloop. destruct Hloop as [_ ->]. destruct Hin.
Qed.

(** The keys of the result are the re-anchored paths of the sections. *)
Lemma result_keys top diff secs r k :
  _parse_source_sections diff = Ok secs ->
  _parse_diff_str (Some top) diff = Ok r ->
  In k (dict_keys r) <->
  exists q, In q (dict_keys secs) /\ os_path_join top q = k.
Proof.
  unfold _parse_diff_str. intros Hs H. rewrite Hs in H. simpl in H.
  apply bind_Ok in H. destruct H as [dd [Hloop H]]. injection H as <-.
  rewrite make_sorted_dict_keys.
  destruct (diff_loop _ _ _ _ Hloop) as [_ H2]. rewrite H2. simpl.
  intuition.
Qed.

Lemma join_empty b : os_path_join EmptyString b = b.
Proof. unfold os_path_join. now destruct (Str.startswith b "/"). Qed.

Lemma alone_empty secs p : alone EmptyString secs p.
Proof. intros q _. now rewrite !join_empty. Qed.

(** The entry of a path in the result. *)
Lemma result_entry top diff secs r p L :
  _parse_source_sections diff = Ok secs ->
  _parse_diff_str (Some top) diff = Ok r ->
  dict_get String.eqb secs p = Some L ->
  alone top secs p ->
  exists v, _parse_lines L = Ok v /\
            In (os_path_join top p, v) r /\
            forall v', In (os_path_join top p, v') r -> v' = v.
Proof.
  intros Hs Hr HL Hal.
  assert (Hkey : In (os_path_join top p) (dict_keys r)).
  { apply (result_keys top diff secs r _ Hs Hr). exists p. split; [|reflexivity].
    apply dict_get_keys. now exists L. }
  assert (Hval : forall v, In (os_path_join top p, v) r ->
                           _parse_lines L = Ok v).
  { intros v Hin.
    destruct (result_entries _ _ _ _ _ _ Hs Hr Hin)
      as [top' [q [L' [[= <-] [Hq [Hj Hp]]]]]].
    assert (q = p).
    { apply Hal; [|assumption]. apply in_map_iff. now exists (q, L'). }
    subst q. apply In_dict_get in Hq; [|eapply SectionRun.sections_NoDup; eauto].
    congruence. }
  apply in_map_iff in Hkey. destruct Hkey as [[k v] [Hk Hin]].
  simpl in Hk. subst k. exists v. split; [auto|]. split; [assumption|].
  intros v' Hin'. apply Hval in Hin, Hin'. congruence.
Qed.

End ParseFacts.

(** * The claims *)

Import GitDiffTool Expected.

(** ** The concrete scenario *)

(** C1, as stated, fails: on the text of the concrete scenario the
    deleted line is recorded at 3, not at 4, so the result is not the
    mapping with [added = [2]] and [deleted = [4]]. *)
Lemma scenario_deleted_is_not_4 :
  _parse_diff_str (Some "") Samples.scenario <>
  Ok [("foo.py", ([2%Z], [4%Z]))].
Proof. vm_compute. discriminate. Qed.

(** C1, amended: parsing the text of the concrete scenario keeps, for
    [foo.py], the lines from the hunk marker on, and yields exactly the
    mapping of [foo.py] to [added = [2]], [deleted = [3]]. *)
Theorem scenario_parses :
  _parse_source_sections Samples.scenario =
    Ok [("foo.py", Samples.scenario_kept)] /\
  _parse_lines Samples.scenario_kept = Ok ([2%Z], [3%Z]) /\
  _parse_diff_str (Some "") Samples.scenario =
    Ok [("foo.py", ([2%Z], [3%Z]))].
Proof. repeat split; vm_compute; reflexivity. Qed.

(** ** Monotonicity *)

(** C2, as stated, fails: the text [Samples.shrinking] is accepted and
    its deleted sequence repeats the number 10. *)
Lemma shrinking_not_increasing :
  _parse_diff_str (Some "") Samples.shrinking =
    Ok [("foo.py", ([], [4; 5; 6; 7; 8; 9; 10; 10]%Z))] /\
  ~ StronglySorted Z.lt [4; 5; 6; 7; 8; 9; 10; 10]%Z.
Proof.
  split; [vm_compute; reflexivity|].
  intros H.
  repeat match goal with
         | H : StronglySorted _ (_ :: _) |- _ =>
             apply StronglySorted_inv in H; destruct H as [H ?]
         end.
  match goal with H : Forall _ [10%Z] |- _ => inversion H; subst end.
  lia.
Qed.

(** C2, amended: for every diff text the parser accepts and every path
    of the result, the added sequence is strictly increasing provided
    that, in the lines kept for the sections whose path is re-anchored
    onto this one, no hunk marker starts before the value the new-line
    counter has reached when it is read; and the deleted sequence is
    strictly increasing provided that, in those lines, no hunk marker
    starts before the value the old-line counter has reached.  Nothing is
    asked of the sections of the other paths. *)
Theorem parsed_sequences_increase top_level diff secs r p a d :
  _parse_source_sections diff = Ok secs ->
  _parse_diff_str top_level diff = Ok r ->
  In (p, (a, d)) r ->
  ((forall top q L,
      top_level = Some top -> In (q, L) secs -> os_path_join top q = p ->
      ascending_new L = true) ->
   StronglySorted Z.lt a) /\
  ((forall top q L,
      top_level = Some top -> In (q, L) secs -> os_path_join top q = p ->
      ascending_old L = true) ->
   StronglySorted Z.lt d).
Proof.
  intros Hs Hr Hin.
  destruct (ParseFacts.result_entries _ _ _ _ _ _ Hs Hr Hin)
    as [top [q [L [Htop [Hq [Hjoin Hp]]]]]].
  split; intros Hasc.
  - apply (LineOrder.parse_lines_added_sorted L a d); eauto.
  - apply (LineOrder.parse_lines_deleted_sorted L a d); eauto.
Qed.

Lemma parsed_sequences_increase_witness :
  _parse_diff_str (Some "") Samples.net_deleting =
    Ok [("bar.py", ([10; 1]%Z, []));
        ("foo.py", ([4; 11]%Z, [4; 5; 6; 7; 8; 9; 10; 11; 11]%Z))] /\
  StronglySorted Z.lt [4; 11]%Z.
Proof.
  split; [vm_compute; reflexivity|].
  apply (parsed_sequences_increase (Some "") Samples.net_deleting
           Samples.net_deleting_kept
           [("bar.py", ([10; 1]%Z, []));
            ("foo.py", ([4; 11]%Z, [4; 5; 6; 7; 8; 9; 10; 11; 11]%Z))]
           "foo.py" [4; 11]%Z [4; 5; 6; 7; 8; 9; 10; 11; 11]%Z).
  - vm_compute; reflexivity.
  - vm_compute; reflexivity.
  - right; left; reflexivity.
  - intros top q L [= <-] [H|[H|[]]] Hjoin; injection H as <- <-.
    + vm_compute in Hjoin. discriminate Hjoin.
    + vm_compute; reflexivity.
Defined.

(** ** A hunk before any header *)

(** C3: when a line starting with [@@] occurs before any file header,
    both the sectioning pass and the whole parse raise the error whose
    message quotes the first such line, and return nothing. *)
Theorem hunk_before_header_rejected top_level diff pre l post :
  Str.split diff Str.nl = (pre ++ l :: post)%list ->
  Forall (fun x => is_header x = false) pre ->
  is_hunk l = true ->
  exists l0,
    In l0 (pre ++ [l])%list /\ is_hunk l0 = true /\
    _parse_source_sections diff =
      Raise ("Hunk has no source file: '" ++ l0 ++ "'") /\
    _parse_diff_str top_level diff =
      Raise ("Hunk has no source file: '" ++ l0 ++ "'") /\
    (Forall (fun x => is_hunk x = false) pre -> l0 = l).
Proof.
  intros Hsplit Hpre Hl.
  assert (Hgoal : exists l0,
    In l0 (pre ++ [l])%list /\ is_hunk l0 = true /\
    for_each section_step (pre ++ l :: post)%list section_init =
      Raise ("Hunk has no source file: '" ++ l0 ++ "'") /\
    (Forall (fun x => is_hunk x = false) pre -> l0 = l)).
  { destruct (SectionRun.run_before_header pre Hpre)
      as [[Hno Hrun] | [l0 [Hin [Hh0 Hr]]]].
    - exists l. split; [apply in_or_app; right; now left|].
      split; [assumption|]. split; [|reflexivity].
      rewrite for_each_app, Hrun. simpl.
      rewrite SectionFacts.step_orphan; auto.
      destruct (is_header l) eqn:E; [|reflexivity].
      apply SectionFacts.header_not_hunk in E. congruence.
    - exists l0. split; [apply in_or_app; now left|].
      split; [assumption|]. split; [apply Hr|].
      intros Hno. rewrite Forall_forall in Hno. apply Hno in Hin. congruence. }
  destruct Hgoal as [l0 [Hin [Hh [Hrun Hfirst]]]].
  exists l0. repeat split; try assumption.
  - unfold _parse_source_sections. now rewrite Hsplit, Hrun.
  - unfold _parse_diff_str, _parse_source_sections. now rewrite Hsplit, Hrun.
Qed.

Lemma hunk_before_header_rejected_witness :
  exists l0,
    In l0 (["warning: something"] ++ ["@@ -1 +1 @@"])%list /\
    is_hunk l0 = true /\
    _parse_source_sections Samples.orphan_hunk =
      Raise ("Hunk has no source file: '" ++ l0 ++ "'") /\
    _parse_diff_str (Some "/repo") Samples.orphan_hunk =
      Raise ("Hunk has no source file: '" ++ l0 ++ "'") /\
    (Forall (fun x => is_hunk x = false) ["warning: something"] ->
     l0 = "@@ -1 +1 @@").
Proof.
  apply (hunk_before_header_rejected (Some "/repo") Samples.orphan_hunk
           ["warning: something"] "@@ -1 +1 @@"
           ["+x"; "diff --git a/foo.py b/foo.py"]).
  - vm_compute; reflexivity.
  - repeat constructor.
  - vm_compute; reflexivity.
Defined.

(** ** Hunk markers reset the counters *)

Lemma step_total (st : line_state) (l : string) :
  is_hunk l = false ->
  exists st', line_step st l = Ok st' /\
              (both_set st -> both_set st') /\
              (is_added l = false -> added_lines st' = added_lines st).
Proof.
  intros Hh. unfold line_step, is_hunk, is_added in *. rewrite Hh.
  destruct (Str.startswith l "+").
  - destruct (current_line_new st) as [n|] eqn:En.
    + eexists. split; [reflexivity|]. split; [|discriminate].
      intros [n' [m [_ Hm]]]. now exists (n + 1)%Z, m.
    + eexists. split; [reflexivity|]. tauto.
  - destruct (Str.startswith l "-").
    + destruct (current_line_old st) as [n|] eqn:En.
      * eexists. split; [reflexivity|]. split; [|reflexivity].
        intros [n' [m [Hn _]]]. now exists n', (n + 1)%Z.
      * eexists. split; [reflexivity|]. tauto.
    + eexists. split; [reflexivity|]. split; [|reflexivity].
      intros [n [m [Hn Hm]]]. exists (n + 1)%Z, (m + 1)%Z. simpl.
      now rewrite Hn, Hm.
Qed.

Lemma run_plain (body : list string) : forall st,
  forallb plain body = true ->
  exists st', for_each line_step body st = Ok st' /\
              (both_set st -> both_set st') /\
              added_lines st' = added_lines st.
Proof.
  induction body as [|l ls IH]; intros st Hp; simpl.
  - exists st. auto.
  - simpl in Hp. apply andb_true_iff in Hp. destruct Hp as [Hl Hp].
    unfold plain in Hl. apply andb_true_iff in Hl. destruct Hl as [Hh Ha].
    apply negb_true_iff in Hh, Ha.
    destruct (step_total st l Hh) as [st1 [H1 [Hb1 Ha1]]].
    destruct (IH st1 Hp) as [st' [H' [Hb' Ha']]].
    exists st'. rewrite H1. simpl. split; [assumption|].
    split; [tauto|]. rewrite Ha', Ha1; auto.
Qed.

(** C4: a hunk marker sets both counters to its own start, whatever
    they were before; and a file whose hunk [@@ -1,3 +1,4 @@] and whose
    hunk [@@ -10,2 +11,3 @@] each begin with an added line, with no other
    added line, has [added = [1; 11]]. *)
Theorem hunk_marker_resets_counters :
  (forall st l n,
     is_hunk l = true -> _parse_hunk_line l = Ok n ->
     line_step st l =
     Ok {| added_lines := added_lines st; deleted_lines := deleted_lines st;
           current_line_new := Some n; current_line_old := Some n |}) /\
  (forall x y body1 body2,
     forallb plain body1 = true -> forallb plain body2 = true ->
     exists d,
       _parse_lines ("@@ -1,3 +1,4 @@" :: String "+" x :: body1 ++
                     "@@ -10,2 +11,3 @@" :: String "+" y :: body2)%list =
       Ok ([1; 11]%Z, d)) /\
  _parse_diff_str (Some "") Samples.two_hunks =
    Ok [("foo.py", ([1; 11]%Z, []))].
Proof.
  split; [|split].
  - intros st l n Hh Hn. rewrite LineFacts.step_hunk by assumption.
    now rewrite Hn.
  - intros x y body1 body2 Hp1 Hp2.
    assert (Hadd : forall z, is_added (String "+" z) = true).
    { intros z. unfold is_added, Str.startswith.
      now rewrite prefix_cons, prefix_nil. }
    assert (H1 : _parse_hunk_line "@@ -1,3 +1,4 @@" = Ok 1%Z)
      by (vm_compute; reflexivity).
    assert (H11 : _parse_hunk_line "@@ -10,2 +11,3 @@" = Ok 11%Z)
      by (vm_compute; reflexivity).
    unfold _parse_lines.
    rewrite for_each_cons, (LineFacts.step_hunk line_init) by reflexivity.
    rewrite H1. cbn [bind].
    rewrite for_each_cons, (LineFacts.step_added _ (String "+" x) 1%Z)
      by (auto; reflexivity).
    cbn [bind]. rewrite for_each_app.
    match goal with
    | |- context [for_each line_step body1 ?s] =>
        destruct (run_plain body1 s Hp1) as [st1 [R1 [_ Ha1]]]
    end.
    rewrite R1. cbn [bind].
    rewrite for_each_cons, (LineFacts.step_hunk st1) by reflexivity.
    rewrite H11. cbn [bind].
    rewrite for_each_cons, (LineFacts.step_added _ (String "+" y) 11%Z)
      by (auto; reflexivity).
    cbn [bind].
    match goal with
    | |- context [for_each line_step body2 ?s] =>
        destruct (run_plain body2 s Hp2) as [st2 [R2 [_ Ha2]]]
    end.
    rewrite R2. cbn [bind]. exists (deleted_lines st2).
    rewrite Ha2. cbn. rewrite Ha1. reflexivity.
  - vm_compute; reflexivity.
Qed.

Lemma hunk_marker_resets_counters_witness :
  line_step {| added_lines := [3%Z]; deleted_lines := [];
               current_line_new := Some 40%Z; current_line_old := Some 7%Z |}
            "@@ -10,2 +11,3 @@" =
  Ok {| added_lines := [3%Z]; deleted_lines := [];
        current_line_new := Some 11%Z; current_line_old := Some 11%Z |} /\
  exists d,
    _parse_lines ("@@ -1,3 +1,4 @@" :: "+first" :: [" a"; "-b"] ++
                  "@@ -10,2 +11,3 @@" :: "+second" :: [" c"])%list =
    Ok ([1; 11]%Z, d).
Proof.
  split.
  - apply (proj1 hunk_marker_resets_counters); vm_compute; reflexivity.
  - apply (proj1 (proj2 hunk_marker_resets_counters)); vm_compute; reflexivity.
Defined.

(** ** A file without hunks *)

Lemma hunkless_kept (p : string) (lines : list string) : forall cur fh,
  hunkless_from p (is_cur cur p) lines = true ->
  (is_cur cur p = true -> fh = false) ->
  kept_for p cur fh lines = [].
Proof.
  induction lines as [|l ls IH]; intros cur fh Hl Hfh; simpl; [reflexivity|].
  simpl in Hl. destruct (is_header l) eqn:Hh.
  - unfold names in Hl. rewrite Hh in Hl. simpl in Hl.
    destruct (_parse_source_line l) as [q|msg]; [|reflexivity].
    apply (IH (Some q) false); auto.
  - apply andb_true_iff in Hl. destruct Hl as [Hno Hl].
    destruct (fh || is_hunk l) eqn:E.
    + destruct (is_cur cur p) eqn:Ec.
      * rewrite (Hfh eq_refl) in E. simpl in E. rewrite E in Hno. discriminate.
      * simpl. apply IH; rewrite Ec; [assumption | discriminate].
    + apply IH; assumption.
Qed.

Lemma names_exists (p h : string) (pre post : list string) :
  is_header h = true -> _parse_source_line h = Ok p ->
  existsb (names p) (pre ++ h :: post) = true.
Proof.
  intros Hh Hp. apply existsb_exists. exists h. split.
  - apply in_or_app. right. now left.
  - unfold names. now rewrite Hh, Hp, String.eqb_refl.
Qed.

(** C5, as stated, fails: in [Samples.named_twice] the second header
    naming [foo.py] is followed by no hunk marker up to the end of the
    text, and [foo.py] is not mapped to the empty change set. *)
Lemma named_twice_not_empty :
  Str.split Samples.named_twice Str.nl =
    (["diff --git a/foo.py b/foo.py"; "@@ -1 +1,2 @@"; " a"; "+b"] ++
     "diff --git a/foo.py b/foo.py" :: ["index 111..222 100644"] ++ [])%list /\
  is_header "diff --git a/foo.py b/foo.py" = true /\
  _parse_source_line "diff --git a/foo.py b/foo.py" = Ok "foo.py" /\
  forallb (fun l => negb (is_header l) && negb (is_hunk l))
          ["index 111..222 100644"] = true /\
  _parse_diff_str (Some "") Samples.named_twice =
    Ok [("foo.py", ([2%Z], []))].
Proof. repeat split; vm_compute; reflexivity. Qed.

(** C5, amended: for every accepted diff text with a header naming [p],
    the result has [p] as a key; [p] is mapped to the empty change set
    when no section opened by a header naming [p] holds a hunk marker
    (and no other path of the text is re-anchored onto the key of [p]). *)
Theorem header_without_hunk top diff secs r pre h post p :
  Str.split diff Str.nl = (pre ++ h :: post)%list ->
  is_header h = true -> _parse_source_line h = Ok p ->
  _parse_source_sections diff = Ok secs ->
  _parse_diff_str (Some top) diff = Ok r ->
  In p (dict_keys secs) /\
  In (os_path_join top p) (dict_keys r) /\
  (hunkless p (Str.split diff Str.nl) = true ->
   dict_get String.eqb secs p = Some [] /\
   (alone top secs p ->
    In (os_path_join top p, ([], [])) r /\
    forall v, In (os_path_join top p, v) r -> v = ([], []))).
Proof.
  intros Hsplit Hh Hp Hs Hr.
  pose proof (SectionRun.sections_get diff secs p Hs) as Hget.
  rewrite Hsplit, (names_exists p h pre post Hh Hp) in Hget.
  assert (Hkey : In p (dict_keys secs)).
  { apply dict_get_keys. eauto. }
  split; [assumption|]. split.
  - apply (ParseFacts.result_keys top diff secs r _ Hs Hr). now exists p.
  - intros Hless. rewrite Hsplit in Hless.
    rewrite (hunkless_kept p _ None false) in Hget;
      [|exact Hless | discriminate].
    split; [assumption|]. intros Hal.
    destruct (ParseFacts.result_entry top diff secs r p [] Hs Hr Hget Hal)
      as [v [Hv [Hin Huniq]]].
    cbv in Hv. injection Hv as <-. now split.
Qed.

Lemma header_without_hunk_witness :
  In "foo.py" (dict_keys [("foo.py", []);
                          ("bar.py", ["@@ -1 +1 @@"; "-x"; "+y"])]) /\
  In "/r/foo.py"
     (dict_keys [("/r/bar.py", ([1%Z], [1%Z])); ("/r/foo.py", ([], []))]) /\
  dict_get String.eqb
    [("foo.py", []); ("bar.py", ["@@ -1 +1 @@"; "-x"; "+y"])] "foo.py" =
    Some [] /\
  In ("/r/foo.py", ([], []))
     [("/r/bar.py", ([1%Z], [1%Z])); ("/r/foo.py", ([], []))].
Proof.
  destruct (header_without_hunk "/r/" Samples.no_hunk
              [("foo.py", []); ("bar.py", ["@@ -1 +1 @@"; "-x"; "+y"])]
              [("/r/bar.py", ([1%Z], [1%Z])); ("/r/foo.py", ([], []))]
              [] "diff --git a/foo.py b/foo.py"
              ["index 111..222 100644"; "diff --git a/bar.py b/bar.py";
               "@@ -1 +1 @@"; "-x"; "+y"] "foo.py")
    as [K1 [K2 H]]; try (vm_compute; reflexivity).
  destruct H as [G H]; [vm_compute; reflexivity|].
  destruct H as [V _].
  - intros q [<-|[<-|[]]]; [reflexivity|]. vm_compute. discriminate.
  - repeat split; assumption.
Defined.

(** ** Retained runs begin at a hunk marker *)

(** C9: in every per-file list of the sectioning pass, a line starting
    with [+] or [-] comes after a line starting with [@@]; so, when the
    line accounting reaches it, both counters are set, and the pass records
    as many numbers as the list has added, and deleted, lines. *)
Theorem kept_lines_follow_a_hunk diff secs p L :
  _parse_source_sections diff = Ok secs ->
  In (p, L) secs ->
  (forall l1 x l2,
     L = (l1 ++ x :: l2)%list ->
     is_added x = true \/ is_deleted x = true ->
     (exists h, In h l1 /\ is_hunk h = true) /\
     (forall st1, for_each line_step l1 line_init = Ok st1 -> both_set st1)) /\
  (forall a d,
     _parse_lines L = Ok (a, d) ->
     List.length a = count is_added L /\
     List.length d = count is_deleted L).
Proof.
  intros Hs Hin.
  assert (Hhead : starts_with_hunk L).
  { apply In_dict_get in Hin; [|eapply SectionRun.sections_NoDup; eauto].
    rewrite (SectionRun.sections_get diff secs p Hs) in Hin.
    destruct (existsb _ _); [|discriminate]. injection Hin as <-.
    apply SectionRun.kept_for_head. now left. }
  split.
  - intros l1 x l2 -> Hx. split.
    + destruct l1 as [|h t].
      * simpl in Hhead. destruct Hx as [Hx|Hx];
          [apply LineFacts.added_not_hunk in Hx
          |apply LineFacts.deleted_not_hunk in Hx]; congruence.
      * exists h. split; [now left | exact Hhead].
    + intros st1 Hrun. eapply LineFacts.counters_set_at; eauto.
  - intros a d Hp. unfold _parse_lines in Hp.
    apply bind_Ok in Hp. destruct Hp as [st [Hrun Hp]]. injection Hp as <- <-.
    destruct (LineFacts.run_counts L line_init st (or_intror Hhead) Hrun)
      as [Ha Hd].
    simpl in Ha, Hd. now split.
Qed.

Lemma kept_lines_follow_a_hunk_witness :
  (forall l1 x l2,
     Samples.scenario_kept = (l1 ++ x :: l2)%list ->
     is_added x = true \/ is_deleted x = true ->
     (exists h, In h l1 /\ is_hunk h = true) /\
     (forall st1, for_each line_step l1 line_init = Ok st1 -> both_set st1)) /\
  (forall a d,
     _parse_lines Samples.scenario_kept = Ok (a, d) ->
     List.length a = count is_added Samples.scenario_kept /\
     List.length d = count is_deleted Samples.scenario_kept).
Proof.
  apply (kept_lines_follow_a_hunk Samples.scenario
           [("foo.py", Samples.scenario_kept)] "foo.py").
  - vm_compute; reflexivity.
  - left; reflexivity.
Defined.

(** ** A path named by several headers *)



(** ** The hunk marker *)

Module HunkFacts.

Import Re.

Lemma rmatch_gstar_cons c r bol a s :
  rmatch (GStar c :: r) bol (String a s) =
  if cmatch c a
  then or_else (capture a (rmatch (GStar c :: r) false s))
               (open_group (rmatch r bol (String a s)))
  else open_group (rmatch r bol (String a s)).
Proof. reflexivity. Qed.

Lemma rmatch_hunk_cons bol a s :
  rmatch HUNK_LINE_RE bol (String a s) =
  if Ascii.eqb a "+"%char
  then advance (rmatch [GStar (CRange "0"%char "9"%char)] false s)
  else None.
Proof. reflexivity. Qed.

Lemma cmatch_digit a : cmatch (CRange "0"%char "9"%char) a = Str.is_digit a.
Proof. reflexivity. Qed.

(** The group [[0-9]*] takes the longest run of digits at the head. *)
Lemma digits_run (s : string) : forall bol,
  exists g rest,
    rmatch [GStar (CRange "0"%char "9"%char)] bol s =
      Some (g, String.length g) /\
    s = g ++ rest /\ all_digits g = true /\
    match rest with
    | String a _ => Str.is_digit a = false
    | EmptyString => True
    end.
Proof.
  induction s as [|a s IH]; intros bol.
  - exists EmptyString, EmptyString. repeat split.
  - rewrite rmatch_gstar_cons, cmatch_digit.
    destruct (Str.is_digit a) eqn:Ea.
    + destruct (IH false) as [g [rest [Hm [Hs [Hg Hr]]]]].
      exists (String a g), rest. rewrite Hm. simpl.
      repeat split; auto.
      * now rewrite Hs at 1.
      * unfold all_digits in *. simpl. now rewrite Ea, Hg.
    + exists EmptyString, (String a s). repeat split. assumption.
Qed.

Lemma count_plus_app g rest :
  count_plus (g ++ rest) = (count_plus g + count_plus rest)%nat.
Proof. induction g as [|a g IH]; simpl; [reflexivity | rewrite IH; lia]. Qed.

Lemma digit_not_plus a : Str.is_digit a = true -> Ascii.eqb a "+"%char = false.
Proof.
  intros H. destruct (Ascii.eqb a "+"%char) eqn:E; [|reflexivity].
  apply Ascii.eqb_eq in E. subst a. discriminate.
Qed.

Lemma digits_no_plus g : all_digits g = true -> count_plus g = O.
Proof.
  unfold all_digits. induction g as [|a g IH]; simpl; [reflexivity|].
  intros H. apply andb_true_iff in H. destruct H as [Ha Hg].
  now rewrite (digit_not_plus a Ha), IH.
Qed.

(** [findall] on the hunk pattern: one group for every [+], each a run
    of digits. *)
Lemma findall_hunk (s : string) : forall bol g rest,
  s = g ++ rest -> all_digits g = true ->
  List.length (findall_from HUNK_LINE_RE bol (String.length g) s) =
    count_plus rest /\
  Forall (fun x => all_digits x = true)
         (findall_from HUNK_LINE_RE bol (String.length g) s).
Proof.
  induction s as [|a s IH]; intros bol g rest Hs Hg.
  - destruct g; [|discriminate]. simpl in Hs. subst rest.
    split; [reflexivity | constructor].
  - destruct g as [|b g].
    + simpl in Hs. subst rest. simpl String.length.
      cbn [findall_from]. rewrite rmatch_hunk_cons. simpl count_plus.
      destruct (Ascii.eqb a "+"%char) eqn:Ea.
      * destruct (digits_run s false) as [g1 [rest1 [Hm [Hs1 [Hg1 _]]]]].
        rewrite Hm. simpl advance. cbv iota beta. simpl Nat.pred.
        destruct (IH false g1 rest1 Hs1 Hg1) as [Hlen Hall].
        split.
        -- simpl. rewrite Hlen. rewrite Hs1.
           rewrite count_plus_app, (digits_no_plus g1 Hg1). reflexivity.
        -- constructor; assumption.
      * apply (IH false EmptyString s eq_refl eq_refl).
    + simpl in Hs. injection Hs as <- Hs. simpl String.length.
      cbn [findall_from]. apply IH; [assumption|].
      unfold all_digits in *. simpl in Hg.
      apply andb_true_iff in Hg. tauto.
Qed.

Lemma int_digits_some (g : string) : forall acc,
  all_digits g = true -> (0 <= acc)%Z ->
  exists n, Str.int_digits acc g = Some n /\ (0 <= n)%Z.
Proof.
  unfold all_digits.
  induction g as [|a g IH]; intros acc Hg Hacc; cbn [Str.int_digits].
  - eauto.
  - simpl in Hg. apply andb_true_iff in Hg. destruct Hg as [Ha Hg].
    rewrite Ha. apply IH; [assumption|].
    assert (0 <= Str.digit_value a)%Z by apply Nat2Z.is_nonneg. lia.
Qed.

(** On a run of digits [int] fails only when the run is empty or longer
    than the limit. *)
Lemma int_digits_run (g : string) :
  all_digits g = true -> g <> EmptyString ->
  (Z.of_nat (String.length g) <=? Str.int_max_str_digits)%Z = true ->
  exists n, Str.int g = Some n /\ (0 <= n)%Z.
Proof.
  intros Hg Hne Hlen. destruct g as [|a g]; [congruence|].
  unfold Str.int. rewrite Hlen. apply int_digits_some; [assumption | lia].
Qed.

Lemma int_long_run (g : string) :
  (Z.of_nat (String.length g) <=? Str.int_max_str_digits)%Z = false ->
  Str.int g = None.
Proof.
  intros Hlen. destruct g as [|a g]; [reflexivity|].
  unfold Str.int. now rewrite Hlen.
Qed.

(** [line.split('@@')] of a line that starts with the delimiter. *)
Lemma split_hunk (line : string) :
  is_hunk line = true ->
  exists rest, line = "@@" ++ rest /\
               Str.split line "@@" = EmptyString :: Str.split rest "@@".
Proof.
  unfold is_hunk, Str.startswith. intros H.
  destruct line as [|a [|b rest]]; try discriminate.
  - rewrite prefix_cons in H. apply andb_true_iff in H. destruct H as [_ H].
    discriminate.
  - pose proof H as H'. rewrite !prefix_cons in H'.
    apply andb_true_iff in H'. destruct H' as [Ea H'].
    apply andb_true_iff in H'. destruct H' as [Eb _].
    apply Ascii.eqb_eq in Ea, Eb. subst a b. exists rest.
    split; [reflexivity|]. unfold Str.split. cbn [Str.split_from].
    rewrite H. reflexivity.
Qed.

(** The first piece of a split runs up to the first delimiter. *)
Lemma split_first (s : string) :
  exists piece pieces tail,
    Str.split s "@@" = piece :: pieces /\
    s = piece ++ tail /\
    (tail = EmptyString \/ Str.startswith tail "@@" = true) /\
    Str.contains "@@" piece = false.
Proof.
  induction s as [|a s IH].
  - exists EmptyString, [], EmptyString. repeat split. now left.
  - unfold Str.split. cbn [Str.split_from].
    destruct (String.prefix "@@" (String a s)) eqn:E.
    + eexists EmptyString, _, (String a s). repeat split. now right.
    + destruct IH as [piece [pieces [tail [Hsp [Hs [Ht Hc]]]]]].
      unfold Str.split in Hsp. rewrite Hsp.
      exists (String a piece), pieces, tail. repeat split.
      * simpl. now rewrite Hs at 1.
      * assumption.
      * cbn [Str.contains]. rewrite Hc, orb_false_r.
        rewrite prefix_cons in E |- *.
        destruct (Ascii.eqb "@"%char a); [|reflexivity]. simpl in E |- *.
        destruct piece as [|b piece]; [reflexivity|].
        rewrite Hs in E. simpl in E. rewrite prefix_cons in E |- *.
        rewrite !prefix_nil in *. assumption.
Qed.

End HunkFacts.

(** C7, as stated, fails: on the marker [@@ -1,3 + @@] the digit run is
    empty and the error raised quotes that empty run; the offending line
    does not occur in its message. *)
Lemma empty_run_message_omits_line :
  is_hunk "@@ -1,3 + @@" = true /\
  _parse_hunk_line "@@ -1,3 + @@" =
    Raise "Could not parse '' as a line number" /\
  Str.contains "@@ -1,3 + @@" "Could not parse '' as a line number" = false.
Proof. repeat split; vm_compute; reflexivity. Qed.

(** C7, amended: for a line starting with [@@], the hunk information is
    the text between the leading delimiter and the next one (or the end of
    the line); the pattern yields one digit run for every [+] in it.  With
    exactly one run, not empty and of no more digits than [int] accepts,
    the line parses to the number the run denotes and the step sets both
    counters to it.  With exactly one run that is empty or longer than
    that, the error raised quotes the run; with no run or several, the
    error raised quotes the line. *)
Theorem hunk_line_parse (line : string) :
  is_hunk line = true ->
  exists hunk_info tail,
    line = "@@" ++ hunk_info ++ tail /\
    (tail = EmptyString \/ Str.startswith tail "@@" = true) /\
    Str.contains "@@" hunk_info = false /\
    let groups := Re.findall HUNK_LINE_RE hunk_info in
    List.length groups = count_plus hunk_info /\
    Forall (fun g => all_digits g = true) groups /\
    match groups with
    | [g] =>
        match g with
        | EmptyString =>
            _parse_hunk_line line =
            Raise "Could not parse '' as a line number"
        | _ =>
            if (Z.of_nat (String.length g) <=? Str.int_max_str_digits)%Z
            then
              exists n,
                Str.int g = Some n /\ (0 <= n)%Z /\
                _parse_hunk_line line = Ok n /\
                forall st,
                  line_step st line =
                  Ok {| added_lines := added_lines st;
                        deleted_lines := deleted_lines st;
                        current_line_new := Some n;
                        current_line_old := Some n |}
            else
              _parse_hunk_line line =
              Raise ("Could not parse '" ++ g ++ "' as a line number")
        end
    | _ =>
        _parse_hunk_line line =
        Raise ("Could not find start of hunk in line '" ++ line ++ "'")
    end.
Proof.
  intros Hh.
  destruct (HunkFacts.split_hunk line Hh) as [rest [Hline Hsplit]].
  destruct (HunkFacts.split_first rest)
    as [piece [pieces [tail [Hsp [Hrest [Htail Hc]]]]]].
  exists piece, tail. rewrite Hsp in Hsplit.
  split; [now rewrite Hline, Hrest|]. split; [assumption|].
  split; [assumption|].
  destruct (HunkFacts.findall_hunk piece true EmptyString piece eq_refl eq_refl)
    as [Hlen Hall].
  change (Re.findall_from HUNK_LINE_RE true (String.length "") piece)
    with (Re.findall HUNK_LINE_RE piece) in Hlen, Hall.
  cbv zeta. split; [assumption|]. split; [assumption|].
  assert (Hparse : _parse_hunk_line line =
    match Re.findall HUNK_LINE_RE piece with
    | [g] =>
        match Str.int g with
        | Some n => Ok n
        | None => Raise (Str.format1 "Could not parse '" g "' as a line number")
        end
    | _ => Raise (Str.format1 "Could not find start of hunk in line '" line "'")
    end).
  { unfold _parse_hunk_line. now rewrite Hsplit. }
  destruct (Re.findall HUNK_LINE_RE piece) as [|g [|g' gs]];
    try exact Hparse.
  destruct g as [|a g]; [exact Hparse|].
  inversion Hall as [|? ? Hg _]; subst.
  destruct (Z.of_nat (String.length (String a g)) <=? Str.int_max_str_digits)%Z
    eqn:Hlim.
  - destruct (HunkFacts.int_digits_run (String a g) Hg) as [n [Hn Hpos]];
      [discriminate | assumption |].
    rewrite Hn in Hparse.
    exists n. repeat split; try assumption.
    intros st. rewrite LineFacts.step_hunk by assumption.
    now rewrite Hparse.
  - now rewrite (HunkFacts.int_long_run _ Hlim) in Hparse.
Qed.

Lemma hunk_line_parse_witness :
  exists hunk_info tail,
    "@@ -10,2 +11,3 @@ def f(x):" = "@@" ++ hunk_info ++ tail /\
    (tail = EmptyString \/ Str.startswith tail "@@" = true) /\
    Str.contains "@@" hunk_info = false /\
    let groups := Re.findall HUNK_LINE_RE hunk_info in
    List.length groups = count_plus hunk_info /\
    Forall (fun g => all_digits g = true) groups /\
    match groups with
    | [g] =>
        match g with
        | EmptyString =>
            _parse_hunk_line "@@ -10,2 +11,3 @@ def f(x):" =
            Raise "Could not parse '' as a line number"
        | _ =>
            if (Z.of_nat (String.length g) <=? Str.int_max_str_digits)%Z
            then
              exists n,
                Str.int g = Some n /\ (0 <= n)%Z /\
                _parse_hunk_line "@@ -10,2 +11,3 @@ def f(x):" = Ok n /\
                forall st,
                  line_step st "@@ -10,2 +11,3 @@ def f(x):" =
                  Ok {| added_lines := added_lines st;
                        deleted_lines := deleted_lines st;
                        current_line_new := Some n;
                        current_line_old := Some n |}
            else
              _parse_hunk_line "@@ -10,2 +11,3 @@ def f(x):" =
              Raise ("Could not parse '" ++ g ++ "' as a line number")
        end
    | _ =>
        _parse_hunk_line "@@ -10,2 +11,3 @@ def f(x):" =
        Raise ("Could not find start of hunk in line '" ++
               "@@ -10,2 +11,3 @@ def f(x):" ++ "'")
    end.
Proof.
  apply (hunk_line_parse "@@ -10,2 +11,3 @@ def f(x):").
  vm_compute; reflexivity.
Defined.

(** ** The no-history provider *)

Section FoldSet.
Context {X V : Type} (kf : X -> string) (vf : X -> V).

Let put (acc : list (string * V)) (x : X) : list (string * V) :=
  dict_set String.eqb acc (kf x) (vf x).

Lemma fold_set_keys (xs : list X) : forall acc k,
  In k (dict_keys (fold_left put xs acc)) <->
  In k (dict_keys acc) \/ In k (map kf xs).
Proof.
  induction xs as [|x xs IH]; intros acc k; simpl; [tauto|].
  rewrite IH. unfold put. rewrite ParseFacts.dict_keys_set_In.
  intuition.
Qed.

Lemma fold_set_In (xs : list X) : forall acc k v,
  In (k, v) (fold_left put xs acc) ->
  In (k, v) acc \/ exists x, In x xs /\ kf x = k /\ vf x = v.
Proof.
  induction xs as [|x xs IH]; intros acc k v H; simpl in H; [now left|].
  destruct (IH _ _ _ H) as [Hacc|[y [Hy [Hk Hv]]]].
  - apply ParseFacts.dict_set_In in Hacc. destruct Hacc as [[-> ->]|Hacc].
    + right. exists x. simpl. auto.
    + now left.
  - right. exists y. simpl. auto.
Qed.
End FoldSet.

Lemma range_length (n : Z) :
  (0 <= n)%Z -> Z.of_nat (List.length (NoDiffTool.range n)) = n.
Proof.
  intros H. unfold NoDiffTool.range. rewrite length_map, length_seq.
  now apply Z2Nat.id.
Qed.

Section NoHistory.

Variable run_command : list string -> string -> string * string.
Variable get_files : list string -> list string.
Variables COMMITED_MODE STAGED_MODE UNSTAGED_MODE DEFAULT_BRANCH : string.

Let tool_file_lines :=
  DiffTool.tool_file_lines run_command get_files COMMITED_MODE STAGED_MODE
                           UNSTAGED_MODE DEFAULT_BRANCH.
Let file_lines :=
  DiffTool.file_lines run_command get_files COMMITED_MODE STAGED_MODE
                      UNSTAGED_MODE DEFAULT_BRANCH.

(** C8: for a path at which the distributed-VCS provider reports no
    repository (the stub never reports one), the aggregator selects the
    no-history provider, the last of [TOOLS], which always reports one;
    each of its three [file_lines] queries maps exactly the discovered
    files, every one to the pair of [[-1]], a single number that is no
    1-based line number, and of the range of 100000 numbers. *)
Theorem fallback_to_no_history (path : string) :
  GitDiffTool.is_repo run_command path = false ->
  HgDiffTool.is_repo path = false /\
  DiffTool.TOOLS = [DiffTool.Git; DiffTool.Hg; DiffTool.NoDiff] /\
  DiffTool.is_repo run_command (DiffTool.NoDiff path) = true /\
  DiffTool.select_tool run_command DiffTool.TOOLS path =
    Some (DiffTool.NoDiff path) /\
  DiffTool.__init__ run_command [path] =
    [(Some path, DiffTool.NoDiff path)] /\
  (forall m branch,
     exists d,
       tool_file_lines m branch (DiffTool.NoDiff path) = Ok d /\
       (forall f, In f (dict_keys d) <-> In f (get_files [path])) /\
       (forall f v, In (f, v) d ->
                    v = ([(-1)%Z], NoDiffTool.range 100000%Z)) /\
       exists r,
         file_lines (DiffTool.__init__ run_command [path]) m branch = Ok r /\
         (forall f, In f (dict_keys r) <-> In f (get_files [path])) /\
         (forall f v, In (f, v) r ->
                      v = ([(-1)%Z], NoDiffTool.range 100000%Z))) /\
  (-1 < 1)%Z /\
  Z.of_nat (List.length (NoDiffTool.range 100000%Z)) = 100000%Z.
Proof.
  intros Hgit.
  assert (Hsel : DiffTool.select_tool run_command DiffTool.TOOLS path =
                 Some (DiffTool.NoDiff path)).
  { unfold DiffTool.TOOLS. cbn [DiffTool.select_tool DiffTool.is_repo].
    now rewrite Hgit. }
  assert (Hinit : DiffTool.__init__ run_command [path] =
                  [(Some path, DiffTool.NoDiff path)]).
  { unfold DiffTool.__init__. cbn [fold_left]. unfold DiffTool.register.
    rewrite Hsel. reflexivity. }
  split; [reflexivity|]. split; [reflexivity|]. split; [reflexivity|].
  split; [assumption|]. split; [assumption|].
  split; [|split; [lia | apply range_length; lia]].
  intros m branch.
  set (d := NoDiffTool._get_files_helper_lines get_files path).
  assert (Hd : tool_file_lines m branch (DiffTool.NoDiff path) = Ok d).
  { destruct m; reflexivity. }
  assert (Hkeys : forall f, In f (dict_keys d) <-> In f (get_files [path])).
  { intros f. unfold d, NoDiffTool._get_files_helper_lines.
    rewrite (fold_set_keys (fun p => p) (fun _ => NoDiffTool.whole_file)).
    rewrite map_id. simpl. tauto. }
  assert (Hvals : forall f v, In (f, v) d ->
                    v = ([(-1)%Z], NoDiffTool.range 100000%Z)).
  { intros f v Hin. unfold d, NoDiffTool._get_files_helper_lines in Hin.
    apply (fold_set_In (fun p => p) (fun _ => NoDiffTool.whole_file)) in Hin.
    destruct Hin as [[]|[x [_ [_ <-]]]]. reflexivity. }
  exists d. split; [assumption|]. split; [assumption|].
  split; [assumption|].
  exists (make_sorted_dict (DiffTool.dict_update [] d)).
  split.
  - unfold file_lines, DiffTool.file_lines. rewrite Hinit.
    cbn [for_each snd]. fold tool_file_lines. rewrite Hd. reflexivity.
  - split.
    + intros f. rewrite make_sorted_dict_keys. unfold DiffTool.dict_update.
      rewrite (fold_set_keys fst snd). simpl. rewrite <- Hkeys.
      unfold dict_keys. tauto.
    + intros f v Hin. unfold make_sorted_dict in Hin.
      apply (proj1 (sorted_by_In fst _ _)) in Hin.
      unfold DiffTool.dict_update in Hin.
      apply (fold_set_In fst snd) in Hin.
      destruct Hin as [[]|[[k w] [Hx [Hk Hw]]]]. simpl in Hk, Hw. subst.
      eauto.
Qed.

End NoHistory.

Lemma fallback_to_no_history_witness :
  DiffTool.select_tool Samples.not_a_repo DiffTool.TOOLS "/tmp/x" =
    Some (DiffTool.NoDiff "/tmp/x") /\
  DiffTool.__init__ Samples.not_a_repo ["/tmp/x"] =
    [(Some "/tmp/x", DiffTool.NoDiff "/tmp/x")].
Proof.
  destruct (fallback_to_no_history Samples.not_a_repo Samples.two_files
              "commited" "staged" "unstaged" "origin/master" "/tmp/x"
              eq_refl)
    as [_ [_ [_ [H1 [H2 _]]]]].
  split; assumption.
Defined.

(** ** The name-only listing and the line-level mapping *)

Section Listing.

Variable run_command : list string -> string -> string * string.
Variable get_files : list string -> list string.
Variables COMMITED_MODE STAGED_MODE UNSTAGED_MODE DEFAULT_BRANCH : string.
Variable path : string.

Let top_level := GitDiffTool.top_level run_command path.
Let listed := Expected.listed run_command COMMITED_MODE STAGED_MODE path.
Let full_text := Expected.full_text run_command COMMITED_MODE STAGED_MODE path.

Lemma sorted_In (x : string) (l : list string) : In x (sorted l) <-> In x l.
Proof. unfold sorted. apply (sorted_by_In (fun s => s)). Qed.

(** The paths of the file-only query are the keys of the line-level
    query that lie under the scope path. *)
Lemma files_are_keys_in_scope branch mode secs fs r :
  _parse_source_sections (full_text branch mode) = Ok secs ->
  (forall n, In n (listed branch mode) <-> In n (dict_keys secs)) ->
  _git_run_helper_files run_command COMMITED_MODE STAGED_MODE path
                        branch mode = Ok fs ->
  _parse_diff_str top_level (full_text branch mode) = Ok r ->
  forall x, In x fs <-> In x (dict_keys r) /\ Str.startswith x path = true.
Proof.
  intros Hs Hsame Hfs Hr x.
  unfold _git_run_helper_files in Hfs. unfold listed, Expected.listed in Hsame.
  destruct (run_command (_git_command COMMITED_MODE STAGED_MODE branch true
                                      mode) path) as [output error].
  simpl in Hsame. apply bind_Ok in Hfs. destruct Hfs as [joined [Hj Hfs]].
  injection Hfs as <-. rewrite filter_In.
  assert (Hnames : forall n,
    In n (sorted (filter (fun i => negb (String.eqb i EmptyString))
                    (nodup string_dec (Str.split output Str.nul_sep)))) <->
    In n (dict_keys secs)).
  { intros n. rewrite sorted_In, <- Hsame, !filter_In, nodup_In. tauto. }
  unfold join_all in Hj. fold top_level in Hj.
  destruct top_level as [top|] eqn:Etop.
  - assert (Ejoined : joined = map (os_path_join top)
      (sorted (filter (fun i => negb (String.eqb i EmptyString))
                 (nodup string_dec (Str.split output Str.nul_sep))))).
    { destruct (sorted _); injection Hj as <-; reflexivity. }
    rewrite Ejoined.
    rewrite (ParseFacts.result_keys top _ secs r x Hs Hr), in_map_iff.
    split.
    + intros [[n [Hn Hin]] Hp]. split; [|assumption].
      exists n. split; [now apply Hnames | assumption].
    + intros [[q [Hq Hjoin]] Hp]. split; [|assumption].
      exists q. split; [assumption | now apply Hnames].
  - destruct (sorted _) as [|n0 ns]; [|discriminate].
    injection Hj as <-.
    assert (Hnil : dict_keys secs = []).
    { destruct (dict_keys secs) as [|k ks]; [reflexivity|].
      exfalso. apply (proj2 (Hnames k)). now left. }
    destruct secs as [|kv secs]; [|discriminate].
    unfold _parse_diff_str in Hr. rewrite Hs in Hr. simpl in Hr.
    injection Hr as <-. simpl. tauto.
Qed.

Let tool_files :=
  DiffTool.tool_files run_command get_files COMMITED_MODE STAGED_MODE
                      UNSTAGED_MODE DEFAULT_BRANCH.
Let tool_file_lines :=
  DiffTool.tool_file_lines run_command get_files COMMITED_MODE STAGED_MODE
                           UNSTAGED_MODE DEFAULT_BRANCH.
Let mode_args :=
  DiffTool.mode_args COMMITED_MODE STAGED_MODE UNSTAGED_MODE DEFAULT_BRANCH.

(** C6, amended: for every change mode, when the name-only output lists
    exactly the names whose sections appear in the full diff output, the
    paths returned by the file-only query are the keys of the line-level
    query that start with the scope path of the provider; the two sets
    are equal when every key does. *)
Theorem files_match_file_lines_in_scope m branch secs fs r :
  let b := fst (mode_args m branch) in
  let md := snd (mode_args m branch) in
  _parse_source_sections (full_text b md) = Ok secs ->
  (forall n, In n (listed b md) <-> In n (dict_keys secs)) ->
  tool_files m branch (DiffTool.Git path) = Ok fs ->
  tool_file_lines m branch (DiffTool.Git path) = Ok r ->
  (forall x, In x fs <-> In x (dict_keys r) /\ Str.startswith x path = true) /\
  ((forall k, In k (dict_keys r) -> Str.startswith k path = true) ->
   forall x, In x fs <-> In x (dict_keys r)).
Proof.
  intros b md Hs Hsame Hfs Hr.
  assert (H : forall x, In x fs <->
                        In x (dict_keys r) /\ Str.startswith x path = true).
  { destruct m; apply (files_are_keys_in_scope b md secs fs r Hs Hsame);
      assumption. }
  split; [assumption|].
  intros Hscope x. rewrite H. split; [tauto|]. intros Hx. split; auto.
Qed.

End Listing.

(** C6, as stated, fails: in the repository of [Samples.one_change],
    queried from the folder [/repo/sub] for the staged changes, the
    name-only output lists the one name whose section the full diff has,
    the file-only query returns no path, and the line-level query has the
    key [/repo/a.py]. *)
Lemma files_differ_from_file_lines :
  listed Samples.one_change "commited" "staged" "/repo/sub"
         "origin/master" "staged" = ["a.py"] /\
  _parse_source_sections
    (full_text Samples.one_change "commited" "staged" "/repo/sub"
               "origin/master" "staged") =
    Ok [("a.py", ["@@ -1 +1,2 @@"; " x"; "+y"; ""])] /\
  DiffTool.tool_files Samples.one_change Samples.two_files
    "commited" "staged" "unstaged" "origin/master"
    DiffTool.Staged "origin/master" (DiffTool.Git "/repo/sub") = Ok [] /\
  DiffTool.tool_file_lines Samples.one_change Samples.two_files
    "commited" "staged" "unstaged" "origin/master"
    DiffTool.Staged "origin/master" (DiffTool.Git "/repo/sub") =
    Ok [("/repo/a.py", ([2%Z], []))].
Proof. repeat split; lazy; reflexivity. Qed.

Lemma files_match_file_lines_in_scope_witness :
  (forall x, In x ["/repo/a.py"] <->
             In x (dict_keys [("/repo/a.py", ([2%Z], @nil Z))]) /\
             Str.startswith x "/repo" = true) /\
  ((forall k, In k (dict_keys [("/repo/a.py", ([2%Z], @nil Z))]) ->
              Str.startswith k "/repo" = true) ->
   forall x, In x ["/repo/a.py"] <->
             In x (dict_keys [("/repo/a.py", ([2%Z], @nil Z))])).
Proof.
  apply (files_match_file_lines_in_scope Samples.one_change Samples.two_files
           "commited" "staged" "unstaged" "origin/master" "/repo"
           DiffTool.Staged "origin/master"
           [("a.py", ["@@ -1 +1,2 @@"; " x"; "+y"; ""])]).
  - lazy; reflexivity.
  - intros n. lazy. tauto.
  - lazy; reflexivity.
  - lazy; reflexivity.
Defined.

(** * Further properties of the module *)

(** ** Matching *)

Module ReFacts.

Import Re.

(** [k] more characters consumed in front of a match. *)
Definition shift (k : nat) (m : option (string * nat)) : option (string * nat) :=
  match m with
  | Some (g, n) => Some (g, (k + n)%nat)
  | None => None
  end.

Lemma shift_0 m : shift 0 m = m.
Proof. destruct m as [[g n]|]; reflexivity. Qed.

Lemma advance_shift k m : advance (shift k m) = shift (S k) m.
Proof. destruct m as [[g n]|]; reflexivity. Qed.

Lemma rmatch_star_cons c r bol a s :
  rmatch (Star c :: r) bol (String a s) =
  if cmatch c a
  then or_else (advance (rmatch (Star c :: r) false s))
               (rmatch r bol (String a s))
  else rmatch r bol (String a s).
Proof. reflexivity. Qed.

Lemma rmatch_star_nil c r bol :
  rmatch (Star c :: r) bol EmptyString = rmatch r bol EmptyString.
Proof. reflexivity. Qed.

Lemma rmatch_gstar_nil c r bol :
  rmatch (GStar c :: r) bol EmptyString =
  open_group (rmatch r bol EmptyString).
Proof. reflexivity. Qed.

(** The flag after a literal has been read. *)
Definition after (p : string) (bol : bool) : bool :=
  match p with
  | EmptyString => bol
  | String _ _ => false
  end.

(** A literal at the head of the pattern reads itself. *)
Lemma rmatch_lit (p : string) (r : regex) : forall bol x,
  rmatch (lit p ++ r)%list bol (p ++ x) =
  shift (String.length p) (rmatch r (after p bol) x).
Proof.
  induction p as [|c p IH]; intros bol x.
  - simpl. now rewrite shift_0.
  - change (rmatch (lit (String c p) ++ r)%list bol (String c p ++ x))
      with (if cmatch (CChar c) c
            then advance (rmatch (lit p ++ r)%list false (p ++ x)) else None).
    simpl cmatch. rewrite Ascii.eqb_refl, IH, advance_shift.
    destruct p; reflexivity.
Qed.

(** A literal that is no prefix of the subject fails. *)
Lemma rmatch_lit_fail (p : string) (r : regex) : forall bol s,
  String.prefix p s = false -> rmatch (lit p ++ r)%list bol s = None.
Proof.
  induction p as [|c p IH]; intros bol s H.
  - now rewrite prefix_nil in H.
  - destruct s as [|a s]; [reflexivity|].
    change (rmatch (lit (String c p) ++ r)%list bol (String a s))
      with (if cmatch (CChar c) a
            then advance (rmatch (lit p ++ r)%list false s) else None).
    simpl cmatch. rewrite prefix_cons in H.
    rewrite Ascii.eqb_sym. destruct (Ascii.eqb c a); [|reflexivity].
    simpl in H. now rewrite IH.
Qed.

(** An anchored pattern matches nowhere but at the beginning. *)
Lemma findall_anchored_later (r : regex) (s : string) : forall skip,
  findall_from (Bol :: r) false skip s = [].
Proof.
  induction s as [|a s IH]; intros skip; [reflexivity|].
  destruct skip as [|k]; cbn [findall_from]; [|apply IH].
  change (rmatch (Bol :: r) false (String a s)) with (@None (string * nat)).
  apply IH.
Qed.

Lemma findall_anchored (r : regex) (a : ascii) (s : string) :
  findall (Bol :: r) (String a s) =
  match rmatch r true (String a s) with
  | Some (g, _) => [g]
  | None => []
  end.
Proof.
  unfold findall. cbn [findall_from].
  change (rmatch (Bol :: r) true (String a s))
    with (rmatch r true (String a s)).
  destruct (rmatch r true (String a s)) as [[g n]|];
    now rewrite findall_anchored_later.
Qed.

(** Every class of a group of [r] is within [P]. *)
Definition groups_within (P : ascii -> bool) (r : regex) : Prop :=
  Forall (fun it => match it with
                    | GStar c => forall a, cmatch c a = true -> P a = true
                    | _ => True
                    end) r.

Definition chars_within (P : ascii -> bool) (g : string) : bool :=
  forallb P (list_ascii_of_string g).

Lemma advance_Some m g n :
  advance m = Some (g, n) -> exists n', m = Some (g, n').
Proof. destruct m as [[g' n']|]; simpl; [|discriminate]. intros [= <- _]. eauto. Qed.

Lemma or_else_Some {A : Type} (m alt : option A) x :
  or_else m alt = Some x -> m = Some x \/ alt = Some x.
Proof. destruct m; simpl; auto. Qed.

(** The text of the group is made of characters of its class. *)
Lemma group_chars (P : ascii -> bool) (r : regex) : forall bol s g n,
  groups_within P r ->
  rmatch r bol s = Some (g, n) -> chars_within P g = true.
Proof.
  induction r as [|it r IH]; intros bol s g n Hok H.
  - injection H as <- _. reflexivity.
  - inversion Hok as [|? ? Hit Hr]; subst.
    destruct it as [|c|c|c|c].
    + simpl in H. destruct bol; [eauto | discriminate].
    + simpl in H. destruct s as [|a s]; [discriminate|].
      destruct (cmatch c a); [|discriminate].
      apply advance_Some in H. destruct H as [n' H]. eauto.
    + simpl in H. destruct s as [|a s]; [eauto|].
      destruct (cmatch c a); [|eauto].
      apply or_else_Some in H. destruct H as [H|H]; [|eauto].
      apply advance_Some in H. destruct H as [n' H]. eauto.
    + revert bol g n H. induction s as [|a s IHs]; intros bol g n H.
      * rewrite rmatch_star_nil in H. eauto.
      * rewrite rmatch_star_cons in H.
        destruct (cmatch c a); [|eauto].
        apply or_else_Some in H. destruct H as [H|H]; [|eauto].
        apply advance_Some in H. destruct H as [n' H]. eauto.
    + revert bol g n H. induction s as [|a s IHs]; intros bol g n H.
      * rewrite rmatch_gstar_nil in H.
        destruct (rmatch r bol EmptyString) as [[g' n']|]; [|discriminate].
        injection H as <- _. reflexivity.
      * rewrite HunkFacts.rmatch_gstar_cons in H.
        assert (Hopen : forall m, open_group m = Some (g, n) ->
                                  chars_within P g = true).
        { intros [[g' n']|]; simpl; [|discriminate].
          intros [= <- _]. reflexivity. }
        destruct (cmatch c a) eqn:Ea; [|eauto].
        apply or_else_Some in H. destruct H as [H|H]; [|eauto].
        destruct (rmatch (GStar c :: r) false s) as [[g' n']|] eqn:E;
          [|discriminate].
        simpl in H. injection H as <- _.
        unfold chars_within. simpl. rewrite (Hit a Ea). simpl.
        apply (IHs false g' n' E).
Qed.

Lemma rmatch_opt_cons c r bol a s :
  rmatch (Opt c :: r) bol (String a s) =
  if cmatch c a
  then or_else (advance (rmatch r false s)) (rmatch r bol (String a s))
  else rmatch r bol (String a s).
Proof. reflexivity. Qed.

Lemma rmatch_opt_nil c r bol :
  rmatch (Opt c :: r) bol EmptyString = rmatch r bol EmptyString.
Proof. reflexivity. Qed.

Lemma rmatch_one_cons c r bol a s :
  rmatch (One c :: r) bol (String a s) =
  if cmatch c a then advance (rmatch r false s) else None.
Proof. reflexivity. Qed.

Lemma rmatch_one_nil c r bol : rmatch (One c :: r) bol EmptyString = None.
Proof. reflexivity. Qed.

(** A group whose class holds of the whole subject takes all of it, when
    what follows the group matches the empty text. *)
Lemma gstar_all (c : cclass) (r : regex) (p : string) :
  (forall bol, exists g, rmatch r bol EmptyString = Some (g, O)) ->
  chars_within (cmatch c) p = true ->
  forall bol, rmatch (GStar c :: r) bol p = Some (p, String.length p).
Proof.
  intros Hr. unfold chars_within.
  induction p as [|a p IH]; intros Hp bol.
  - rewrite rmatch_gstar_nil. destruct (Hr bol) as [g ->]. reflexivity.
  - simpl in Hp. apply andb_true_iff in Hp. destruct Hp as [Ha Hp].
    rewrite HunkFacts.rmatch_gstar_cons, Ha, (IH Hp false). reflexivity.
Qed.

(** [T] fails at every position of [t], the end included. *)
Fixpoint fails_everywhere (T : regex) (t : string) : Prop :=
  rmatch T false t = None /\
  match t with
  | EmptyString => True
  | String _ u => fails_everywhere T u
  end.

Lemma star_none (c : cclass) (T : regex) (t : string) :
  fails_everywhere T t -> rmatch (Star c :: T) false t = None.
Proof.
  induction t as [|a t IH]; intros [H0 H].
  - now rewrite rmatch_star_nil.
  - rewrite rmatch_star_cons, (IH H), H0. now destruct (cmatch c a).
Qed.

(** A repetition gives back what it took until the rest of the pattern
    matches: when the rest matches at [t] and nowhere after, the repetition
    takes all of [x]. *)
Lemma star_greedy (c : cclass) (T : regex) (x : string) (a : ascii)
    (t : string) (g : string) (n : nat) :
  chars_within (cmatch c) x = true ->
  fails_everywhere T t ->
  (forall bol, rmatch T bol (String a t) = Some (g, n)) ->
  forall bol,
    rmatch (Star c :: T) bol (x ++ String a t) =
    Some (g, (String.length x + n)%nat).
Proof.
  intros Hx Ht HT. unfold chars_within in Hx.
  induction x as [|b x IH]; intros bol.
  - simpl append. rewrite rmatch_star_cons, (star_none c T t Ht), HT.
    now destruct (cmatch c a).
  - simpl in Hx. apply andb_true_iff in Hx. destruct Hx as [Hb Hx].
    simpl append. rewrite rmatch_star_cons, Hb, (IH Hx false). reflexivity.
Qed.

End ReFacts.

(** ** The file header line *)

Module HeaderFacts.

Import Re ReFacts.

(** Neither a space nor a newline. *)
Definition no_space_nl (a : ascii) : bool :=
  negb (Ascii.eqb a " "%char) && negb (Ascii.eqb a Str.newline).

(** The class of the group of [SRC_FILE_RE]. *)
Definition src_class : cclass := CNot [" "%char; Str.newline; Str.dquote].

(** The class of the group of [MERGE_CONFLICT_RE]. *)
Definition merge_class : cclass := CNot [" "%char; Str.newline].

(** [SRC_FILE_RE] from the repetition on, and what follows the
    repetition. *)
Definition src_rest : regex :=
  ([Opt (CChar Str.dquote); One (CChar " "%char); Opt (CChar Str.dquote)] ++
   lit "b/" ++ [GStar src_class; Opt (CChar Str.dquote)])%list.

Definition src_tail : regex :=
  (lit "diff --git " ++ [Opt (CChar Str.dquote)] ++ lit "a/" ++
   Star CAny :: src_rest)%list.

Definition merge_tail : regex :=
  (lit "diff --cc " ++ [GStar merge_class])%list.

Lemma src_unfold : SRC_FILE_RE = Bol :: src_tail.
Proof. reflexivity. Qed.

Lemma merge_unfold : MERGE_CONFLICT_RE = Bol :: merge_tail.
Proof. reflexivity. Qed.

Lemma src_class_no_space a :
  cmatch src_class a = true -> no_space_nl a = true.
Proof.
  unfold no_space_nl. simpl.
  destruct (Ascii.eqb a " "%char); [discriminate|].
  destruct (Ascii.eqb a Str.newline); [discriminate|]. reflexivity.
Qed.

Lemma merge_class_no_space a : cmatch merge_class a = no_space_nl a.
Proof.
  unfold no_space_nl. simpl.
  destruct (Ascii.eqb a " "%char); [reflexivity|].
  destruct (Ascii.eqb a Str.newline); reflexivity.
Qed.

Lemma src_groups : groups_within no_space_nl src_tail.
Proof.
  unfold groups_within, src_tail, src_rest. cbn [lit app].
  repeat (apply Forall_cons; [try exact I|]); [|apply Forall_nil].
  exact src_class_no_space.
Qed.

Lemma merge_groups : groups_within no_space_nl merge_tail.
Proof.
  unfold groups_within, merge_tail. cbn [lit app].
  repeat (apply Forall_cons; [try exact I|]); [|apply Forall_nil].
  intros a H. now rewrite <- merge_class_no_space.
Qed.

Lemma findall_nil (r : regex) : findall r EmptyString = [].
Proof. reflexivity. Qed.

(** A single-character text does not occur in a text none of whose
    characters is that one. *)
Lemma contains_char (c : ascii) (P : ascii -> bool) (g : string) :
  P c = false -> chars_within P g = true ->
  Str.contains (String c EmptyString) g = false.
Proof.
  intros Hc. unfold chars_within.
  induction g as [|a g IH]; intros Hg; [reflexivity|].
  simpl in Hg. apply andb_true_iff in Hg. destruct Hg as [Ha Hg].
  cbn [Str.contains]. rewrite prefix_cons, prefix_nil, andb_true_r, (IH Hg).
  destruct (Ascii.eqb c a) eqn:E; [|reflexivity].
  apply Ascii.eqb_eq in E. subst a. congruence.
Qed.

Lemma contains_cons (sub : string) (a : ascii) (s : string) :
  Str.contains sub (String a s) =
  String.prefix sub (String a s) || Str.contains sub s.
Proof. reflexivity. Qed.

Lemma prefix_split (p : string) : forall s,
  String.prefix p s = true -> exists x, s = p ++ x.
Proof.
  induction p as [|c p IH]; intros s H.
  - exists s. reflexivity.
  - destruct s as [|a s]; [discriminate|].
    rewrite prefix_cons in H. apply andb_true_iff in H. destruct H as [E H].
    apply Ascii.eqb_eq in E. subst a. destruct (IH s H) as [x ->].
    exists x. reflexivity.
Qed.

(** A header line holds one of the two marks [_parse_source_line] looks
    for. *)
Lemma header_has_mark (line : string) :
  is_header line = true ->
  Str.contains "--git" line = true \/
  (Str.contains "--git" line = false /\ Str.contains "--cc" line = true).
Proof.
  unfold is_header, Str.startswith. intros H.
  destruct (Str.contains "--git" line) eqn:Eg; [now left|]. right.
  split; [reflexivity|].
  apply orb_true_iff in H. destruct H as [H|H];
    apply prefix_split in H; destruct H as [x ->].
  - exfalso. revert Eg. simpl append. rewrite !contains_cons, !prefix_cons.
    rewrite !prefix_nil. simpl. discriminate.
  - simpl append. rewrite !contains_cons, !prefix_cons.
    rewrite !prefix_nil. reflexivity.
Qed.

End HeaderFacts.

Module HeaderPaths.

Import Re ReFacts HeaderFacts.

(** No character of [s] is one of [cs]. *)
Definition free_of (cs : list ascii) (s : string) : bool :=
  chars_within (fun a => negb (existsb (Ascii.eqb a) cs)) s.

Lemma chars_within_impl (P Q : ascii -> bool) (g : string) :
  (forall a, P a = true -> Q a = true) ->
  chars_within P g = true -> chars_within Q g = true.
Proof.
  intros HPQ. unfold chars_within.
  induction g as [|a g IH]; simpl; [reflexivity|].
  intros H. apply andb_true_iff in H. destruct H as [Ha Hg].
  now rewrite (HPQ a Ha), (IH Hg).
Qed.

Lemma src_rest_fail_nil : rmatch src_rest false EmptyString = None.
Proof. reflexivity. Qed.

Lemma src_rest_fail_char (a : ascii) (s : string) :
  Ascii.eqb a Str.dquote = false -> Ascii.eqb a " "%char = false ->
  rmatch src_rest false (String a s) = None.
Proof.
  intros Hq Hs. unfold src_rest. cbn [app].
  rewrite rmatch_opt_cons. cbn [cmatch]. rewrite Hq.
  rewrite rmatch_one_cons. cbn [cmatch]. now rewrite Hs.
Qed.

Lemma src_rest_fails (p : string) :
  free_of [" "%char; Str.newline; Str.dquote] p = true ->
  fails_everywhere src_rest p.
Proof.
  unfold free_of, chars_within.
  induction p as [|a p IH]; intros H.
  - split; [apply src_rest_fail_nil | exact I].
  - simpl in H. apply andb_true_iff in H. destruct H as [Ha Hp].
    apply negb_true_iff in Ha.
    apply orb_false_iff in Ha. destruct Ha as [Hs Ha].
    apply orb_false_iff in Ha. destruct Ha as [_ Ha].
    apply orb_false_iff in Ha. destruct Ha as [Hq _].
    split; [now apply src_rest_fail_char | now apply IH].
Qed.

(** What follows the repetition matches at the space before [b/]. *)
Lemma src_rest_match (p : string) :
  free_of [" "%char; Str.newline; Str.dquote] p = true ->
  forall bol,
    rmatch src_rest bol (String " " ("b/" ++ p)) =
    Some (p, (3 + String.length p)%nat).
Proof.
  intros Hp bol. unfold src_rest. cbn [app].
  rewrite rmatch_opt_cons.
  change (cmatch (CChar Str.dquote) " "%char) with false. cbv iota.
  rewrite rmatch_one_cons.
  change (cmatch (CChar " "%char) " "%char) with true. cbv iota.
  change ("b/" ++ p) with (String "b" ("/" ++ p)).
  rewrite rmatch_opt_cons.
  change (cmatch (CChar Str.dquote) "b"%char) with false. cbv iota.
  change (String "b" ("/" ++ p)) with ("b/" ++ p).
  rewrite (rmatch_lit "b/" [GStar src_class; Opt (CChar Str.dquote)] false p).
  rewrite (gstar_all src_class [Opt (CChar Str.dquote)] p).
  - reflexivity.
  - intros b. eexists. reflexivity.
  - exact Hp.
Qed.

Lemma no_newline_any (x : string) :
  Str.contains Str.nl x = false -> chars_within (cmatch CAny) x = true.
Proof.
  unfold chars_within. induction x as [|a x IH]; intros H; [reflexivity|].
  rewrite StrFacts.contains_nl_cons in H. apply orb_false_iff in H.
  destruct H as [Ha Hx]. simpl. rewrite (IH Hx), Ascii.eqb_sym, Ha.
  reflexivity.
Qed.

(** The whole pattern on a two-file header. *)
Lemma src_tail_match (x p : string) :
  Str.contains Str.nl x = false ->
  free_of [" "%char; Str.newline; Str.dquote] p = true ->
  exists n,
    rmatch src_tail true ("diff --git a/" ++ x ++ " b/" ++ p) = Some (p, n).
Proof.
  intros Hx Hp. unfold src_tail.
  change ("diff --git a/" ++ x ++ " b/" ++ p)
    with ("diff --git " ++ (String "a" ("/" ++ x ++ " b/" ++ p))).
  rewrite rmatch_lit. cbn [after app].
  rewrite rmatch_opt_cons.
  change (cmatch (CChar Str.dquote) "a"%char) with false. cbv iota.
  change (String "a" ("/" ++ x ++ " b/" ++ p))
    with ("a/" ++ (x ++ String " " ("b/" ++ p))).
  rewrite (rmatch_lit "a/" (Star CAny :: src_rest) false).
  rewrite (star_greedy CAny src_rest x " "%char ("b/" ++ p) p
             (3 + String.length p)%nat).
  - eexists. reflexivity.
  - now apply no_newline_any.
  - split; [now apply src_rest_fail_char|].
    split; [now apply src_rest_fail_char|].
    now apply src_rest_fails.
  - now apply src_rest_match.
Qed.

End HeaderPaths.

(** ** [_parse_source_line] *)

Import HeaderPaths.

(** A path extracted from a header line holds neither a space nor a
    newline: the group of either pattern stops there. *)
Theorem source_path_has_no_space (line p : string) :
  _parse_source_line line = Ok p ->
  free_of [" "%char; Str.newline] p = true.
Proof.
  unfold _parse_source_line. intros H.
  assert (Hno : ReFacts.chars_within HeaderFacts.no_space_nl p = true).
  { destruct line as [|a line]; [vm_compute in H; discriminate|].
    destruct (Str.contains "--git" (String a line)).
    - cbn [bind] in H.
      rewrite HeaderFacts.src_unfold, ReFacts.findall_anchored in H.
      destruct (Re.rmatch HeaderFacts.src_tail true (String a line))
        as [[g n]|] eqn:E; [|discriminate].
      injection H as <-.
      exact (ReFacts.group_chars _ _ _ _ _ _ HeaderFacts.src_groups E).
    - destruct (Str.contains "--cc" (String a line)); [|discriminate].
      cbn [bind] in H.
      rewrite HeaderFacts.merge_unfold, ReFacts.findall_anchored in H.
      destruct (Re.rmatch HeaderFacts.merge_tail true (String a line))
        as [[g n]|] eqn:E; [|discriminate].
      injection H as <-.
      exact (ReFacts.group_chars _ _ _ _ _ _ HeaderFacts.merge_groups E). }
  unfold free_of. apply (chars_within_impl HeaderFacts.no_space_nl); [|exact Hno].
  intros a Ha. unfold HeaderFacts.no_space_nl in Ha.
  apply andb_true_iff in Ha. destruct Ha as [H1 H2].
  apply negb_true_iff in H1, H2. simpl. now rewrite H1, H2.
Qed.

Lemma source_path_has_no_space_witness :
  free_of [" "%char; Str.newline] "my" = true.
Proof.
  apply (source_path_has_no_space "diff --git a/my file.py b/my file.py").
  vm_compute; reflexivity.
Defined.

(** A line with neither mark is refused as unrecognised; a header line is
    never refused that way: it yields a path or the error that the path
    could not be parsed, quoting the line. *)
Theorem source_line_errors (line : string) :
  (Str.contains "--git" line = false -> Str.contains "--cc" line = false ->
   _parse_source_line line =
   Raise ("Do not recognize format of source in line '" ++ line ++ "'")) /\
  (is_header line = true ->
   (exists p, _parse_source_line line = Ok p) \/
   _parse_source_line line =
   Raise ("Could not parse source path in line '" ++ line ++ "'")).
Proof.
  split.
  - intros Hg Hc. unfold _parse_source_line. now rewrite Hg, Hc.
  - intros Hh. unfold _parse_source_line.
    destruct (HeaderFacts.header_has_mark line Hh) as [Hg|[Hg Hc]].
    + rewrite Hg. cbn [bind].
      destruct (Re.findall SRC_FILE_RE line) as [|g [|g' gs]]; eauto.
    + rewrite Hg, Hc. cbn [bind].
      destruct (Re.findall MERGE_CONFLICT_RE line) as [|g [|g' gs]]; eauto.
Qed.

Lemma source_line_errors_witness :
  _parse_source_line "index 111..222 100644" =
    Raise ("Do not recognize format of source in line '" ++
           "index 111..222 100644" ++ "'") /\
  ((exists p, _parse_source_line "diff --git a/x" = Ok p) \/
   _parse_source_line "diff --git a/x" =
   Raise ("Could not parse source path in line '" ++ "diff --git a/x" ++ "'")).
Proof.
  split.
  - apply (proj1 (source_line_errors "index 111..222 100644"));
      vm_compute; reflexivity.
  - apply (proj2 (source_line_errors "diff --git a/x")).
    vm_compute; reflexivity.
Defined.

(** The header [diff --git a/X b/P] yields [P], for every [X] without a
    newline and every [P] without a space, a newline or a double quote. *)
Theorem git_header_yields_new_path (x p : string) :
  Str.contains Str.nl x = false ->
  free_of [" "%char; Str.newline; Str.dquote] p = true ->
  _parse_source_line ("diff --git a/" ++ x ++ " b/" ++ p) = Ok p.
Proof.
  intros Hx Hp. unfold _parse_source_line.
  assert (Hg : Str.contains "--git" ("diff --git a/" ++ x ++ " b/" ++ p) = true).
  { simpl append.
    rewrite !HeaderFacts.contains_cons, !prefix_cons, !prefix_nil.
    reflexivity. }
  rewrite Hg. cbn [bind].
  destruct (src_tail_match x p Hx Hp) as [n Hm].
  change ("diff --git a/" ++ x ++ " b/" ++ p)
    with (String "d" ("iff --git a/" ++ x ++ " b/" ++ p)) in Hm |- *.
  now rewrite HeaderFacts.src_unfold, ReFacts.findall_anchored, Hm.
Qed.

Lemma git_header_yields_new_path_witness :
  _parse_source_line ("diff --git a/" ++ "old name.py" ++ " b/" ++ "new.py") =
  Ok "new.py".
Proof.
  apply git_header_yields_new_path; vm_compute; reflexivity.
Defined.

(** The merge-conflict header [diff --cc P] yields [P], for every [P]
    without a space or a newline in which [--git] does not occur. *)
Theorem merge_header_yields_path (p : string) :
  free_of [" "%char; Str.newline] p = true ->
  Str.contains "--git" p = false ->
  _parse_source_line ("diff --cc " ++ p) = Ok p.
Proof.
  intros Hp Hg. unfold _parse_source_line.
  assert (Hg' : Str.contains "--git" ("diff --cc " ++ p) = false).
  { simpl append.
    rewrite !HeaderFacts.contains_cons, !prefix_cons, !prefix_nil, Hg.
    reflexivity. }
  assert (Hc : Str.contains "--cc" ("diff --cc " ++ p) = true).
  { simpl append.
    rewrite !HeaderFacts.contains_cons, !prefix_cons, !prefix_nil.
    reflexivity. }
  rewrite Hg', Hc. cbn [bind].
  change ("diff --cc " ++ p) with (String "d" ("iff --cc " ++ p)).
  rewrite HeaderFacts.merge_unfold, ReFacts.findall_anchored.
  change (String "d" ("iff --cc " ++ p)) with ("diff --cc " ++ p).
  unfold HeaderFacts.merge_tail.
  rewrite (ReFacts.rmatch_lit "diff --cc " [Re.GStar HeaderFacts.merge_class]).
  rewrite (ReFacts.gstar_all HeaderFacts.merge_class [] p).
  - reflexivity.
  - intros b. eexists. reflexivity.
  - exact Hp.
Qed.

Lemma merge_header_yields_path_witness :
  _parse_source_line ("diff --cc " ++ "src/foo.py") = Ok "src/foo.py".
Proof.
  apply merge_header_yields_path; vm_compute; reflexivity.
Defined.

(** A merge-conflict header in whose text [--git] occurs is matched
    against the two-file pattern and refused. *)
Theorem merge_header_with_git_mark_refused (rest : string) :
  Str.contains "--git" rest = true ->
  _parse_source_line ("diff --cc " ++ rest) =
  Raise ("Could not parse source path in line '" ++
         ("diff --cc " ++ rest) ++ "'").
Proof.
  intros Hg. unfold _parse_source_line.
  assert (Hg' : Str.contains "--git" ("diff --cc " ++ rest) = true).
  { simpl append.
    rewrite !HeaderFacts.contains_cons, !prefix_cons, !prefix_nil, Hg.
    now rewrite !orb_true_r. }
  rewrite Hg'. cbn [bind].
  change ("diff --cc " ++ rest) with (String "d" ("iff --cc " ++ rest)) at 1.
  rewrite HeaderFacts.src_unfold, ReFacts.findall_anchored.
  unfold HeaderFacts.src_tail.
  rewrite ReFacts.rmatch_lit_fail; [reflexivity|].
  rewrite !prefix_cons. reflexivity.
Qed.

Lemma merge_header_with_git_mark_refused_witness :
  _parse_source_line ("diff --cc " ++ "tools/--git-hook.py") =
  Raise ("Could not parse source path in line '" ++
         ("diff --cc " ++ "tools/--git-hook.py") ++ "'").
Proof.
  apply merge_header_with_git_mark_refused. vm_compute; reflexivity.
Defined.

(** ** [_parse_hunk_line] *)

Module HunkLine.

Import Re ReFacts.

Definition head_is_digit (s : string) : bool :=
  match s with
  | String a _ => Str.is_digit a
  | EmptyString => false
  end.

Lemma free_of_cons cs a s :
  free_of cs (String a s) =
  negb (existsb (Ascii.eqb a) cs) && free_of cs s.
Proof. reflexivity. Qed.

Lemma free_of_app cs s t :
  free_of cs (s ++ t) = free_of cs s && free_of cs t.
Proof.
  induction s as [|a s IH]; [reflexivity|].
  simpl append. rewrite !free_of_cons, IH. apply andb_assoc.
Qed.

(** A text without the delimiter is one piece. *)
Lemma split_no_delim (l : string) :
  Str.contains "@@" l = false -> Str.split l "@@" = [l].
Proof.
  unfold Str.split. induction l as [|a l IH]; intros H; [reflexivity|].
  rewrite HeaderFacts.contains_cons in H. apply orb_false_iff in H.
  destruct H as [Hp Hl]. cbn [Str.split_from]. now rewrite Hp, (IH Hl).
Qed.

(** A text without [@] in front of the delimiter is the first piece. *)
Lemma split_info (info text : string) :
  free_of ["@"%char] info = true ->
  Str.split (info ++ "@@" ++ text) "@@" = info :: Str.split text "@@".
Proof.
  unfold Str.split.
  change ("@@" ++ text) with (String "@" (String "@" text)).
  induction info as [|a info IH]; intros H.
  - simpl append. cbn [Str.split_from].
    rewrite !prefix_cons, prefix_nil. reflexivity.
  - rewrite free_of_cons in H. apply andb_true_iff in H.
    destruct H as [Ha Hi]. apply negb_true_iff in Ha. simpl in Ha.
    apply orb_false_iff in Ha. destruct Ha as [Ha _].
    simpl append. cbn [Str.split_from].
    rewrite prefix_cons, Ascii.eqb_sym, Ha. cbn [andb].
    now rewrite (IH Hi).
Qed.

Lemma digits_unique (g g' rest rest' : string) :
  all_digits g = true -> all_digits g' = true ->
  head_is_digit rest = false -> head_is_digit rest' = false ->
  g ++ rest = g' ++ rest' -> g = g'.
Proof.
  unfold all_digits. revert g'.
  induction g as [|a g IH]; intros g' Hg Hg' Hr Hr' E.
  - destruct g' as [|b g']; [reflexivity|].
    simpl in E. subst rest. simpl in Hg', Hr.
    apply andb_true_iff in Hg'. destruct Hg' as [Hb _]. congruence.
  - destruct g' as [|b g'].
    + simpl in E. subst rest'. simpl in Hg, Hr'.
      apply andb_true_iff in Hg. destruct Hg as [Ha _]. congruence.
    + simpl in E. injection E as <- E. simpl in Hg, Hg'.
      apply andb_true_iff in Hg, Hg'. f_equal.
      apply (IH g'); tauto.
Qed.

Lemma free_of_plus_count (s : string) :
  free_of ["+"%char] s = true -> count_plus s = O.
Proof.
  induction s as [|a s IH]; intros H; [reflexivity|].
  rewrite free_of_cons in H. apply andb_true_iff in H. destruct H as [Ha Hs].
  apply negb_true_iff in Ha. simpl in Ha. apply orb_false_iff in Ha.
  destruct Ha as [Ha _]. simpl. now rewrite Ha, (IH Hs).
Qed.

(** With one [+] in the text, followed by the digit run [ds], the pattern
    finds [ds] and nothing else. *)
Lemma findall_one (pre ds post : string) :
  free_of ["+"%char] pre = true -> all_digits ds = true ->
  free_of ["+"%char] post = true -> head_is_digit post = false ->
  forall bol,
    findall_from HUNK_LINE_RE bol O (pre ++ String "+" (ds ++ post)) = [ds].
Proof.
  intros Hpre Hds Hpost Hhead.
  induction pre as [|a pre IH]; intros bol.
  - simpl append. cbn [findall_from]. rewrite HunkFacts.rmatch_hunk_cons.
    change (Ascii.eqb "+" "+") with true. cbv iota.
    destruct (HunkFacts.digits_run (ds ++ post) false)
      as [g [rest [Hm [Hs [Hg Hr]]]]].
    assert (g = ds).
    { symmetry. apply (digits_unique ds g post rest); auto.
      destruct rest; [reflexivity | exact Hr]. }
    subst g. rewrite Hm. cbn [advance Nat.pred].
    destruct (HunkFacts.findall_hunk (ds ++ post) false ds post eq_refl Hds)
      as [Hlen _].
    rewrite (free_of_plus_count post Hpost) in Hlen.
    destruct (findall_from HUNK_LINE_RE false (String.length ds) (ds ++ post));
      [reflexivity | discriminate].
  - rewrite free_of_cons in Hpre. apply andb_true_iff in Hpre.
    destruct Hpre as [Ha Hpre]. apply negb_true_iff in Ha. simpl in Ha.
    apply orb_false_iff in Ha. destruct Ha as [Ha _].
    simpl append. cbn [findall_from]. rewrite HunkFacts.rmatch_hunk_cons, Ha.
    now apply IH.
Qed.

Lemma int_digits_all (s : string) : forall acc n,
  Str.int_digits acc s = Some n -> all_digits s = true.
Proof.
  unfold all_digits. induction s as [|a s IH]; intros acc n H; [reflexivity|].
  cbn [Str.int_digits] in H. simpl. destruct (Str.is_digit a); [|discriminate].
  simpl. eauto.
Qed.

Lemma int_all_digits (s : string) (n : Z) :
  Str.int s = Some n -> all_digits s = true.
Proof.
  unfold Str.int. destruct s as [|a s]; [discriminate|].
  destruct (_ <=? _)%Z; [apply int_digits_all | discriminate].
Qed.

Lemma int_digits_nonneg (s : string) : forall acc n,
  Str.int_digits acc s = Some n -> (0 <= acc)%Z -> (0 <= n)%Z.
Proof.
  induction s as [|a s IH]; intros acc n H Hacc; cbn [Str.int_digits] in H.
  - now injection H as <-.
  - destruct (Str.is_digit a); [|discriminate].
    apply (IH _ _ H).
    assert (0 <= Str.digit_value a)%Z by apply Nat2Z.is_nonneg. lia.
Qed.

(** A start extracted from a line is never negative. *)
Lemma hunk_start_nonneg (line : string) (n : Z) :
  _parse_hunk_line line = Ok n -> (0 <= n)%Z.
Proof.
  unfold _parse_hunk_line. intros H.
  destruct (Str.split line "@@") as [|c0 [|info cs]]; try discriminate.
  destruct (findall HUNK_LINE_RE info) as [|g [|g' gs]]; try discriminate.
  destruct (Str.int g) as [k|] eqn:E; [|discriminate].
  injection H as <-. unfold Str.int in E.
  destruct g; [discriminate|].
  destruct (_ <=? _)%Z; [|discriminate].
  apply (int_digits_nonneg _ _ _ E). lia.
Qed.

End HunkLine.

(** A line in which the delimiter does not occur is refused, the error
    quoting the line. *)
Theorem line_without_delimiter_refused (line : string) :
  Str.contains "@@" line = false ->
  _parse_hunk_line line =
  Raise ("Could not parse hunk in line '" ++ line ++ "'").
Proof.
  intros H. unfold _parse_hunk_line.
  now rewrite (HunkLine.split_no_delim line H).
Qed.

Lemma line_without_delimiter_refused_witness :
  _parse_hunk_line "+ added @ line" =
  Raise ("Could not parse hunk in line '" ++ "+ added @ line" ++ "'").
Proof.
  apply line_without_delimiter_refused. vm_compute; reflexivity.
Defined.

(** A marker whose information holds one [+], followed by the digits of
    [n], yields [n], whatever follows the closing delimiter: the old range
    and the lengths play no part. *)
Theorem hunk_marker_yields_new_start (pre ds post text : string) (n : Z) :
  free_of ["+"%char; "@"%char] pre = true ->
  Str.int ds = Some n ->
  free_of ["+"%char; "@"%char] post = true ->
  HunkLine.head_is_digit post = false ->
  _parse_hunk_line ("@@" ++ (pre ++ String "+" (ds ++ post)) ++ "@@" ++ text) =
  Ok n.
Proof.
  intros Hpre Hint Hpost Hhead.
  pose proof (HunkLine.int_all_digits ds n Hint) as Hds.
  assert (Hsub : forall s, free_of ["+"%char; "@"%char] s = true ->
                           free_of ["+"%char] s = true /\
                           free_of ["@"%char] s = true).
  { intros s Hs. split;
      (apply (chars_within_impl
                (fun a => negb (existsb (Ascii.eqb a) ["+"%char; "@"%char])));
       [|exact Hs]); intros a Ha; apply negb_true_iff in Ha;
      simpl in Ha; apply orb_false_iff in Ha; destruct Ha as [H1 Ha];
      apply orb_false_iff in Ha; destruct Ha as [H2 _]; simpl.
    - now rewrite H1.
    - now rewrite H2. }
  destruct (Hsub pre Hpre) as [Hpre1 Hpre2].
  destruct (Hsub post Hpost) as [Hpost1 Hpost2].
  assert (Hdig : free_of ["@"%char] ds = true).
  { apply (chars_within_impl Str.is_digit); [|exact Hds].
    intros a Ha. simpl. destruct (Ascii.eqb a "@"%char) eqn:E; [|reflexivity].
    apply Ascii.eqb_eq in E. subst a. discriminate. }
  assert (Hinfo : free_of ["@"%char] (pre ++ String "+" (ds ++ post)) = true).
  { rewrite HunkLine.free_of_app, Hpre2, HunkLine.free_of_cons,
      HunkLine.free_of_app, Hdig, Hpost2. reflexivity. }
  unfold _parse_hunk_line.
  change ("@@" ++ (pre ++ String "+" (ds ++ post)) ++ "@@" ++ text)
    with (EmptyString ++ "@@" ++
          ((pre ++ String "+" (ds ++ post)) ++ "@@" ++ text)).
  rewrite (HunkLine.split_info EmptyString) by reflexivity.
  rewrite (HunkLine.split_info _ text Hinfo).
  unfold Re.findall.
  rewrite (HunkLine.findall_one pre ds post Hpre1 Hds Hpost1 Hhead).
  now rewrite Hint.
Qed.

Lemma hunk_marker_yields_new_start_witness :
  _parse_hunk_line
    ("@@" ++ (" -10,2 " ++ String "+" ("11" ++ ",3 ")) ++ "@@" ++ " def f(x):") =
  Ok 11%Z.
Proof.
  apply hunk_marker_yields_new_start; vm_compute; reflexivity.
Defined.


(** ** [_parse_lines] *)

Module LineRun.

Import LineFacts.

Definition not_hunk (l : string) : bool := negb (is_hunk l).
Definition not_deleted (l : string) : bool := negb (is_deleted l).
Definition not_added (l : string) : bool := negb (is_added l).

(** Outside a hunk a line that is no marker changes nothing. *)
Lemma step_outside (l : string) :
  is_hunk l = false -> line_step line_init l = Ok line_init.
Proof.
  intros H. unfold line_step, is_hunk in *. rewrite H.
  destruct (Str.startswith l "+"); [reflexivity|].
  destruct (Str.startswith l "-"); reflexivity.
Qed.

Lemma run_outside (pre : list string) :
  forallb not_hunk pre = true -> for_each line_step pre line_init = Ok line_init.
Proof.
  induction pre as [|l pre IH]; intros H; [reflexivity|].
  simpl in H. apply andb_true_iff in H. destruct H as [Hl Hpre].
  apply negb_true_iff in Hl. simpl. rewrite (step_outside l Hl). simpl. auto.
Qed.

(** The pass only appends to its two lists. *)
Lemma step_extends st l st' :
  line_step st l = Ok st' ->
  exists A D, added_lines st' = (added_lines st ++ A)%list /\
              deleted_lines st' = (deleted_lines st ++ D)%list.
Proof.
  unfold line_step. intros H.
  destruct (Str.startswith l "@@").
  - apply bind_Ok in H. destruct H as [n [_ H]]. injection H as <-.
    exists [], []. simpl. now rewrite !app_nil_r.
  - destruct (Str.startswith l "+").
    + destruct (current_line_new st) as [n|]; injection H as <-.
      * exists [n], []. simpl. now rewrite app_nil_r.
      * exists [], []. now rewrite !app_nil_r.
    + destruct (Str.startswith l "-").
      * destruct (current_line_old st) as [n|]; injection H as <-.
        -- exists [], [n]. simpl. now rewrite app_nil_r.
        -- exists [], []. now rewrite !app_nil_r.
      * injection H as <-. exists [], []. simpl. now rewrite !app_nil_r.
Qed.

Lemma run_extends lines : forall st st',
  for_each line_step lines st = Ok st' ->
  exists A D, added_lines st' = (added_lines st ++ A)%list /\
              deleted_lines st' = (deleted_lines st ++ D)%list.
Proof.
  induction lines as [|l ls IH]; intros st st' H; simpl in H.
  - injection H as <-. exists [], []. now rewrite !app_nil_r.
  - apply bind_Ok in H. destruct H as [st1 [H1 H2]].
    destruct (step_extends _ _ _ H1) as [A1 [D1 [Ea1 Ed1]]].
    destruct (IH _ _ H2) as [A2 [D2 [Ea2 Ed2]]].
    exists (A1 ++ A2)%list, (D1 ++ D2)%list.
    now rewrite Ea2, Ed2, Ea1, Ed1, !app_assoc.
Qed.

(** Inside a hunk: the counters and the lists after a body without
    markers. *)
Lemma run_body (body : list string) : forall st cn co,
  forallb not_hunk body = true ->
  current_line_new st = Some cn -> current_line_old st = Some co ->
  exists st' A D,
    for_each line_step body st = Ok st' /\
    current_line_new st' =
      Some (cn + Z.of_nat (count not_deleted body))%Z /\
    current_line_old st' =
      Some (co + Z.of_nat (count not_added body))%Z /\
    added_lines st' = (added_lines st ++ A)%list /\
    List.length A = count is_added body /\
    deleted_lines st' = (deleted_lines st ++ D)%list /\
    List.length D = count is_deleted body.
Proof.
  unfold count.
  induction body as [|l ls IH]; intros st cn co Hb Hn Ho.
  - exists st, [], []. simpl. rewrite !Z.add_0_r, !app_nil_r. auto 10.
  - simpl in Hb. apply andb_true_iff in Hb. destruct Hb as [Hl Hb].
    apply negb_true_iff in Hl. simpl for_each. simpl filter.
    unfold not_deleted at 1, not_added at 1.
    destruct (classify l) as [Hk|Hk|Hk|Hk1 Hk2 Hk3]; [congruence| | |].
    + rewrite (step_added st l cn Hk Hn). cbn [bind].
      match goal with
      | |- context [for_each line_step ls ?s] =>
          destruct (IH s (cn + 1)%Z co Hb eq_refl Ho)
            as [st' [A [D [R [En [Eo [Ea [La [Ed Ld]]]]]]]]]
      end.
      exists st', (cn :: A), D. simpl in Ea, Ed.
      rewrite Hk, (added_not_deleted l Hk). simpl.
      rewrite R, En, Eo, Ea, Ed, La, Ld, <- app_assoc. simpl.
      repeat split; f_equal; lia.
    + assert (Ha : is_added l = false).
      { destruct (is_added l) eqn:E; [|reflexivity].
        apply added_not_deleted in E. congruence. }
      rewrite (step_deleted st l co Hk Ho). cbn [bind].
      match goal with
      | |- context [for_each line_step ls ?s] =>
          destruct (IH s cn (co + 1)%Z Hb Hn eq_refl)
            as [st' [A [D [R [En [Eo [Ea [La [Ed Ld]]]]]]]]]
      end.
      exists st', A, (co :: D). simpl in Ea, Ed.
      rewrite Hk, Ha. simpl.
      rewrite R, En, Eo, Ea, Ed, La, Ld, <- app_assoc. simpl.
      repeat split; f_equal; lia.
    + rewrite (step_context st l Hk1 Hk2 Hk3). cbn [bind].
      match goal with
      | |- context [for_each line_step ls ?s] =>
          destruct (IH s (cn + 1)%Z (co + 1)%Z Hb)
            as [st' [A [D [R [En [Eo [Ea [La [Ed Ld]]]]]]]]];
          [simpl; now rewrite Hn | simpl; now rewrite Ho |]
      end.
      exists st', A, D. simpl in Ea, Ed.
      rewrite Hk2, Hk3. simpl.
      rewrite R, En, Eo, Ea, Ed, La, Ld.
      repeat split; f_equal; lia.
Qed.

(** Counters and recorded numbers are never negative. *)
Definition nonneg (st : line_state) : Prop :=
  Forall (fun k => 0 <= k)%Z (added_lines st) /\
  Forall (fun k => 0 <= k)%Z (deleted_lines st) /\
  (forall n, current_line_new st = Some n -> (0 <= n)%Z) /\
  (forall n, current_line_old st = Some n -> (0 <= n)%Z).

Lemma step_nonneg st l st' :
  line_step st l = Ok st' -> nonneg st -> nonneg st'.
Proof.
  unfold line_step, nonneg. intros H [Ha [Hd [Hn Ho]]].
  destruct (Str.startswith l "@@").
  - apply bind_Ok in H. destruct H as [n [Hp H]]. injection H as <-. simpl.
    apply HunkLine.hunk_start_nonneg in Hp.
    repeat split; auto; intros k [= <-]; assumption.
  - destruct (Str.startswith l "+").
    + destruct (current_line_new st) as [n|] eqn:En; injection H as <-; simpl.
      * specialize (Hn n eq_refl). repeat split; auto.
        -- apply Forall_app. split; [assumption | repeat constructor; lia].
        -- intros k [= <-]. lia.
      * repeat split; auto. rewrite En. discriminate.
    + destruct (Str.startswith l "-").
      * destruct (current_line_old st) as [n|] eqn:En; injection H as <-; simpl.
        -- specialize (Ho n eq_refl). repeat split; auto.
           ++ apply Forall_app. split; [assumption | repeat constructor; lia].
           ++ intros k [= <-]. lia.
        -- repeat split; auto. rewrite En. discriminate.
      * injection H as <-. simpl. repeat split; auto.
        -- intros k Hk. destruct (current_line_new st) as [n|]; [|discriminate].
           injection Hk as <-. specialize (Hn n eq_refl). lia.
        -- intros k Hk. destruct (current_line_old st) as [n|]; [|discriminate].
           injection Hk as <-. specialize (Ho n eq_refl). lia.
Qed.

Lemma run_nonneg lines : forall st st',
  for_each line_step lines st = Ok st' -> nonneg st -> nonneg st'.
Proof.
  induction lines as [|l ls IH]; intros st st' H Hn; simpl in H.
  - now injection H as <-.
  - apply bind_Ok in H. destruct H as [st1 [H1 H2]].
    eauto using step_nonneg.
Qed.

End LineRun.

Import LineRun.

(** Lines in front of the first hunk marker of a list play no part. *)
Theorem lines_before_first_hunk_ignored (pre lines : list string) :
  forallb not_hunk pre = true ->
  _parse_lines (pre ++ lines) = _parse_lines lines.
Proof.
  intros H. unfold _parse_lines.
  now rewrite for_each_app, (run_outside pre H).
Qed.

Lemma lines_before_first_hunk_ignored_witness :
  _parse_lines (["index 111..222"; "+++ b/foo.py"; "-gone"] ++
                ["@@ -1 +1,2 @@"; " a"; "+b"]) =
  _parse_lines ["@@ -1 +1,2 @@"; " a"; "+b"].
Proof.
  apply lines_before_first_hunk_ignored. vm_compute; reflexivity.
Defined.

(** The pass fails only at a hunk marker: it succeeds when every marker
    of the list parses, and raises the error of the first marker that does
    not. *)
Theorem parse_lines_fails_at_first_bad_marker :
  (forall lines,
     Forall (fun l => is_hunk l = true -> exists n, _parse_hunk_line l = Ok n)
            lines ->
     exists a d, _parse_lines lines = Ok (a, d)) /\
  (forall pre h post msg,
     Forall (fun l => is_hunk l = true -> exists n, _parse_hunk_line l = Ok n)
            pre ->
     is_hunk h = true -> _parse_hunk_line h = Raise msg ->
     _parse_lines (pre ++ h :: post) = Raise msg).
Proof.
  assert (Hrun : forall lines st,
    Forall (fun l => is_hunk l = true -> exists n, _parse_hunk_line l = Ok n)
           lines ->
    exists st', for_each line_step lines st = Ok st').
  { induction lines as [|l ls IH]; intros st H; [now exists st|].
    inversion H as [|? ? Hl Hls]; subst. simpl.
    destruct (is_hunk l) eqn:Hh.
    - destruct (Hl eq_refl) as [n Hn].
      rewrite LineFacts.step_hunk, Hn by assumption. simpl. apply IH, Hls.
    - destruct (step_total st l Hh) as [st1 [H1 _]]. rewrite H1. simpl.
      apply IH, Hls. }
  split.
  - intros lines H. destruct (Hrun lines line_init H) as [st' Hst].
    unfold _parse_lines. rewrite Hst. simpl. eauto.
  - intros pre h post msg Hpre Hh Hmsg.
    destruct (Hrun pre line_init Hpre) as [st1 Hst].
    unfold _parse_lines. rewrite for_each_app, Hst. simpl.
    now rewrite LineFacts.step_hunk, Hmsg by assumption.
Qed.

Lemma parse_lines_fails_at_first_bad_marker_witness :
  (exists a d, _parse_lines ["@@ -1 +1 @@"; "+x"; " y"] = Ok (a, d)) /\
  _parse_lines (["@@ -1 +1 @@"; "+x"] ++ "@@ -5 @@" :: ["+y"]) =
  Raise "Could not find start of hunk in line '@@ -5 @@'".
Proof.
  split.
  - apply (proj1 parse_lines_fails_at_first_bad_marker).
    repeat constructor; intros H; try discriminate H.
    exists 1%Z. reflexivity.
  - apply (proj2 parse_lines_fails_at_first_bad_marker).
    + repeat constructor; intros H; try discriminate H.
      exists 1%Z. reflexivity.
    + reflexivity.
    + reflexivity.
Defined.

(** The number recorded for an added line is the start of its hunk plus
    the number of lines between the marker and it that are not deleted
    lines; for a deleted line, plus the number of those that are not
    added lines.  [pre] is what comes before the marker, [b1] the lines of
    the hunk in front of [x], [b2] all that follows. *)
Theorem recorded_line_numbers (pre : list string) (h : string) (n : Z)
    (b1 : list string) (x : string) (b2 : list string) (a d : list Z) :
  is_hunk h = true -> _parse_hunk_line h = Ok n ->
  forallb not_hunk b1 = true ->
  _parse_lines (pre ++ h :: b1 ++ x :: b2) = Ok (a, d) ->
  exists a0 d0,
    _parse_lines pre = Ok (a0, d0) /\
    (is_added x = true ->
     nth_error a (List.length a0 + count is_added b1) =
     Some (n + Z.of_nat (count not_deleted b1))%Z) /\
    (is_deleted x = true ->
     nth_error d (List.length d0 + count is_deleted b1) =
     Some (n + Z.of_nat (count not_added b1))%Z).
Proof.
  intros Hh Hn Hb H. unfold _parse_lines in *.
  rewrite for_each_app in H.
  destruct (for_each line_step pre line_init) as [st0|] eqn:R0;
    [|discriminate].
  cbn [bind] in H. rewrite for_each_cons, LineFacts.step_hunk, Hn in H
    by assumption.
  cbn [bind] in H. rewrite for_each_app in H.
  match type of H with
  | context [for_each line_step b1 ?s] =>
      destruct (run_body b1 s n n Hb eq_refl eq_refl)
        as [st1 [A [D [R1 [En [Eo [Ea [La [Ed Ld]]]]]]]]]
  end.
  rewrite R1 in H. cbn [bind] in H. rewrite for_each_cons in H.
  simpl in Ea, Ed.
  exists (added_lines st0), (deleted_lines st0). split; [reflexivity|].
  split; intros Hx.
  - rewrite (LineFacts.step_added st1 x _ Hx En) in H. cbn [bind] in H.
    apply bind_Ok in H. destruct H as [st2 [R2 H]]. injection H as <- <-.
    destruct (run_extends _ _ _ R2) as [A2 [_ [E2 _]]]. simpl in E2.
    rewrite E2, Ea, <- La, <- !app_assoc.
    rewrite nth_error_app2 by lia.
    replace (List.length (added_lines st0) + List.length A -
             List.length (added_lines st0))%nat with (List.length A) by lia.
    rewrite nth_error_app2 by lia. now rewrite Nat.sub_diag.
  - rewrite (LineFacts.step_deleted st1 x _ Hx Eo) in H. cbn [bind] in H.
    apply bind_Ok in H. destruct H as [st2 [R2 H]]. injection H as <- <-.
    destruct (run_extends _ _ _ R2) as [_ [D2 [_ E2]]]. simpl in E2.
    rewrite E2, Ed, <- Ld, <- !app_assoc.
    rewrite nth_error_app2 by lia.
    replace (List.length (deleted_lines st0) + List.length D -
             List.length (deleted_lines st0))%nat with (List.length D) by lia.
    rewrite nth_error_app2 by lia. now rewrite Nat.sub_diag.
Qed.

Lemma recorded_line_numbers_witness :
  exists a0 d0,
    _parse_lines ["@@ -1 +1 @@"; "+p"] = Ok (a0, d0) /\
    (is_added "+z" = true ->
     nth_error [1; 21; 23]%Z
               (List.length a0 + count is_added [" w"; "-x"; "+y"; " v"]) =
     Some (20 + Z.of_nat (count not_deleted [" w"; "-x"; "+y"; " v"]))%Z) /\
    (is_deleted "+z" = true ->
     nth_error [21]%Z
               (List.length d0 + count is_deleted [" w"; "-x"; "+y"; " v"]) =
     Some (20 + Z.of_nat (count not_added [" w"; "-x"; "+y"; " v"]))%Z).
Proof.
  apply (recorded_line_numbers ["@@ -1 +1 @@"; "+p"] "@@ -20,4 +20,5 @@" 20%Z
           [" w"; "-x"; "+y"; " v"] "+z" [" u"]);
    vm_compute; reflexivity.
Defined.

(** No number the pass records is negative; so no result of the pass is
    the pair by which the no-history provider marks a whole file. *)
Theorem parsed_numbers_are_not_negative (lines : list string) (a d : list Z) :
  _parse_lines lines = Ok (a, d) ->
  Forall (fun k => 0 <= k)%Z a /\ Forall (fun k => 0 <= k)%Z d /\
  forall get_files path,
    (a, d) <> NoDiffTool.whole_file /\
    ~ In (a, d) (map snd (NoDiffTool._get_files_helper_lines get_files path)).
Proof.
  unfold _parse_lines. intros H.
  apply bind_Ok in H. destruct H as [st [R H]]. injection H as <- <-.
  assert (Hinit : nonneg line_init).
  { repeat split; simpl; try constructor; discriminate. }
  destruct (run_nonneg _ _ _ R Hinit) as [Ha [Hd _]].
  split; [assumption|]. split; [assumption|].
  assert (Hne : (added_lines st, deleted_lines st) <> NoDiffTool.whole_file).
  { unfold NoDiffTool.whole_file. intros [= E _]. rewrite E in Ha.
    inversion Ha; subst. lia. }
  intros get_files path. split; [assumption|].
  intros Hin. apply in_map_iff in Hin. destruct Hin as [[f v] [Hv Hin]].
  simpl in Hv. subst v.
  unfold NoDiffTool._get_files_helper_lines in Hin.
  apply (fold_set_In (fun p => p) (fun _ => NoDiffTool.whole_file)) in Hin.
  destruct Hin as [[]|[y [_ [_ E]]]]. now apply Hne.
Qed.

Lemma parsed_numbers_are_not_negative_witness :
  Forall (fun k => 0 <= k)%Z [2%Z] /\ Forall (fun k => 0 <= k)%Z [3%Z].
Proof.
  destruct (parsed_numbers_are_not_negative Samples.scenario_kept [2%Z] [3%Z])
    as [Ha [Hd _]]; [vm_compute; reflexivity|].
  split; assumption.
Defined.



(** ** [_parse_source_sections] *)

Module SectionMore.

Import SectionFacts SectionRun.

Definition header_parses (l : string) : Prop :=
  is_header l = true -> exists q, _parse_source_line l = Ok q.

(** Neither a header nor a hunk marker. *)
Definition inert (l : string) : bool := negb (is_header l) && negb (is_hunk l).

Definition not_header (l : string) : bool := negb (is_header l).

Lemma run_ok_headers lines : forall st st',
  for_each section_step lines st = Ok st' -> Forall header_parses lines.
Proof.
  induction lines as [|l ls IH]; intros st st' H; [constructor|].
  simpl in H. apply bind_Ok in H. destruct H as [st1 [H1 H2]].
  constructor; [|eauto].
  intros Hh. rewrite step_header in H1 by assumption.
  apply bind_Ok in H1. destruct H1 as [q [Hq _]]. eauto.
Qed.

Lemma kept_for_In p lines : forall cur fh x,
  In x (kept_for p cur fh lines) -> In x lines /\ is_header x = false.
Proof.
  induction lines as [|l ls IH]; intros cur fh x H; simpl in H; [destruct H|].
  destruct (is_header l) eqn:Hh.
  - destruct (_parse_source_line l); [|destruct H].
    destruct (IH _ _ _ H). split; [now right | assumption].
  - destruct (fh || is_hunk l).
    + apply in_app_or in H. destruct H as [H|H].
      * destruct (is_cur cur p); [|destruct H].
        destruct H as [<-|[]]. split; [now left | assumption].
      * destruct (IH _ _ _ H). split; [now right | assumption].
    + destruct (IH _ _ _ H). split; [now right | assumption].
Qed.

(** The only errors of the loop. *)
Lemma run_errors lines : forall st msg,
  for_each section_step lines st = Raise msg -> cur_known st ->
  (exists l, In l lines /\ is_hunk l = true /\
             msg = Str.format1 "Hunk has no source file: '" l "'") \/
  (exists l, In l lines /\ is_header l = true /\
             _parse_source_line l = Raise msg).
Proof.
  induction lines as [|l ls IH]; intros st msg H Hk; [discriminate|].
  simpl in H. destruct (section_step st l) as [st1|msg1] eqn:Hstep.
  - simpl in H. destruct (IH _ _ H (step_cur_known _ _ _ Hstep Hk))
      as [[l0 [Hin Hl0]]|[l0 [Hin Hl0]]].
    + left. exists l0. split; [now right | assumption].
    + right. exists l0. split; [now right | assumption].
  - simpl in H. injection H as <-. unfold section_step in Hstep.
    destruct (is_header l) eqn:Hh.
    + right. exists l. split; [now left|]. split; [assumption|].
      destruct (_parse_source_line l); [discriminate|].
      simpl in Hstep. congruence.
    + destruct (found_hunk st || is_hunk l); [|discriminate].
      destruct (src_path st) as [p|] eqn:Hcur.
      * exfalso. pose proof (Hk p Hcur) as Hmem. unfold dict_mem in Hmem.
        unfold append_line in Hstep.
        destruct (dict_get String.eqb (source_dict st) p); discriminate.
      * destruct (is_hunk l) eqn:Hhunk; [|discriminate].
        injection Hstep as <-. left. exists l. split; [now left|]. auto.
Qed.

(** Once a header has been read the loop goes on as long as the headers
    parse. *)
Lemma run_inside lines : forall st q,
  cur_known st -> src_path st = Some q -> Forall header_parses lines ->
  exists st', for_each section_step lines st = Ok st'.
Proof.
  induction lines as [|l ls IH]; intros st q Hk Hq H; [now exists st|].
  inversion H as [|? ? Hl Hls]; subst. simpl.
  assert (Hstep : exists st1 q1, section_step st l = Ok st1 /\
                                 src_path st1 = Some q1).
  { unfold section_step. destruct (is_header l) eqn:Hh.
    - destruct (Hl Hh) as [p Hp]. rewrite Hp. simpl.
      do 2 eexists. split; reflexivity.
    - destruct (found_hunk st || is_hunk l); [|exists st, q; auto].
      rewrite Hq. pose proof (Hk q Hq) as Hmem. unfold dict_mem in Hmem.
      unfold append_line.
      destruct (dict_get String.eqb (source_dict st) q);
        [|discriminate]. simpl. do 2 eexists. split; reflexivity. }
  destruct Hstep as [st1 [q1 [H1 Hq1]]]. rewrite H1. simpl.
  apply (IH st1 q1); eauto using step_cur_known.
Qed.

Lemma run_inert pre :
  forallb inert pre = true ->
  for_each section_step pre section_init = Ok section_init.
Proof.
  induction pre as [|l pre IH]; intros H; [reflexivity|].
  simpl in H. apply andb_true_iff in H. destruct H as [Hl Hpre].
  unfold inert in Hl. apply andb_true_iff in Hl. destruct Hl as [H1 H2].
  apply negb_true_iff in H1, H2. simpl.
  rewrite step_skip by auto. simpl. auto.
Qed.

(** Nothing is retained for a path that no header names. *)
Lemma kept_for_none p lines : forall cur fh,
  is_cur cur p = false -> forallb (fun l => negb (names p l)) lines = true ->
  kept_for p cur fh lines = [].
Proof.
  induction lines as [|l ls IH]; intros cur fh Hc H; [reflexivity|].
  simpl in H. apply andb_true_iff in H. destruct H as [Hl Hls].
  apply negb_true_iff in Hl. simpl. destruct (is_header l) eqn:Hh.
  - unfold names in Hl. rewrite Hh in Hl. simpl in Hl.
    destruct (_parse_source_line l) as [q|]; [|reflexivity]. now apply IH.
  - destruct (fh || is_hunk l); [rewrite Hc; simpl|]; now apply IH.
Qed.

(** In front of the section of [p]: nothing is retained for [p]. *)
Lemma kept_for_skip p pre rest : forall cur fh,
  is_cur cur p = false -> forallb (fun l => negb (names p l)) pre = true ->
  Forall header_parses pre ->
  exists cur' fh', is_cur cur' p = false /\
    kept_for p cur fh (pre ++ rest) = kept_for p cur' fh' rest.
Proof.
  induction pre as [|l pre IH]; intros cur fh Hc H Hp; [simpl; eauto|].
  simpl in H. apply andb_true_iff in H. destruct H as [Hl Hpre].
  apply negb_true_iff in Hl. inversion Hp as [|? ? Hpl Hppre]; subst.
  simpl. destruct (is_header l) eqn:Hh.
  - destruct (Hpl Hh) as [q Hq]. unfold names in Hl.
    rewrite Hh, Hq in Hl. simpl in Hl. rewrite Hq. now apply IH.
  - destruct (fh || is_hunk l); [rewrite Hc; simpl|]; now apply IH.
Qed.

Lemma kept_for_meta p meta rest :
  forallb inert meta = true ->
  kept_for p (Some p) false (meta ++ rest) = kept_for p (Some p) false rest.
Proof.
  induction meta as [|l meta IH]; intros H; [reflexivity|].
  simpl in H. apply andb_true_iff in H. destruct H as [Hl Hm].
  unfold inert in Hl. apply andb_true_iff in Hl. destruct Hl as [H1 H2].
  apply negb_true_iff in H1, H2. simpl. rewrite H1, H2. simpl. auto.
Qed.

Lemma kept_for_body p body rest :
  forallb not_header body = true ->
  kept_for p (Some p) true (body ++ rest) =
  (body ++ kept_for p (Some p) true rest)%list.
Proof.
  induction body as [|l body IH]; intros H; [reflexivity|].
  simpl in H. apply andb_true_iff in H. destruct H as [Hl Hb].
  apply negb_true_iff in Hl. simpl. rewrite Hl, String.eqb_refl. simpl.
  now rewrite (IH Hb).
Qed.

End SectionMore.

Module Totality.

Import SectionFacts SectionRun SectionMore.

Definition hunk_parses (l : string) : Prop :=
  is_hunk l = true -> exists n, _parse_hunk_line l = Ok n.

Lemma header_error (l msg : string) :
  is_header l = true -> _parse_source_line l = Raise msg ->
  msg = Str.format1 "Could not parse source path in line '" l "'".
Proof.
  intros Hh. unfold _parse_source_line.
  destruct (HeaderFacts.header_has_mark l Hh) as [Hg|[Hg Hc]].
  - rewrite Hg. cbn [bind].
    destruct (Re.findall SRC_FILE_RE l) as [|g [|g' gs]]; congruence.
  - rewrite Hg, Hc. cbn [bind].
    destruct (Re.findall MERGE_CONFLICT_RE l) as [|g [|g' gs]]; congruence.
Qed.

Lemma hunk_error (l msg : string) :
  is_hunk l = true -> _parse_hunk_line l = Raise msg ->
  (exists g, all_digits g = true /\
             (g = EmptyString \/
              (Z.of_nat (String.length g) <=? Str.int_max_str_digits)%Z
              = false) /\
             msg = Str.format1 "Could not parse '" g "' as a line number") \/
  msg = Str.format1 "Could not find start of hunk in line '" l "'".
Proof.
  intros Hh. unfold _parse_hunk_line.
  destruct (HunkFacts.split_hunk l Hh) as [rest [_ Hsplit]].
  destruct (HunkFacts.split_first rest) as [piece [pieces [tail [Hsp _]]]].
  rewrite Hsplit, Hsp.
  destruct (HunkFacts.findall_hunk piece true EmptyString piece eq_refl eq_refl)
    as [_ Hall].
  change (Re.findall_from HUNK_LINE_RE true (String.length "") piece)
    with (Re.findall HUNK_LINE_RE piece) in Hall.
  destruct (Re.findall HUNK_LINE_RE piece) as [|g [|g' gs]];
    try (intros [= <-]; now right).
  inversion Hall as [|? ? Hg _]; subst.
  destruct g as [|a g].
  - intros [= <-]. left. exists EmptyString. auto.
  - destruct (Z.of_nat (String.length (String a g)) <=?
              Str.int_max_str_digits)%Z eqn:Hlim.
    + destruct (HunkFacts.int_digits_run (String a g) Hg) as [n [Hn _]];
        [discriminate | assumption |]. rewrite Hn. discriminate.
    + rewrite (HunkFacts.int_long_run _ Hlim). intros [= <-].
      left. exists (String a g). auto.
Qed.

Lemma lines_total (lines : list string) : forall st,
  Forall hunk_parses lines -> exists st', for_each line_step lines st = Ok st'.
Proof.
  induction lines as [|l ls IH]; intros st H; [now exists st|].
  inversion H as [|? ? Hl Hls]; subst. simpl.
  destruct (is_hunk l) eqn:Hh.
  - destruct (Hl Hh) as [n Hn].
    rewrite LineFacts.step_hunk, Hn by assumption. simpl. apply IH, Hls.
  - destruct (step_total st l Hh) as [st1 [H1 _]]. rewrite H1. simpl.
    apply IH, Hls.
Qed.

Lemma lines_error (lines : list string) : forall st msg,
  for_each line_step lines st = Raise msg ->
  exists h, In h lines /\ is_hunk h = true /\ _parse_hunk_line h = Raise msg.
Proof.
  induction lines as [|l ls IH]; intros st msg H; [discriminate|].
  simpl in H. destruct (line_step st l) as [st1|msg1] eqn:Hstep; simpl in H.
  - destruct (IH _ _ H) as [h [Hin Hh]]. exists h. split; [now right|auto].
  - injection H as <-. exists l. split; [now left|].
    destruct (is_hunk l) eqn:Hh.
    + split; [reflexivity|]. rewrite LineFacts.step_hunk in Hstep by assumption.
      destruct (_parse_hunk_line l); [discriminate|].
      simpl in Hstep. congruence.
    + destruct (step_total st l Hh) as [st1 [H1 _]]. congruence.
Qed.

Lemma sections_total (pre rest : list string) :
  forallb inert pre = true ->
  (rest = [] \/ exists hd tl, rest = hd :: tl /\ is_header hd = true) ->
  Forall header_parses rest ->
  exists st, for_each section_step (pre ++ rest) section_init = Ok st.
Proof.
  intros Hpre Hrest Hall. rewrite for_each_app, (run_inert pre Hpre). simpl.
  destruct Hrest as [->|[hd [tl [-> Hh]]]]; [now exists section_init|].
  inversion Hall as [|? ? Hhd Htl]; subst.
  destruct (Hhd Hh) as [p Hp]. simpl. rewrite step_header, Hp by assumption.
  simpl. eapply run_inside; [|reflexivity|exact Htl].
  intros q [= <-]. unfold dict_mem. simpl. now rewrite String.eqb_refl.
Qed.

Lemma diff_loop_total top secs : forall acc,
  Forall (fun kv => exists v, _parse_lines (snd kv) = Ok v) secs ->
  exists dd, for_each (diff_step (Some top)) secs acc = Ok dd.
Proof.
  induction secs as [|kv secs IH]; intros acc H; [now exists acc|].
  inversion H as [|? ? [v Hv] Hs]; subst. simpl. rewrite Hv. simpl.
  apply IH, Hs.
Qed.

Lemma diff_loop_error top secs : forall acc msg,
  for_each (diff_step (Some top)) secs acc = Raise msg ->
  exists kv, In kv secs /\ _parse_lines (snd kv) = Raise msg.
Proof.
  induction secs as [|kv secs IH]; intros acc msg H; [discriminate|].
  simpl in H. destruct (_parse_lines (snd kv)) as [v|m] eqn:E; simpl in H.
  - destruct (IH _ _ H) as [kv' [Hin Hkv]]. exists kv'. split; [now right|auto].
  - injection H as <-. exists kv. split; [now left | assumption].
Qed.

Definition is_ok {A : Type} (m : result A) : bool :=
  match m with Ok _ => true | Raise _ => false end.

(** The two conditions, checked by evaluation. *)
Lemma checked_headers (lines : list string) :
  forallb (fun l => negb (is_header l) || is_ok (_parse_source_line l))
          lines = true ->
  Forall header_parses lines.
Proof.
  intros H. apply Forall_forall. intros l Hin Hh.
  rewrite forallb_forall in H. specialize (H l Hin). rewrite Hh in H.
  simpl in H. destruct (_parse_source_line l) as [q|]; [eauto | discriminate].
Qed.

Lemma checked_hunks (lines : list string) :
  forallb (fun l => negb (is_hunk l) || is_ok (_parse_hunk_line l))
          lines = true ->
  Forall hunk_parses lines.
Proof.
  intros H. apply Forall_forall. intros l Hin Hh.
  rewrite forallb_forall in H. specialize (H l Hin). rewrite Hh in H.
  simpl in H. destruct (_parse_hunk_line l) as [n|]; [eauto | discriminate].
Qed.

(** The lines of every section are lines of the text. *)
Lemma section_lines_in_text diff secs p L x :
  _parse_source_sections diff = Ok secs -> In (p, L) secs -> In x L ->
  In x (Str.split diff Str.nl) /\ is_header x = false.
Proof.
  intros Hs Hin Hx.
  apply In_dict_get in Hin; [|eapply sections_NoDup; eauto].
  rewrite (sections_get diff secs p Hs) in Hin.
  destruct (existsb _ _); [|discriminate]. injection Hin as <-.
  eapply kept_for_In; eauto.
Qed.

End Totality.

Import SectionMore Totality.

(** The keys of the sectioning pass are, without repetition, the paths
    that the header lines of the text name. *)
Theorem section_keys_are_named_paths (diff : string) (secs : sections) :
  _parse_source_sections diff = Ok secs ->
  NoDup (dict_keys secs) /\
  forall p, In p (dict_keys secs) <->
            exists l, In l (Str.split diff Str.nl) /\ is_header l = true /\
                      _parse_source_line l = Ok p.
Proof.
  intros Hs. split; [eapply SectionRun.sections_NoDup; eauto|].
  intros p. rewrite dict_get_keys, (SectionRun.sections_get diff secs p Hs).
  destruct (existsb (names p) (Str.split diff Str.nl)) eqn:E.
  - split; [|eauto]. intros _.
    apply existsb_exists in E. destruct E as [l [Hin Hn]].
    unfold names in Hn. apply andb_true_iff in Hn. destruct Hn as [Hh Hp].
    exists l. split; [assumption|]. split; [assumption|].
    destruct (_parse_source_line l) as [q|]; [|discriminate].
    apply String.eqb_eq in Hp. now subst.
  - split; [intros [v Hv]; discriminate|].
    intros [l [Hin [Hh Hp]]]. exfalso.
    assert (existsb (names p) (Str.split diff Str.nl) = true); [|congruence].
    apply existsb_exists. exists l. split; [assumption|].
    unfold names. now rewrite Hh, Hp, String.eqb_refl.
Qed.

Lemma section_keys_are_named_paths_witness :
  NoDup (dict_keys [("foo.py", Samples.scenario_kept)]) /\
  forall p, In p (dict_keys [("foo.py", Samples.scenario_kept)]) <->
            exists l, In l (Str.split Samples.scenario Str.nl) /\
                      is_header l = true /\ _parse_source_line l = Ok p.
Proof.
  apply section_keys_are_named_paths. vm_compute; reflexivity.
Defined.

(** For a path that one header names, the entry of the sectioning pass is
    the text of its section from the first hunk marker to the next header,
    every line as it stands: [meta] is what lies between the header and
    the marker [k0], [body] what follows the marker. *)
Theorem single_section_kept_verbatim (diff : string) (secs : sections)
    (pre : list string) (hd p : string) (meta : list string) (k0 : string)
    (body post : list string) :
  Str.split diff Str.nl = (pre ++ hd :: meta ++ (k0 :: body) ++ post)%list ->
  _parse_source_sections diff = Ok secs ->
  is_header hd = true -> _parse_source_line hd = Ok p ->
  forallb (fun l => negb (names p l)) (pre ++ post) = true ->
  forallb inert meta = true ->
  is_hunk k0 = true -> forallb not_header body = true ->
  (post = [] \/ exists h' tl, post = h' :: tl /\ is_header h' = true) ->
  dict_get String.eqb secs p = Some (k0 :: body).
Proof.
  intros Hsplit Hs Hh Hp Hnames Hmeta Hk0 Hbody Hpost.
  rewrite forallb_app in Hnames. apply andb_true_iff in Hnames.
  destruct Hnames as [Hn1 Hn2].
  rewrite (SectionRun.sections_get diff secs p Hs), Hsplit.
  rewrite (names_exists p hd pre _ Hh Hp). f_equal.
  assert (Hparse : Forall header_parses pre).
  { unfold _parse_source_sections in Hs. rewrite Hsplit in Hs.
    apply bind_Ok in Hs. destruct Hs as [st [Hrun _]].
    apply run_ok_headers in Hrun. apply Forall_app in Hrun. tauto. }
  destruct (kept_for_skip p pre (hd :: meta ++ (k0 :: body) ++ post)
              None false eq_refl Hn1 Hparse) as [cur' [fh' [_ ->]]].
  cbn [kept_for]. rewrite Hh, Hp, (kept_for_meta p meta _ Hmeta).
  cbn [app kept_for].
  assert (Hk0h : is_header k0 = false).
  { destruct (is_header k0) eqn:E; [|reflexivity].
    apply SectionFacts.header_not_hunk in E. congruence. }
  rewrite Hk0h, Hk0. cbn [orb is_cur]. rewrite String.eqb_refl. cbn [app].
  rewrite (kept_for_body p body post Hbody). do 2 f_equal.
  destruct Hpost as [->|[h' [tl [-> Hh']]]]; [now rewrite app_nil_r|].
  rewrite <- (app_nil_r body) at 2. f_equal.
  simpl in Hn2. apply andb_true_iff in Hn2. destruct Hn2 as [Hn2 Hn3].
  apply negb_true_iff in Hn2. unfold names in Hn2. rewrite Hh' in Hn2.
  cbn [kept_for]. rewrite Hh'.
  destruct (_parse_source_line h') as [q|]; [|reflexivity].
  now apply kept_for_none.
Qed.

Lemma single_section_kept_verbatim_witness :
  dict_get String.eqb
    [("foo.py", ["@@ -1 +1,2 @@"; " a"; "+b"; "@@ -7,2 +8 @@"; "-c"; " d"]);
     ("bar.py", ["@@ -3 +3 @@"; "-x"; "+y"])] "bar.py" =
  Some ("@@ -3 +3 @@" :: ["-x"; "+y"]).
Proof.
  apply (single_section_kept_verbatim Samples.two_sections _
           ["diff --git a/foo.py b/foo.py"; "@@ -1 +1,2 @@"; " a"; "+b"]
           "diff --git a/bar.py b/bar.py" "bar.py" [] "@@ -3 +3 @@"
           ["-x"; "+y"]
           ["diff --git a/foo.py b/foo.py"; "@@ -7,2 +8 @@"; "-c"; " d"]);
    try (vm_compute; reflexivity).
  right. do 2 eexists. split; reflexivity.
Defined.

(** What precedes the first header, when it holds no hunk marker, plays
    no part in the parse. *)
Theorem preamble_is_ignored (diff diff' : string) (pre : list string) :
  Str.split diff Str.nl = (pre ++ Str.split diff' Str.nl)%list ->
  forallb inert pre = true ->
  _parse_source_sections diff = _parse_source_sections diff' /\
  forall top_level, _parse_diff_str top_level diff = _parse_diff_str top_level diff'.
Proof.
  intros Hsplit Hpre.
  assert (H : _parse_source_sections diff = _parse_source_sections diff').
  { unfold _parse_source_sections.
    now rewrite Hsplit, for_each_app, (run_inert pre Hpre). }
  split; [assumption|]. intros top. unfold _parse_diff_str. now rewrite H.
Qed.

Lemma preamble_is_ignored_witness :
  _parse_source_sections
    ("warning: LF will be replaced by CRLF" ++ Str.nl ++ Samples.scenario) =
  _parse_source_sections Samples.scenario.
Proof.
  apply (preamble_is_ignored _ Samples.scenario
           ["warning: LF will be replaced by CRLF"]);
    vm_compute; reflexivity.
Defined.

(** A text whose header lines and hunk markers all parse, and in which no
    hunk marker precedes the first header, is accepted once the root is
    resolved: no other error can arise. *)
Theorem well_formed_text_parses (top diff : string) (pre rest : list string) :
  Str.split diff Str.nl = (pre ++ rest)%list ->
  forallb inert pre = true ->
  (rest = [] \/ exists hd tl, rest = hd :: tl /\ is_header hd = true) ->
  Forall header_parses rest -> Forall hunk_parses rest ->
  exists r, _parse_diff_str (Some top) diff = Ok r.
Proof.
  intros Hsplit Hpre Hrest Hhead Hhunk.
  destruct (sections_total pre rest Hpre Hrest Hhead) as [st Hrun].
  assert (Hs : _parse_source_sections diff = Ok (source_dict st)).
  { unfold _parse_source_sections. now rewrite Hsplit, Hrun. }
  unfold _parse_diff_str. rewrite Hs. cbn [bind].
  destruct (diff_loop_total top (source_dict st) []) as [dd Hdd].
  - apply Forall_forall. intros [p L] Hin. simpl.
    destruct (lines_total L line_init) as [st' Hst'].
    + apply Forall_forall. intros x Hx.
      destruct (section_lines_in_text diff _ p L x Hs Hin Hx) as [Hx' Hxh].
      rewrite Hsplit in Hx'. apply in_app_or in Hx'. destruct Hx' as [Hx'|Hx'].
      * intros Hxk. rewrite forallb_forall in Hpre. apply Hpre in Hx'.
        unfold inert in Hx'. rewrite Hxk, andb_false_r in Hx'. discriminate.
      * rewrite Forall_forall in Hhunk. now apply Hhunk.
    + unfold _parse_lines. rewrite Hst'. simpl. eauto.
  - rewrite Hdd. simpl. eauto.
Qed.

Lemma well_formed_text_parses_witness :
  exists r, _parse_diff_str (Some "/repo") Samples.named_twice = Ok r.
Proof.
  apply (well_formed_text_parses "/repo" Samples.named_twice []
           ["diff --git a/foo.py b/foo.py"; "@@ -1 +1,2 @@"; " a"; "+b";
            "diff --git a/foo.py b/foo.py"; "index 111..222 100644"]).
  - vm_compute; reflexivity.
  - reflexivity.
  - right. do 2 eexists. split; [reflexivity | vm_compute; reflexivity].
  - apply checked_headers. vm_compute; reflexivity.
  - apply checked_hunks. vm_compute; reflexivity.
Defined.

(** With the root resolved, every error of the parse is one of four
    messages about a line of the text: a hunk marker outside any file
    section, a header whose path cannot be extracted, a hunk marker with
    no or with several runs after a plus sign, a hunk marker whose one run
    of digits is empty or longer than [int] accepts.  No other exception
    leaves the parse. *)
Theorem parse_error_messages (top diff msg : string) :
  _parse_diff_str (Some top) diff = Raise msg ->
  exists l, In l (Str.split diff Str.nl) /\
    ((is_hunk l = true /\
      msg = "Hunk has no source file: '" ++ l ++ "'") \/
     (is_header l = true /\
      msg = "Could not parse source path in line '" ++ l ++ "'") \/
     (is_hunk l = true /\
      msg = "Could not find start of hunk in line '" ++ l ++ "'") \/
     (is_hunk l = true /\
      exists g, all_digits g = true /\
        (g = EmptyString \/
         (Z.of_nat (String.length g) <=? Str.int_max_str_digits)%Z = false) /\
        msg = "Could not parse '" ++ g ++ "' as a line number")).
Proof.
  unfold _parse_diff_str. intros H.
  destruct (_parse_source_sections diff) as [secs|m] eqn:Hs.
  - cbn [bind] in H.
    destruct (for_each (diff_step (Some top)) secs []) as [dd|m] eqn:Hd;
      [discriminate|].
    simpl in H. injection H as ->.
    destruct (diff_loop_error _ _ _ _ Hd) as [[p L] [Hin HL]]. simpl in HL.
    unfold _parse_lines in HL.
    destruct (for_each line_step L line_init) as [st|m] eqn:Hrun;
      [discriminate|].
    simpl in HL. injection HL as ->.
    destruct (lines_error _ _ _ Hrun) as [h [Hh [Hk Hm]]].
    destruct (section_lines_in_text diff secs p L h Hs Hin Hh) as [Hin' _].
    exists h. split; [assumption|].
    destruct (hunk_error h msg Hk Hm) as [[g [Hg [Hcase ->]]]| ->].
    + right. right. right. split; [assumption|]. exists g. auto.
    + right. right. left. auto.
  - simpl in H. injection H as ->. unfold _parse_source_sections in Hs.
    destruct (for_each section_step (Str.split diff Str.nl) section_init)
      as [st|m] eqn:Hrun; [discriminate|].
    simpl in Hs. injection Hs as ->.
    destruct (run_errors _ _ _ Hrun SectionRun.init_cur_known)
      as [[l [Hin [Hk ->]]]|[l [Hin [Hh Hm]]]].
    + exists l. split; [assumption|]. left. auto.
    + exists l. split; [assumption|]. right. left.
      split; [assumption|]. now apply header_error.
Qed.

Lemma parse_error_messages_witness :
  exists l, In l (Str.split Samples.orphan_hunk Str.nl) /\
    ((is_hunk l = true /\
      "Hunk has no source file: '@@ -1 +1 @@'" =
      "Hunk has no source file: '" ++ l ++ "'") \/
     (is_header l = true /\
      "Hunk has no source file: '@@ -1 +1 @@'" =
      "Could not parse source path in line '" ++ l ++ "'") \/
     (is_hunk l = true /\
      "Hunk has no source file: '@@ -1 +1 @@'" =
      "Could not find start of hunk in line '" ++ l ++ "'") \/
     (is_hunk l = true /\
      exists g, all_digits g = true /\
        (g = EmptyString \/
         (Z.of_nat (String.length g) <=? Str.int_max_str_digits)%Z = false) /\
        "Hunk has no source file: '@@ -1 +1 @@'" =
        "Could not parse '" ++ g ++ "' as a line number")).
Proof.
  apply (parse_error_messages "/repo" Samples.orphan_hunk).
  vm_compute; reflexivity.
Defined.

(** ** Sorting *)

Module SortFacts.

Section ByKey.
Context {A : Type} (key : A -> string).

Definition key_le (x y : A) : Prop := String.leb (key x) (key y) = true.

Lemma insert_sorted_perm (x : A) (l : list A) :
  Permutation (insert_sorted key x l) (x :: l).
Proof.
  induction l as [|y l IH]; simpl; [reflexivity|].
  destruct (String.leb (key x) (key y)); [reflexivity|].
  rewrite IH. apply perm_swap.
Qed.

Lemma sorted_by_perm (l : list A) : Permutation (sorted_by key l) l.
Proof.
  induction l as [|x l IH]; simpl; [reflexivity|].
  rewrite insert_sorted_perm. now constructor.
Qed.

Lemma insert_sorted_hd (x y : A) (l : list A) :
  key_le y x -> HdRel key_le y l -> HdRel key_le y (insert_sorted key x l).
Proof.
  intros Hyx Hl. destruct l as [|z l]; simpl; [now constructor|].
  destruct (String.leb (key x) (key z)); constructor; [assumption|].
  now inversion Hl.
Qed.

Lemma insert_sorted_sorted (x : A) (l : list A) :
  Sorted key_le l -> Sorted key_le (insert_sorted key x l).
Proof.
  induction 1 as [|y l Hl IH Hhd]; simpl; [repeat constructor|].
  destruct (String.leb (key x) (key y)) eqn:E.
  - constructor; [now constructor|]. now constructor.
  - constructor; [assumption|]. apply insert_sorted_hd; [|assumption].
    unfold key_le. destruct (String.leb_total (key x) (key y)); congruence.
Qed.

Lemma sorted_by_sorted (l : list A) : Sorted key_le (sorted_by key l).
Proof.
  induction l as [|x l IH]; simpl; [constructor|].
  now apply insert_sorted_sorted.
Qed.

End ByKey.

Lemma sorted_by_keys_NoDup {V : Type} (d : list (string * V)) :
  NoDup (dict_keys d) -> NoDup (dict_keys (make_sorted_dict d)).
Proof.
  unfold dict_keys, make_sorted_dict. intros H.
  eapply Permutation_NoDup; [|exact H].
  apply Permutation_map. symmetry. apply sorted_by_perm.
Qed.

End SortFacts.

(** ** [DiffTool]: the providers chosen *)

Module RootFacts.

Section AnyKey.
Context {K V : Type} (eqb : K -> K -> bool).
Hypothesis eqb_spec : forall a b, eqb a b = true <-> a = b.

Lemma mem_keys (d : list (K * V)) (k : K) :
  dict_mem eqb d k = true <-> In k (dict_keys d).
Proof.
  unfold dict_mem. induction d as [|[k0 v0] d IH]; simpl.
  - split; [discriminate | tauto].
  - destruct (eqb k k0) eqn:E.
    + apply eqb_spec in E. subst. split; auto.
    + rewrite IH. split; [auto|]. intros [H|H]; [|assumption].
      subst. assert (eqb k k = true) by now apply eqb_spec. congruence.
Qed.

Lemma set_new (d : list (K * V)) (k : K) (v : V) :
  dict_mem eqb d k = false -> dict_set eqb d k v = (d ++ [(k, v)])%list.
Proof.
  unfold dict_mem. induction d as [|[k0 v0] d IH]; simpl; [reflexivity|].
  destruct (eqb k k0); [discriminate|]. intros H. now rewrite IH.
Qed.

End AnyKey.

Lemma option_string_eqb_spec (a b : option string) :
  DiffTool.option_string_eqb a b = true <-> a = b.
Proof.
  destruct a as [x|], b as [y|]; simpl; try (split; congruence).
  rewrite String.eqb_eq. split; congruence.
Qed.

Section Roots.

Variable run_command : list string -> string -> string * string.

Let select := DiffTool.select_tool run_command DiffTool.TOOLS.
Let register := DiffTool.register run_command.
Let top := DiffTool.top_level run_command.

(** The provider chosen for a path. *)
Lemma select_cases (p : string) :
  (GitDiffTool.is_repo run_command p = true /\
   select p = Some (DiffTool.Git p)) \/
  (GitDiffTool.is_repo run_command p = false /\
   select p = Some (DiffTool.NoDiff p)).
Proof.
  unfold select, DiffTool.TOOLS.
  cbn [DiffTool.select_tool DiffTool.is_repo].
  destruct (GitDiffTool.is_repo run_command p); [left | right]; split;
    reflexivity.
Qed.

(** A step of the outer loop appends one entry or none. *)
Lemma register_cases (dts : list (option string * DiffTool.tool)) (p : string) :
  exists t, select p = Some t /\
    ((In (top t) (dict_keys dts) /\ register dts p = dts) \/
     (~ In (top t) (dict_keys dts) /\
      register dts p = (dts ++ [(top t, t)])%list)).
Proof.
  assert (Hsel : exists t, select p = Some t).
  { destruct (select_cases p) as [[_ H]|[_ H]]; eauto. }
  destruct Hsel as [t Ht]. exists t. split; [assumption|].
  unfold register, DiffTool.register. fold select. rewrite Ht. fold top.
  destruct (dict_mem DiffTool.option_string_eqb dts (top t)) eqn:E.
  - left. split; [|reflexivity].
    now apply (mem_keys _ option_string_eqb_spec).
  - right. split.
    + intros Hin. apply (mem_keys _ option_string_eqb_spec) in Hin.
      congruence.
    + now apply set_new.
Qed.

(** What the outer loop keeps true. *)
Lemma init_inv (paths : list string) : forall acc,
  exists ext,
    fold_left register paths acc = (acc ++ ext)%list /\
    (NoDup (dict_keys acc) -> NoDup (dict_keys (acc ++ ext))) /\
    (forall k t, In (k, t) ext ->
       k = top t /\ exists p, In p paths /\ select p = Some t) /\
    (forall p t, In p paths -> select p = Some t ->
       In (top t) (dict_keys (acc ++ ext))).
Proof.
  induction paths as [|p paths IH]; intros acc.
  - exists []. rewrite app_nil_r. simpl. repeat split; auto; tauto.
  - cbn [fold_left].
    destruct (register_cases acc p) as [t [Ht [[Hin Hr]|[Hnin Hr]]]];
      fold register in Hr; rewrite Hr.
    + destruct (IH acc) as [ext [E [ND [Hext Hcov]]]].
      exists ext. split; [assumption|]. split; [assumption|]. split.
      * intros k t' Hk. destruct (Hext k t' Hk) as [Hkt [q [Hq Hs]]].
        split; [assumption|]. exists q. split; [now right | assumption].
      * intros q t' [<-|Hq] Hs; [|eauto].
        assert (t' = t) by congruence. subst t'.
        unfold dict_keys. rewrite map_app. apply in_or_app. now left.
    + destruct (IH (acc ++ [(top t, t)])%list) as [ext [E [ND [Hext Hcov]]]].
      exists ((top t, t) :: ext). rewrite E, <- app_assoc. simpl.
      split; [reflexivity|]. split; [|split].
      * intros Hacc.
        replace (acc ++ (top t, t) :: ext)%list
          with ((acc ++ [(top t, t)]) ++ ext)%list
          by now rewrite <- app_assoc.
        apply ND. unfold dict_keys. rewrite map_app. simpl.
        apply NoDup_app; [assumption | repeat constructor; auto |].
        intros x Hx [<-|[]]. now apply Hnin.
      * intros k t' [[= <- <-]|Hk].
        -- split; [reflexivity|]. exists p. split; [now left | assumption].
        -- destruct (Hext k t' Hk) as [Hkt [q [Hq Hs]]].
           split; [assumption|]. exists q. split; [now right | assumption].
      * intros q t' [<-|Hq] Hs.
        -- assert (t' = t) by congruence. subst t'.
           unfold dict_keys. rewrite map_app. apply in_or_app. right.
           now left.
        -- replace (acc ++ (top t, t) :: ext)%list
             with ((acc ++ [(top t, t)]) ++ ext)%list
             by now rewrite <- app_assoc.
           eauto.
Qed.

End Roots.

End RootFacts.

Lemma keys_NoDup_unique {K V : Type} (d : list (K * V)) (k : K) (v v' : V) :
  NoDup (dict_keys d) -> In (k, v) d -> In (k, v') d -> v = v'.
Proof.
  unfold dict_keys. induction d as [|[k0 v0] d IH]; simpl; [tauto|].
  intros ND H H'. inversion ND as [|? ? Hn ND']; subst.
  destruct H as [H|H], H' as [H'|H'].
  - congruence.
  - exfalso. apply Hn. injection H as -> _.
    apply in_map_iff. now exists (k, v').
  - exfalso. apply Hn. injection H' as -> _.
    apply in_map_iff. now exists (k, v).
  - auto.
Qed.

Lemma init_NoDup (run_command : list string -> string -> string * string)
    (paths : list string) :
  NoDup (dict_keys (DiffTool.__init__ run_command paths)).
Proof.
  unfold DiffTool.__init__.
  destruct (RootFacts.init_inv run_command paths []) as [ext [E [ND _]]].
  rewrite E. apply ND. constructor.
Qed.

(** The providers the aggregator keeps have distinct roots; each is keyed
    by its own root and is the provider chosen for one of the paths: the
    distributed-VCS provider where it reports a repository, the no-history
    provider elsewhere, the stub never.  The root of every path is among
    the keys. *)
Theorem aggregator_roots
    (run_command : list string -> string -> string * string)
    (paths : list string) :
  NoDup (dict_keys (DiffTool.__init__ run_command paths)) /\
  (forall k t,
     In (k, t) (DiffTool.__init__ run_command paths) ->
     k = DiffTool.top_level run_command t /\
     exists p, In p paths /\
       ((t = DiffTool.Git p /\ GitDiffTool.is_repo run_command p = true) \/
        (t = DiffTool.NoDiff p /\
         GitDiffTool.is_repo run_command p = false))) /\
  (forall p,
     In p paths ->
     In (if GitDiffTool.is_repo run_command p
         then GitDiffTool.top_level run_command p
         else Some p)
        (dict_keys (DiffTool.__init__ run_command paths))).
Proof.
  unfold DiffTool.__init__.
  destruct (RootFacts.init_inv run_command paths [])
    as [ext [E [ND [Hext Hcov]]]].
  rewrite E. change ([] ++ ext)%list with ext in *.
  split; [apply ND; constructor|]. split.
  - intros k t Hin. destruct (Hext k t Hin) as [Hk [p [Hp Hs]]].
    split; [assumption|]. exists p. split; [assumption|].
    destruct (RootFacts.select_cases run_command p) as [[Hg H]|[Hg H]];
      [left | right]; split; congruence.
  - intros p Hp.
    destruct (RootFacts.select_cases run_command p) as [[Hg H]|[Hg H]];
      rewrite Hg; apply (Hcov p _ Hp H).
Qed.

(** Of several paths with the same root, the first one provides the
    provider kept for that root. *)
Theorem first_path_of_a_root_provides_its_tool
    (run_command : list string -> string -> string * string)
    (pre : list string) (p : string) (post : list string) (t : DiffTool.tool) :
  DiffTool.select_tool run_command DiffTool.TOOLS p = Some t ->
  (forall q t', In q pre ->
     DiffTool.select_tool run_command DiffTool.TOOLS q = Some t' ->
     DiffTool.top_level run_command t' <> DiffTool.top_level run_command t) ->
  In (DiffTool.top_level run_command t, t)
     (DiffTool.__init__ run_command (pre ++ p :: post)) /\
  forall t',
    In (DiffTool.top_level run_command t, t')
       (DiffTool.__init__ run_command (pre ++ p :: post)) -> t' = t.
Proof.
  intros Hsel Hpre.
  assert (Hin : In (DiffTool.top_level run_command t, t)
                   (DiffTool.__init__ run_command (pre ++ p :: post))).
  { unfold DiffTool.__init__. rewrite fold_left_app. cbn [fold_left].
    destruct (RootFacts.init_inv run_command pre [])
      as [ext [E [_ [Hext _]]]].
    rewrite E. simpl app.
    destruct (RootFacts.register_cases run_command ext p)
      as [t0 [Ht0 [[Hk Hr]|[Hk Hr]]]];
      assert (t0 = t) by congruence; subst t0.
    - exfalso. apply in_map_iff in Hk. destruct Hk as [[k t'] [Hk Hin]].
      simpl in Hk. destruct (Hext k t' Hin) as [Hkt [q [Hq Hs]]].
      apply (Hpre q t' Hq Hs). congruence.
    - rewrite Hr.
      destruct (RootFacts.init_inv run_command post
                  (ext ++ [(DiffTool.top_level run_command t, t)])%list)
        as [ext2 [E2 _]].
      rewrite E2. apply in_or_app. left. apply in_or_app. right. now left. }
  split; [assumption|]. intros t' Hin'.
  exact (keys_NoDup_unique _ _ _ _ (init_NoDup run_command _) Hin' Hin).
Qed.

Lemma first_path_of_a_root_provides_its_tool_witness :
  In (Some "/b", DiffTool.NoDiff "/b")
     (DiffTool.__init__ Samples.not_a_repo ["/a"; "/b"; "/b/"; "/b"]) /\
  forall t',
    In (Some "/b", t')
       (DiffTool.__init__ Samples.not_a_repo ["/a"; "/b"; "/b/"; "/b"]) ->
    t' = DiffTool.NoDiff "/b".
Proof.
  apply (first_path_of_a_root_provides_its_tool Samples.not_a_repo
           ["/a"] "/b" ["/b/"; "/b"] (DiffTool.NoDiff "/b")).
  - reflexivity.
  - intros q t' [<-|[]] [= <-]. discriminate.
Defined.

(** ** [GitDiffTool.is_repo] *)

(** The provider reports a repository exactly when [git rev-parse] prints
    nothing at all, neither on its output nor on its error stream. *)
Theorem is_repo_iff_silent
    (run_command : list string -> string -> string * string)
    (path : string) :
  GitDiffTool.is_repo run_command path = true <->
  run_command ["git"; "rev-parse"] path = (EmptyString, EmptyString).
Proof.
  unfold GitDiffTool.is_repo.
  destruct (run_command ["git"; "rev-parse"] path) as [output error].
  destruct output, error; simpl; split; congruence.
Qed.

(** ** [DiffTool]: the file queries *)

Section Aggregate.

Variable run_command : list string -> string -> string * string.
Variable get_files : list string -> list string.
Variables COMMITED_MODE STAGED_MODE UNSTAGED_MODE DEFAULT_BRANCH : string.

Let tool_files :=
  DiffTool.tool_files run_command get_files COMMITED_MODE STAGED_MODE
                      UNSTAGED_MODE DEFAULT_BRANCH.
Let files :=
  DiffTool.files run_command get_files COMMITED_MODE STAGED_MODE
                 UNSTAGED_MODE DEFAULT_BRANCH.

Lemma files_loop (m : DiffTool.change_mode) (branch : string)
    (tools : list (option string * DiffTool.tool)) : forall acc,
  match for_each (fun results kt =>
                    fs <- tool_files m branch (snd kt) ;;
                    Ok (results ++ fs)%list) tools acc with
  | Ok res =>
      exists parts,
        Forall2 (fun kt part => tool_files m branch (snd kt) = Ok part)
                tools parts /\
        res = (acc ++ concat parts)%list
  | Raise msg =>
      exists pre kt post,
        tools = (pre ++ kt :: post)%list /\
        Forall (fun kt' => exists part,
                  tool_files m branch (snd kt') = Ok part) pre /\
        tool_files m branch (snd kt) = Raise msg
  end.
Proof.
  induction tools as [|kt tools IH]; intros acc; simpl.
  - exists []. split; [constructor | now rewrite app_nil_r].
  - destruct (tool_files m branch (snd kt)) as [fs|msg] eqn:E; simpl.
    + specialize (IH (acc ++ fs)%list).
      destruct (for_each _ tools (acc ++ fs)%list) as [res|msg].
      * destruct IH as [parts [Hparts ->]]. exists (fs :: parts).
        split; [now constructor | simpl; now rewrite app_assoc].
      * destruct IH as [pre [kt' [post [-> [Hpre Hkt]]]]].
        exists (kt :: pre), kt', post. split; [reflexivity|].
        split; [|assumption]. constructor; [now exists fs | assumption].
    + exists [], kt, tools. split; [reflexivity|]. split; [constructor|].
      assumption.
Qed.

(** A file query of the aggregator asks every provider it keeps, in the
    order of their registration.  When all answer, the result is the
    concatenation of the answers put in ascending order: nothing is
    dropped and a path two providers report is listed twice.  When one
    raises, the query raises the error of the first that does. *)
Theorem aggregator_files (diff_tools : list (option string * DiffTool.tool))
    (m : DiffTool.change_mode) (branch : string) :
  match files diff_tools m branch with
  | Ok fs =>
      Sorted (fun x y => String.leb x y = true) fs /\
      exists parts,
        Forall2 (fun kt part => tool_files m branch (snd kt) = Ok part)
                diff_tools parts /\
        Permutation fs (concat parts)
  | Raise msg =>
      exists pre kt post,
        diff_tools = (pre ++ kt :: post)%list /\
        Forall (fun kt' => exists part,
                  tool_files m branch (snd kt') = Ok part) pre /\
        tool_files m branch (snd kt) = Raise msg
  end.
Proof.
  unfold files, DiffTool.files. fold tool_files.
  pose proof (files_loop m branch diff_tools []) as H.
  destruct (for_each _ diff_tools []) as [res|msg]; simpl.
  - destruct H as [parts [Hparts ->]]. split.
    + apply (SortFacts.sorted_by_sorted (fun s : string => s)).
    + exists parts. split; [assumption|]. simpl.
      apply (SortFacts.sorted_by_perm (fun s : string => s)).
  - exact H.
Qed.

End Aggregate.
